(** * Solar-Crypto-Bot: the trading pipeline, embedded and verified

    A shallow embedding of the services of [src/services/core]:

    - [market_analysis_service.py]: the indicator functions and the signal
      generator;
    - [order_management_service.py]: the bracket order manager;
    - [portfolio_service.py]: portfolio metrics and the risk check;
    - [trading_bot_service.py]: signal execution and the trailing stop.

    Conventions of the embedding.

    - A Python [float] is an exact rational ([Q]); [nan] and the infinities of
      numpy are not represented.  Comparisons are the boolean tests the code
      performs.  Python's [/] on floats raises [ZeroDivisionError] on a zero
      divisor: [py_div] returns [None] there.
    - [None] of an [Optional] column is [None] of [option]; Python truthiness
      of an optional float ([if x:]) is [truthy]: false on [None] and on zero.
    - A [uuid] is a natural number drawn from a counter of the world.
    - The database is a record of tables (lists of rows).  The exchange is an
      oracle: a function from the history of calls and the next request to
      the reply, [None] standing for a raised exception.  Every call is
      appended to the history, so that the order of the calls is observable.
    - A method with [try: ... except Exception] is a computation in the monad
      [M] closed by [try_except]: the effects performed before the exception
      stay in the world, as they do in Python.
    - The database itself does not fail: a statement raises only where the
      code indexes an empty result ([...[0]]) or writes [None] into a column
      declared [float].  A primary key is unique: the theorems that need it
      assume that the identifiers of a table have no duplicate.
    - Printed messages, formatted alert messages and pauses ([asyncio.sleep])
      are left out; a row object ([Order], [Position]) is true in a test.
    - [np_sqrt] and [np_log] stand for the square root and the logarithm of
      numpy, the only functions of the code that leave the rationals; the
      definitions that need them take them as parameters. *)

From Stdlib Require Import QArith Qabs Qminmax Qround Lia Lqa ZArith List String.
From stdpp Require Import base gmap strings list pretty.

Open Scope Q_scope.

(** ** Numbers *)

Definition Qltb (x y : Q) : bool := negb (Qle_bool y x).
Definition Qgtb (x y : Q) : bool := Qltb y x.

(** [if x:] on an optional float. *)
Definition truthy (x : option Q) : bool :=
  match x with
  | None => false
  | Some v => negb (Qeq_bool v 0)
  end.

(** Python's [a / b] on floats. *)
Definition py_div (a b : Q) : option Q :=
  if Qeq_bool b 0 then None else Some (a / b).

(** Python's [min] and [max] of two floats: the first argument is kept unless
    the second is strictly smaller (resp. larger). *)
Definition py_min (a b : Q) : Q := if Qltb b a then b else a.
Definition py_max (a b : Q) : Q := if Qgtb b a then b else a.

Definition Qsum (l : list Q) : Q := fold_right Qplus 0 l.

(** Python's [sum]: a left fold from [0]. *)
Definition py_sum (l : list Q) : Q := fold_left Qplus l 0.

(** [ORDER BY key DESC] and [list.sort(key=..., reverse=True)]: a stable
    sort, [geb x y] telling that the key of [x] is at least that of [y]. *)
Fixpoint insert_desc {A} (geb : A -> A -> bool) (x : A) (l : list A) : list A :=
  match l with
  | [] => [x]
  | y :: t => if geb x y then x :: y :: t else y :: insert_desc geb x t
  end.

Definition sort_desc {A} (geb : A -> A -> bool) (l : list A) : list A :=
  fold_right (insert_desc geb) [] l.

(** [round(x, ndigits)]: to the nearest multiple of [10^-ndigits], ties to
    the even one. *)
Definition round_half_even (x : Q) : Z :=
  let f := Qfloor x in
  let r := x - inject_Z f in
  if Qltb r (1 # 2) then f
  else if Qltb (1 # 2) r then (f + 1)%Z
  else if Z.even f then f else (f + 1)%Z.

Definition py_round (x : Q) (ndigits : Z) : Q :=
  let scale :=
    if (0 <=? ndigits)%Z then inject_Z (10 ^ ndigits)
    else / inject_Z (10 ^ (- ndigits)) in
  inject_Z (round_half_even (x * scale)) / scale.

(** ** Slices and numpy helpers *)

(** [l[-n:]]: the last [n] elements; the whole list when [n] is zero (the
    slice is then [l[0:]]) or exceeds the length. *)
Definition py_tail {A} (n : nat) (l : list A) : list A :=
  match n with
  | O => l
  | _ => drop (length l - n) l
  end.

(** [np.diff]. *)
Fixpoint np_diff (l : list Q) : list Q :=
  match l with
  | x :: (y :: _) as t => (y - x) :: np_diff t
  | _ => []
  end.

(** [np.mean]. *)
Definition np_mean (l : list Q) : Q :=
  Qsum l / inject_Z (Z.of_nat (length l)).

(** [np.where(deltas > 0, deltas, 0)] and [np.where(deltas < 0, -deltas, 0)]. *)
Definition np_gains (deltas : list Q) : list Q :=
  map (fun d => if Qgtb d 0 then d else 0) deltas.
Definition np_losses (deltas : list Q) : list Q :=
  map (fun d => if Qltb d 0 then - d else 0) deltas.

(** [max(l)] and [min(l)] of a list: the first extremal element. *)
Definition list_max (l : list Q) : Q :=
  match l with
  | [] => 0
  | x :: t => fold_left py_max t x
  end.
Definition list_min (l : list Q) : Q :=
  match l with
  | [] => 0
  | x :: t => fold_left py_min t x
  end.

(** [np.arange(n)] as floats. *)
Definition np_arange (n : nat) : list Q :=
  map (fun i => inject_Z (Z.of_nat i)) (seq 0 n).

(** The slope returned by [np.polyfit(x, y, 1)]: the least-squares line. *)
Definition polyfit_slope (xs ys : list Q) : Q :=
  let n := inject_Z (Z.of_nat (length xs)) in
  let sx := Qsum xs in
  let sy := Qsum ys in
  let sxy := Qsum (zip_with Qmult xs ys) in
  let sxx := Qsum (zip_with Qmult xs xs) in
  (n * sxy - sx * sy) / (n * sxx - sx * sx).

(** [Series.ewm(span=span).mean()] of pandas (adjust=True): the weights of
    the past samples decay by [1 - alpha], [alpha = 2 / (span + 1)]. *)
Fixpoint ewm_from (decay num den : Q) (l : list Q) : list Q :=
  match l with
  | [] => []
  | x :: t =>
      let num' := x + decay * num in
      let den' := 1 + decay * den in
      (num' / den') :: ewm_from decay num' den' t
  end.

Definition ewm_mean (span : nat) (l : list Q) : list Q :=
  let alpha := 2 / (inject_Z (Z.of_nat span) + 1) in
  ewm_from (1 - alpha) 0 0 l.

(** [series.iloc[-1]] and [l[-1]]. *)
Definition iloc_last (l : list Q) : Q := List.last l 0.

(** [Series.rolling(window=period).mean().iloc[-1]]. *)
Definition rolling_mean_last (period : nat) (l : list Q) : Q :=
  np_mean (py_tail period l).

Definition sq_dev (m : Q) (l : list Q) : list Q :=
  map (fun x => (x - m) * (x - m)) l.

(** ** The data model *)

Definition uuid := nat.
Definition datetime := Z.
Bind Scope nat_scope with uuid.
Bind Scope Z_scope with datetime.

(** [d.date()]: the day of a time in seconds. *)
Definition date (t : datetime) : Z := (t / 86400)%Z.

Module CryptoPair.
Record t := mk {
  id : uuid;
  symbol : string;
  base_asset : string;
  quote_asset : string;
  display_name : string;
  is_active : bool;
  min_order_size : Q;
  price_precision : Z;
  volume_precision : Z
}.
End CryptoPair.

Module MarketData.
Record t := mk {
  id : uuid;
  pair_id : uuid;
  timestamp : datetime;
  open_price : Q;
  high_price : Q;
  low_price : Q;
  close_price : Q;
  volume : Q;
  rsi_14 : option Q;
  macd : option Q;
  macd_signal : option Q;
  macd_histogram : option Q;
  sma_20 : option Q;
  sma_50 : option Q;
  ema_12 : option Q;
  ema_26 : option Q;
  bollinger_upper : option Q;
  bollinger_lower : option Q;
  bollinger_middle : option Q
}.
End MarketData.

Module TradingSignal.
Record t := mk {
  id : uuid;
  pair_id : uuid;
  signal_type : string;
  confidence : Q;
  entry_price : Q;
  target_price : Q;
  stop_loss_price : Q;
  trend_strength : Q;
  volatility : Q;
  volume_profile : string;
  support_level : option Q;
  resistance_level : option Q;
  strategy_type : string;
  position_size_recommendation : Q;
  time_horizon_minutes : Z;
  is_active : bool;
  created_at : datetime;
  expires_at : option datetime
}.
End TradingSignal.

Module Order.
Record t := mk {
  id : uuid;
  kraken_order_id : option string;
  pair_id : uuid;
  signal_id : option uuid;
  order_type : string;
  side : string;
  amount : Q;
  price : option Q;
  status : string;
  filled_amount : Q;
  average_price : option Q;
  is_bracket_order : bool;
  parent_order_id : option uuid;
  stop_loss_order_id : option uuid;
  take_profit_order_id : option uuid;
  fee : option Q;
  total_cost : option Q;
  created_at : datetime;
  updated_at : datetime;
  filled_at : option datetime
}.
End Order.

Module Position.
Record t := mk {
  id : uuid;
  pair_id : uuid;
  entry_order_id : uuid;
  signal_id : option uuid;
  side : string;
  amount : Q;
  entry_price : Q;
  current_price : option Q;
  unrealized_pnl : Q;
  realized_pnl : Q;
  total_fees : Q;
  stop_loss_price : option Q;
  take_profit_price : option Q;
  trailing_stop_distance : option Q;
  is_open : bool;
  partial_fills : Z;
  remaining_amount : Q;
  strategy_type : string;
  max_unrealized_pnl : Q;
  max_unrealized_loss : Q;
  opened_at : datetime;
  updated_at : datetime;
  closed_at : option datetime
}.
End Position.

Module Portfolio.
Record t := mk {
  id : uuid;
  total_balance_usd : Q;
  available_balance_usd : Q;
  locked_balance_usd : Q;
  total_pnl : Q;
  daily_pnl : Q;
  weekly_pnl : Q;
  monthly_pnl : Q;
  total_trades : nat;
  winning_trades : nat;
  losing_trades : nat;
  win_rate : Q;
  average_win : Q;
  average_loss : Q;
  profit_factor : Q;
  max_drawdown : Q;
  current_drawdown : Q;
  sharpe_ratio : option Q;
  open_positions_count : nat;
  total_exposure_usd : Q;
  max_position_size_pct : Q;
  max_daily_loss_pct : Q;
  is_trading_enabled : bool;
  last_updated : datetime;
  created_at : datetime
}.
End Portfolio.

(** ** market_analysis_service.py *)

Module MarketAnalysis.

Section Indicators.

(** [np.sqrt] and [np.log]: the two functions of numpy that leave the
    rationals. *)
Variables np_sqrt np_log : Q -> Q.

(** [self.min_data_points]. *)
Definition min_data_points : nat := 50.

Definition rsi_avg_gain (prices : list Q) (period : nat) : Q :=
  np_mean (py_tail period (np_gains (np_diff prices))).

Definition rsi_avg_loss (prices : list Q) (period : nat) : Q :=
  np_mean (py_tail period (np_losses (np_diff prices))).

(** [calculate_rsi(prices, period=14)]. *)
Definition calculate_rsi (prices : list Q) (period : nat) : option Q :=
  if (length prices <? period + 1)%nat then None
  else
    let avg_gain := rsi_avg_gain prices period in
    let avg_loss := rsi_avg_loss prices period in
    if Qeq_bool avg_loss 0 then Some 100
    else
      let rs := avg_gain / avg_loss in
      Some (100 - 100 / (1 + rs)).

(** [calculate_macd(prices, fast=12, slow=26, signal=9)]. *)
Definition calculate_macd (prices : list Q) (fast slow signal : nat)
  : option Q * option Q * option Q :=
  if (length prices <? slow + signal)%nat then (None, None, None)
  else
    let ema_fast := ewm_mean fast prices in
    let ema_slow := ewm_mean slow prices in
    let macd_line := zip_with Qminus ema_fast ema_slow in
    let signal_line := ewm_mean signal macd_line in
    let histogram := zip_with Qminus macd_line signal_line in
    (Some (iloc_last macd_line), Some (iloc_last signal_line),
     Some (iloc_last histogram)).

(** [Series.rolling(window=period).std().iloc[-1]]: the sample standard
    deviation (ddof=1) of the trailing window. *)
Definition rolling_std_last (period : nat) (l : list Q) : Q :=
  let w := py_tail period l in
  np_sqrt (Qsum (sq_dev (np_mean w) w) / (inject_Z (Z.of_nat (length w)) - 1)).

(** [calculate_bollinger_bands(prices, period=20, std_dev=2)]. *)
Definition calculate_bollinger_bands (prices : list Q) (period : nat) (std_dev : Q)
  : option Q * option Q * option Q :=
  if (length prices <? period)%nat then (None, None, None)
  else
    let middle := rolling_mean_last period prices in
    let std := rolling_std_last period prices in
    let upper := middle + std * std_dev in
    let lower := middle - std * std_dev in
    (Some upper, Some middle, Some lower).

(** [calculate_moving_averages(prices, periods)]: a dict keyed by
    [f'sma_{period}'] and [f'ema_{period}'].  The method has no [try]: a
    period of zero passes the test [len(prices) >= period] and the call
    raises ([ewm] refuses a span below one, and [iloc[-1]] an empty series),
    which is [None] here. *)
Fixpoint calculate_moving_averages_loop (prices : list Q) (periods : list nat)
    (results : gmap string Q) : option (gmap string Q) :=
  match periods with
  | [] => Some results
  | period :: rest =>
      if (period <=? length prices)%nat then
        if (period =? 0)%nat then None
        else
          calculate_moving_averages_loop prices rest
            (<[ "ema_" +:+ pretty period := iloc_last (ewm_mean period prices) ]>
               (<[ "sma_" +:+ pretty period := rolling_mean_last period prices ]>
                  results))
      else calculate_moving_averages_loop prices rest results
  end.

Definition calculate_moving_averages (prices : list Q) (periods : list nat)
  : option (gmap string Q) :=
  calculate_moving_averages_loop prices periods ∅.

(** [np.std]: the population standard deviation. *)
Definition np_std (l : list Q) : Q :=
  np_sqrt (np_mean (sq_dev (np_mean l) l)).

(** [calculate_volatility(prices, period=20)]. *)
Definition calculate_volatility (prices : list Q) (period : nat) : option Q :=
  if (length prices <? period + 1)%nat then None
  else
    let returns := np_diff (map np_log (py_tail (period + 1) prices)) in
    Some (np_std returns * np_sqrt (365 * 24)).

(** [identify_support_resistance(highs, lows, lookback=20)]: the pair
    [(support, resistance)]. *)
Definition identify_support_resistance (highs lows : list Q) (lookback : nat)
  : option Q * option Q :=
  if (length highs <? lookback)%nat || (length lows <? lookback)%nat
  then (None, None)
  else
    let recent_highs := py_tail lookback highs in
    let recent_lows := py_tail lookback lows in
    let resistance := list_max recent_highs in
    let support := list_min recent_lows in
    (Some support, Some resistance).

(** [calculate_trend_strength(prices, period=20)]. *)
Definition calculate_trend_strength (prices : list Q) (period : nat) : Q :=
  if (length prices <? period)%nat then 0
  else
    let recent_prices := py_tail period prices in
    let x := np_arange (length recent_prices) in
    let slope := polyfit_slope x recent_prices in
    let avg_price := np_mean recent_prices in
    let normalized_slope := slope / avg_price in
    py_min (Qabs normalized_slope * 1000) 1.

(** [analyze_volume_profile(volumes, period=20)]. *)
Definition analyze_volume_profile (volumes : list Q) (period : nat) : string :=
  if (length volumes <? period)%nat then "UNKNOWN"
  else
    let recent_volume := py_tail period volumes in
    let avg_volume := np_mean recent_volume in
    let current_volume := iloc_last volumes in
    let volume_ratio := current_volume / avg_volume in
    if Qgtb volume_ratio 1.5 then "HIGH"
    else if Qgtb volume_ratio 0.8 then "MEDIUM"
    else "LOW".

(** *** The signal generator *)

(** The two parallel lists [signals] and [weights] of [_analyze_signals]. *)
Definition votes : Type := list Z * list Q.

Definition cast (s : Z) (w : Q) (v : votes) : votes :=
  (v.1 ++ [s], v.2 ++ [w]).

Definition Zsum (l : list Z) : Z := fold_right Z.add 0%Z l.

(** [1 if sum(signals) > 0 else -1]. *)
Definition net_direction (v : votes) : Z :=
  if (0 <? Zsum v.1)%Z then 1%Z else (-1)%Z.

Definition rsi_vote (latest_data : MarketData.t) (v : votes) : votes :=
  match MarketData.rsi_14 latest_data with
  | Some rsi =>
      if truthy (Some rsi) then
        if Qltb rsi 30 then cast 1 0.3 v
        else if Qgtb rsi 70 then cast (-1) 0.3 v
        else cast 0 0.1 v
      else v
  | None => v
  end.

Definition macd_vote (latest_data : MarketData.t) (v : votes) : votes :=
  match MarketData.macd latest_data, MarketData.macd_signal latest_data with
  | Some macd, Some macd_signal =>
      if truthy (Some macd) && truthy (Some macd_signal) then
        if Qgtb macd macd_signal then cast 1 0.25 v
        else cast (-1) 0.25 v
      else v
  | _, _ => v
  end.

Definition sma_vote (latest_data : MarketData.t) (v : votes) : votes :=
  let current_price := MarketData.close_price latest_data in
  match MarketData.sma_20 latest_data, MarketData.sma_50 latest_data with
  | Some sma_20, Some sma_50 =>
      if truthy (Some sma_20) && truthy (Some sma_50) then
        if Qgtb sma_20 sma_50 && Qgtb current_price sma_20 then cast 1 0.2 v
        else if Qltb sma_20 sma_50 && Qltb current_price sma_20 then cast (-1) 0.2 v
        else cast 0 0.1 v
      else v
  | _, _ => v
  end.

Definition trend_vote (trend_strength : Q) (v : votes) : votes :=
  if Qgtb trend_strength 0.7 then cast (net_direction v) 0.15 v else v.

Definition volume_vote (volume_profile : string) (v : votes) : votes :=
  if String.eqb volume_profile "HIGH" then cast (net_direction v) 0.1 v else v.

(** The votes gathered by [_analyze_signals], in the order of the source. *)
Definition gather_votes (latest_data : MarketData.t) (trend_strength : Q)
    (volume_profile : string) : votes :=
  volume_vote volume_profile
    (trend_vote trend_strength
       (sma_vote latest_data (macd_vote latest_data (rsi_vote latest_data ([], []))))).

(** [sum(s * w for s, w in zip(signals, weights)) / sum(weights)]. *)
Definition weighted_signal_of (v : votes) : option Q :=
  py_div (py_sum (zip_with (fun s w => inject_Z s * w) v.1 v.2)) (py_sum v.2).

Definition classify (weighted_signal : Q) : string :=
  if Qgtb weighted_signal 0.3 then
    if Qgtb weighted_signal 0.6 then "STRONG_BUY" else "BUY"
  else if Qltb weighted_signal (-0.3) then
    if Qltb weighted_signal (-0.6) then "STRONG_SELL" else "SELL"
  else "HOLD".

(** [_analyze_signals(latest_data, trend_strength, volatility,
    volume_profile)]; [None] is a raised exception. *)
Definition _analyze_signals (latest_data : MarketData.t) (trend_strength : Q)
    (volatility : option Q) (volume_profile : string) : option (string * Q) :=
  let v := gather_votes latest_data trend_strength volume_profile in
  match v.1 with
  | [] => Some ("HOLD", 0)
  | _ =>
      weighted_signal ← weighted_signal_of v;
      let signal_type := classify weighted_signal in
      let confidence := py_min (Qabs weighted_signal) 1 in
      Some (signal_type, confidence)
  end.

Definition is_buy (signal_type : string) : bool :=
  String.eqb signal_type "BUY" || String.eqb signal_type "STRONG_BUY".

(** [_calculate_trade_levels]: [volatility / 100] raises on [None]. *)
Definition _calculate_trade_levels (current_price : Q) (signal_type : string)
    (volatility support resistance : option Q) : option (Q * Q * Q) :=
  let entry_price := current_price in
  volatility ← volatility;
  let vol_factor := py_max 0.005 (py_min (volatility / 100) 0.05) in
  if is_buy signal_type then
    let target_price := entry_price * (1 + vol_factor * 2) in
    let stop_loss_price := entry_price * (1 - vol_factor) in
    let target_price :=
      match resistance with
      | Some r =>
          if truthy resistance && Qgtb r entry_price
          then py_min target_price (r * 0.99) else target_price
      | None => target_price
      end in
    Some (entry_price, target_price, stop_loss_price)
  else
    let target_price := entry_price * (1 - vol_factor * 2) in
    let stop_loss_price := entry_price * (1 + vol_factor) in
    let target_price :=
      match support with
      | Some s =>
          if truthy support && Qltb s entry_price
          then py_max target_price (s * 1.01) else target_price
      | None => target_price
      end in
    Some (entry_price, target_price, stop_loss_price).

(** [_calculate_position_size(confidence, volatility)]. *)
Definition _calculate_position_size (confidence : Q) (volatility : option Q)
  : option Q :=
  let base_size := 2 in
  let confidence_factor := confidence in
  volatility ← volatility;
  let volatility_factor := py_max 0.5 (1 - volatility / 10) in
  let position_size := base_size * confidence_factor * volatility_factor in
  Some (py_min position_size 5).

(** [generate_trading_signal(pair_id)].  [market_data] is the result of the
    query (the rows of the pair with an RSI, newest first, at most 50),
    [new_id] the identifier given to the signal and [now] the time of the
    call.  [None] is returned when the method returns [None], whether by a
    [return] or by the handler of its [try]. *)
Definition generate_trading_signal (new_id pair_id : uuid) (now : datetime)
    (market_data : list MarketData.t) : option TradingSignal.t :=
  if (length market_data <? 20)%nat then None
  else
    latest ← head market_data;
    let prices := map MarketData.close_price (reverse market_data) in
    let highs := map MarketData.high_price (reverse market_data) in
    let lows := map MarketData.low_price (reverse market_data) in
    let volumes := map MarketData.volume (reverse market_data) in
    let trend_strength := calculate_trend_strength prices 20 in
    let volatility := calculate_volatility prices 20 in
    let volume_profile := analyze_volume_profile volumes 20 in
    let '(support, resistance) := identify_support_resistance highs lows 20 in
    '(signal_type, confidence) ←
      _analyze_signals latest trend_strength volatility volume_profile;
    if String.eqb signal_type "HOLD" || Qltb confidence 0.6 then None
    else
      let current_price := MarketData.close_price latest in
      '(entry_price, target_price, stop_loss_price) ←
        _calculate_trade_levels current_price signal_type volatility
          support resistance;
      size ← _calculate_position_size confidence volatility;
      vol ← volatility;
      Some {|
        TradingSignal.id := new_id;
        TradingSignal.pair_id := pair_id;
        TradingSignal.signal_type := signal_type;
        TradingSignal.confidence := confidence;
        TradingSignal.entry_price := entry_price;
        TradingSignal.target_price := target_price;
        TradingSignal.stop_loss_price := stop_loss_price;
        TradingSignal.trend_strength := trend_strength;
        TradingSignal.volatility := vol;
        TradingSignal.volume_profile := volume_profile;
        TradingSignal.support_level := support;
        TradingSignal.resistance_level := resistance;
        TradingSignal.strategy_type := "SCALP";
        TradingSignal.position_size_recommendation := size;
        TradingSignal.time_horizon_minutes := 60;
        TradingSignal.is_active := true;
        TradingSignal.created_at := now;
        TradingSignal.expires_at := Some (now + 2 * 3600)%Z
      |}.

End Indicators.

End MarketAnalysis.

(** ** The exchange capability (kraken_service.py) *)

Module Kraken.

(** One entry of the reply to [QueryOrders]. *)
Record OrderInfo := mkInfo {
  status : option string;
  vol_exec : option Q;
  price : option Q;
  fee : option Q
}.

Inductive Request :=
| AddOrder (pair type_ ordertype : string) (volume : Q) (price : option Q)
| CancelOrder (txid : string)
| QueryOrders (txids : list string)
| Ticker (pairs : list string).

Inductive Reply :=
| AddOrderResult (txid : list string)
| CancelResult
| QueryResult (infos : gmap string OrderInfo)
| TickerResult (last_trade : gmap string Q).

(** The exchange answers a request knowing the requests made so far; [None]
    is any exception of the client (transport error, rejection, missing
    credentials). *)
Definition Exchange : Type := list Request -> Request -> option Reply.

End Kraken.

(** ** The world: database tables, service attributes, exchange history *)

(** A value of [active_bracket_orders]. *)
Record BracketInfo := mkBracket {
  b_position_id : uuid;
  b_entry_order_id : uuid;
  b_signal_id : uuid;
  b_stop_loss_price : Q;
  b_take_profit_price : Q;
  b_side : string;
  b_amount : Q
}.

Record World := mkWorld {
  crypto_pairs : list CryptoPair.t;
  orders : list Order.t;
  positions : list Position.t;
  portfolio : list Portfolio.t;
  active_bracket_orders : gmap uuid BracketInfo;
  portfolio_id : option uuid;
  next_uuid : uuid;
  clock : datetime;
  kraken_calls : list Kraken.Request
}.

Definition set_orders (f : list Order.t -> list Order.t) (w : World) : World :=
  mkWorld (crypto_pairs w) (f (orders w)) (positions w) (portfolio w)
    (active_bracket_orders w) (portfolio_id w) (next_uuid w) (clock w)
    (kraken_calls w).

Definition set_positions (f : list Position.t -> list Position.t) (w : World)
  : World :=
  mkWorld (crypto_pairs w) (orders w) (f (positions w)) (portfolio w)
    (active_bracket_orders w) (portfolio_id w) (next_uuid w) (clock w)
    (kraken_calls w).

Definition set_portfolio (f : list Portfolio.t -> list Portfolio.t) (w : World)
  : World :=
  mkWorld (crypto_pairs w) (orders w) (positions w) (f (portfolio w))
    (active_bracket_orders w) (portfolio_id w) (next_uuid w) (clock w)
    (kraken_calls w).

Definition set_active_bracket_orders
    (f : gmap uuid BracketInfo -> gmap uuid BracketInfo) (w : World) : World :=
  mkWorld (crypto_pairs w) (orders w) (positions w) (portfolio w)
    (f (active_bracket_orders w)) (portfolio_id w) (next_uuid w) (clock w)
    (kraken_calls w).

Definition set_next_uuid (n : uuid) (w : World) : World :=
  mkWorld (crypto_pairs w) (orders w) (positions w) (portfolio w)
    (active_bracket_orders w) (portfolio_id w) n (clock w) (kraken_calls w).

Definition set_clock (t : datetime) (w : World) : World :=
  mkWorld (crypto_pairs w) (orders w) (positions w) (portfolio w)
    (active_bracket_orders w) (portfolio_id w) (next_uuid w) t (kraken_calls w).

Definition log_call (r : Kraken.Request) (w : World) : World :=
  mkWorld (crypto_pairs w) (orders w) (positions w) (portfolio w)
    (active_bracket_orders w) (portfolio_id w) (next_uuid w) (clock w)
    (kraken_calls w ++ [r]).

(** ** Computations that may raise *)

(** The result is [None] when an exception propagates; the world is the one
    reached when it was raised. *)
Definition M (A : Type) : Type := World -> option A * World.

Definition ret {A} (a : A) : M A := fun w => (Some a, w).

Definition raise {A} : M A := fun w => (None, w).

Definition bind {A B} (m : M A) (k : A -> M B) : M B :=
  fun w =>
    match m w with
    | (Some a, w') => k a w'
    | (None, w') => (None, w')
    end.

(** [try: body except Exception: handler]. *)
Definition try_except {A} (body handler : M A) : M A :=
  fun w =>
    match body w with
    | (Some a, w') => (Some a, w')
    | (None, w') => handler w'
    end.

Definition get : M World := fun w => (Some w, w).

Definition modify (f : World -> World) : M unit := fun w => (Some tt, f w).

(** A partial operation of Python ([l[0]], [d[k]], [a / b]) inside [M]. *)
Definition partial {A} (o : option A) : M A :=
  match o with
  | Some a => ret a
  | None => raise
  end.

Declare Scope M_scope.
Delimit Scope M_scope with M.
Notation "'let*' x ':=' m 'in' k" := (bind m (fun x => k))
  (at level 10, x pattern, m at level 100, k at level 200) : M_scope.
Notation "m ';;' k" := (bind m (fun _ => k))
  (at level 100, k at level 200, right associativity) : M_scope.

(** [uuid.uuid4()]. *)
Definition fresh_uuid : M uuid :=
  fun w => (Some (next_uuid w), set_next_uuid (S (next_uuid w)) w).

(** [datetime.now()]. *)
Definition now : M datetime := fun w => (Some (clock w), w).

(** [UPDATE table SET ... WHERE pred]. *)
Definition update_where {A} (pred : A -> bool) (f : A -> A) (rows : list A)
  : list A :=
  map (fun r => if pred r then f r else r) rows.

(** ** Row updates of the SQL statements *)

Module OrderRow.
Import Order.

(** The [SET] clause of [_update_order_status]. *)
Definition set_status (status' : string) (filled : Q) (avg : option Q)
    (fee' : Q) (updated : datetime) (filled_at' : option datetime) (o : t) : t :=
  mk (id o) (kraken_order_id o) (pair_id o) (signal_id o) (order_type o)
    (side o) (amount o) (price o) status' filled avg (is_bracket_order o)
    (parent_order_id o) (stop_loss_order_id o) (take_profit_order_id o)
    (Some fee') (total_cost o) (created_at o) updated filled_at'.

(** [SET stop_loss_order_id = ..., take_profit_order_id = ...]. *)
Definition set_children (sl tp : uuid) (o : t) : t :=
  mk (id o) (kraken_order_id o) (pair_id o) (signal_id o) (order_type o)
    (side o) (amount o) (price o) (status o) (filled_amount o)
    (average_price o) (is_bracket_order o) (parent_order_id o) (Some sl)
    (Some tp) (fee o) (total_cost o) (created_at o) (updated_at o)
    (filled_at o).

(** [SET stop_loss_order_id = ...]. *)
Definition set_stop_loss_order (sl : uuid) (o : t) : t :=
  mk (id o) (kraken_order_id o) (pair_id o) (signal_id o) (order_type o)
    (side o) (amount o) (price o) (status o) (filled_amount o)
    (average_price o) (is_bracket_order o) (parent_order_id o) (Some sl)
    (take_profit_order_id o) (fee o) (total_cost o) (created_at o)
    (updated_at o) (filled_at o).

End OrderRow.

Module PositionRow.
Import Position.

(** The [SET] clause of [_handle_entry_fill]. *)
Definition set_fill (avg filled : Q) (updated : datetime) (p : t) : t :=
  mk (id p) (pair_id p) (entry_order_id p) (signal_id p) (side p) (amount p)
    avg (Some avg) (unrealized_pnl p) (realized_pnl p) (total_fees p)
    (stop_loss_price p) (take_profit_price p) (trailing_stop_distance p)
    (is_open p) (partial_fills p) filled (strategy_type p)
    (max_unrealized_pnl p) (max_unrealized_loss p) (opened_at p) updated
    (closed_at p).

(** [SET stop_loss_price = ...]. *)
Definition set_stop_loss_price (stop : Q) (p : t) : t :=
  mk (id p) (pair_id p) (entry_order_id p) (signal_id p) (side p) (amount p)
    (entry_price p) (current_price p) (unrealized_pnl p) (realized_pnl p)
    (total_fees p) (Some stop) (take_profit_price p)
    (trailing_stop_distance p) (is_open p) (partial_fills p)
    (remaining_amount p) (strategy_type p) (max_unrealized_pnl p)
    (max_unrealized_loss p) (opened_at p) (updated_at p) (closed_at p).

(** The [SET] clause of [close_position]. *)
Definition set_closed (t0 : datetime) (p : t) : t :=
  mk (id p) (pair_id p) (entry_order_id p) (signal_id p) (side p) (amount p)
    (entry_price p) (current_price p) (unrealized_pnl p) (realized_pnl p)
    (total_fees p) (stop_loss_price p) (take_profit_price p)
    (trailing_stop_distance p) false (partial_fills p) (remaining_amount p)
    (strategy_type p) (max_unrealized_pnl p) (max_unrealized_loss p)
    (opened_at p) t0 (Some t0).

(** The [SET] clause of [update_position_pnl]. *)
Definition set_pnl (current unrealized max_pnl max_loss : Q)
    (updated : datetime) (p : t) : t :=
  mk (id p) (pair_id p) (entry_order_id p) (signal_id p) (side p) (amount p)
    (entry_price p) (Some current) unrealized (realized_pnl p) (total_fees p)
    (stop_loss_price p) (take_profit_price p) (trailing_stop_distance p)
    (is_open p) (partial_fills p) (remaining_amount p) (strategy_type p)
    max_pnl max_loss (opened_at p) updated (closed_at p).

End PositionRow.

(** ** Queries *)

(** [SELECT ... FROM crypto_pairs WHERE id = pair_id]. *)
Definition pairs_by_id (pair_id : uuid) (w : World) : list CryptoPair.t :=
  filter (fun c => CryptoPair.id c = pair_id) (crypto_pairs w).

(** [SELECT ... FROM orders WHERE id = order_id]. *)
Definition orders_by_id (order_id : uuid) (w : World) : list Order.t :=
  filter (fun o => Order.id o = order_id) (orders w).

(** [SELECT ... FROM positions WHERE id = position_id]. *)
Definition positions_by_id (position_id : uuid) (w : World)
  : list Position.t :=
  filter (fun p => Position.id p = position_id) (positions w).

(** [SELECT * FROM positions WHERE id = position_id AND is_open = true]. *)
Definition open_positions_by_id (position_id : uuid) (w : World)
  : list Position.t :=
  filter (fun p => Position.is_open p) (positions_by_id position_id w).

(** [SELECT * FROM positions WHERE is_open = true]. *)
Definition all_open_positions (w : World) : list Position.t :=
  filter (fun p => Position.is_open p) (positions w).

(** [SELECT * FROM orders WHERE status = 'open' AND kraken_order_id IS NOT
    NULL]. *)
Definition open_exchange_orders (w : World) : list Order.t :=
  filter (fun o => Order.status o = "open" ∧ is_Some (Order.kraken_order_id o))
    (orders w).

(** [SELECT * FROM portfolio WHERE id = self.portfolio_id]. *)
Definition portfolio_by_id (w : World) : list Portfolio.t :=
  filter (fun p => Some (Portfolio.id p) = portfolio_id w) (portfolio w).

(** A non-empty string, as tested by [if order['kraken_order_id']:]. *)
Definition nonempty_id (s : option string) : option string :=
  match s with
  | Some "" => None
  | other => other
  end.

(** ** order_management_service.py *)

(** The dict returned by [_update_order_status]. *)
Record OrderUpdate := mkUpdate {
  u_order_id : uuid;
  u_old_status : string;
  u_new_status : string;
  u_filled_amount : Q;
  u_average_price : option Q
}.

Section Services.

Variable exchange : Kraken.Exchange.

Open Scope M_scope.

(** A call of the client: the request joins the history whether the exchange
    answers or raises. *)
Definition kraken_call (r : Kraken.Request) : M Kraken.Reply :=
  fun w =>
    (exchange (kraken_calls w) r, log_call r w).

(** [kraken_service.add_order]: a false [price] ([None] or zero) is left out
    of the request. *)
Definition add_order (pair type_ ordertype : string) (volume : Q)
    (price : option Q) : M (list string) :=
  let* reply :=
    kraken_call
      (Kraken.AddOrder pair type_ ordertype volume
         (if truthy price then price else None)) in
  match reply with
  | Kraken.AddOrderResult txid => ret txid
  | _ => raise
  end.

(** [kraken_service.cancel_order]. *)
Definition cancel_order (order_id : string) : M unit :=
  let* reply := kraken_call (Kraken.CancelOrder order_id) in
  match reply with
  | Kraken.CancelResult => ret tt
  | _ => raise
  end.

(** [kraken_service.query_orders]. *)
Definition query_orders (order_ids : list string)
  : M (gmap string Kraken.OrderInfo) :=
  let* reply := kraken_call (Kraken.QueryOrders order_ids) in
  match reply with
  | Kraken.QueryResult infos => ret infos
  | _ => raise
  end.

(** [kraken_service.get_ticker]: the last trade price [['c'][0]] of each
    pair of the reply. *)
Definition get_ticker (pairs : list string) : M (gmap string Q) :=
  let* reply := kraken_call (Kraken.Ticker pairs) in
  match reply with
  | Kraken.TickerResult last_trade => ret last_trade
  | _ => raise
  end.

(** [_place_order(pair_id, signal_id, order_type, side, amount, price)].
    Every order type but ["market"] reaches the exchange as a ["limit"]
    order. *)
Definition _place_order (pair_id : uuid) (signal_id : option uuid)
    (order_type side : string) (amount : Q) (price : option Q)
  : M (option Order.t) :=
  try_except
    (let* w := get in
     let* pair_data := partial (head (pairs_by_id pair_id w)) in
     let kraken_pair := CryptoPair.symbol pair_data in
     let* result :=
       if String.eqb order_type "market"
       then add_order kraken_pair side "market" amount None
       else add_order kraken_pair side "limit" amount price in
     let* new_id := fresh_uuid in
     let* t := now in
     let order :=
       Order.mk new_id (head result) pair_id signal_id order_type side amount
         price "open" 0 None false None None None None None t t None in
     modify (set_orders (fun l => l ++ [order])) ;;
     ret (Some order))
    (ret None).

(** [create_bracket_order(signal, position_size_usd)]. *)
Definition create_bracket_order (signal : TradingSignal.t)
    (position_size_usd : Q) : M (option Position.t) :=
  try_except
    (let* w := get in
     let* pair_ := partial (head (pairs_by_id (TradingSignal.pair_id signal) w)) in
     let* amount :=
       partial (py_div position_size_usd (TradingSignal.entry_price signal)) in
     let amount := py_round amount (CryptoPair.volume_precision pair_) in
     if Qltb amount (CryptoPair.min_order_size pair_) then raise
     else
       let side :=
         if MarketAnalysis.is_buy (TradingSignal.signal_type signal)
         then "buy" else "sell" in
       let* entry_order :=
         _place_order (TradingSignal.pair_id signal)
           (Some (TradingSignal.id signal)) "limit" side amount
           (Some (TradingSignal.entry_price signal)) in
       match entry_order with
       | None => ret None
       | Some entry_order =>
           let* new_id := fresh_uuid in
           let* t := now in
           let position :=
             Position.mk new_id (TradingSignal.pair_id signal)
               (Order.id entry_order) (Some (TradingSignal.id signal))
               (if String.eqb side "buy" then "long" else "short")
               amount (TradingSignal.entry_price signal) None 0 0 0
               (Some (TradingSignal.stop_loss_price signal))
               (Some (TradingSignal.target_price signal)) None true 0 amount
               (TradingSignal.strategy_type signal) 0 0 t t None in
           modify (set_positions (fun l => l ++ [position])) ;;
           modify (set_active_bracket_orders
                     (insert (Order.id entry_order)
                        (mkBracket new_id (Order.id entry_order)
                           (TradingSignal.id signal)
                           (TradingSignal.stop_loss_price signal)
                           (TradingSignal.target_price signal) side amount))) ;;
           ret (Some position)
       end)
    (ret None).

Definition opposite_of_entry (side : string) : string :=
  if String.eqb side "buy" then "sell" else "buy".

Definition closing_side (position_side : string) : string :=
  if String.eqb position_side "long" then "sell" else "buy".

(** [_handle_entry_fill(entry_order, filled_amount, average_price)].  The
    column [entry_price] is declared [float]: an [average_price] of [None]
    is rejected by the [UPDATE], which raises. *)
Definition _handle_entry_fill (entry_order : Order.t) (filled_amount : Q)
    (average_price : option Q) : M unit :=
  try_except
    (let* w := get in
     let* bracket_info :=
       partial (active_bracket_orders w !! Order.id entry_order) in
     let* avg := partial average_price in
     let* t := now in
     modify (set_positions
               (update_where
                  (fun p => Nat.eqb (Position.id p) (b_position_id bracket_info))
                  (PositionRow.set_fill avg filled_amount t))) ;;
     let* stop_loss_order :=
       _place_order (Order.pair_id entry_order)
         (Some (b_signal_id bracket_info)) "stop-loss"
         (opposite_of_entry (b_side bracket_info)) filled_amount
         (Some (b_stop_loss_price bracket_info)) in
     let* take_profit_order :=
       _place_order (Order.pair_id entry_order)
         (Some (b_signal_id bracket_info)) "limit"
         (opposite_of_entry (b_side bracket_info)) filled_amount
         (Some (b_take_profit_price bracket_info)) in
     match stop_loss_order, take_profit_order with
     | Some sl, Some tp =>
         modify (set_orders
                   (update_where
                      (fun o => Nat.eqb (Order.id o) (Order.id entry_order))
                      (OrderRow.set_children (Order.id sl) (Order.id tp))))
     | _, _ => ret tt
     end ;;
     modify (set_active_bracket_orders (delete (Order.id entry_order))))
    (ret tt).

(** [_update_order_status(order, kraken_order)]. *)
Definition _update_order_status (order : Order.t)
    (kraken_order : Kraken.OrderInfo) : M (option OrderUpdate) :=
  try_except
    (let status := default "open" (Kraken.status kraken_order) in
     let filled_amount := default 0 (Kraken.vol_exec kraken_order) in
     let average_price := Kraken.price kraken_order in
     let fee := default 0 (Kraken.fee kraken_order) in
     let closed := String.eqb status "closed" in
     let new_status := if closed then "closed" else "open" in
     let* t := now in
     modify (set_orders
               (update_where
                  (fun o => Nat.eqb (Order.id o) (Order.id order))
                  (OrderRow.set_status new_status filled_amount average_price
                     fee t (if closed then Some t else None)))) ;;
     let update :=
       mkUpdate (Order.id order) (Order.status order) new_status
         filled_amount average_price in
     let* w := get in
     (if closed && bool_decide (is_Some (active_bracket_orders w !! Order.id order))
      then _handle_entry_fill order filled_amount average_price
      else ret tt) ;;
     ret (Some update))
    (ret None).

(** The [for order in open_orders] loop of [monitor_orders]. *)
Fixpoint monitor_orders_loop (kraken_orders : gmap string Kraken.OrderInfo)
    (open_orders : list Order.t) (updates : list OrderUpdate)
  : M (list OrderUpdate) :=
  match open_orders with
  | [] => ret updates
  | order :: rest =>
      let* updates :=
        match Order.kraken_order_id order with
        | Some kraken_id =>
            match kraken_orders !! kraken_id with
            | Some kraken_order =>
                let* update := _update_order_status order kraken_order in
                match update with
                | Some u => ret (updates ++ [u])
                | None => ret updates
                end
            | None => ret updates
            end
        | None => ret updates
        end in
      monitor_orders_loop kraken_orders rest updates
  end.

(** [monitor_orders()]. *)
Definition monitor_orders : M (list OrderUpdate) :=
  try_except
    (let* w := get in
     let open_orders := open_exchange_orders w in
     match open_orders with
     | [] => ret []
     | _ =>
         let order_ids := omap Order.kraken_order_id open_orders in
         let* kraken_orders := query_orders order_ids in
         monitor_orders_loop kraken_orders open_orders []
     end)
    (ret []).

(** [adjust_stop_loss(position_id, new_stop_price)]. *)
Definition adjust_stop_loss (position_id : uuid) (new_stop_price : Q)
  : M bool :=
  try_except
    (let* w := get in
     match open_positions_by_id position_id w with
     | [] => ret false
     | position :: _ =>
         let* entry_order :=
           partial (head (orders_by_id (Position.entry_order_id position) w)) in
         match Order.stop_loss_order_id entry_order with
         | None => ret false
         | Some stop_id =>
             let* current_stop_order :=
               partial (head (orders_by_id stop_id w)) in
             match nonempty_id (Order.kraken_order_id current_stop_order) with
             | Some txid => cancel_order txid
             | None => ret tt
             end ;;
             let* new_stop_order :=
               _place_order (Position.pair_id position)
                 (Position.signal_id position) "stop-loss"
                 (closing_side (Position.side position))
                 (Position.remaining_amount position) (Some new_stop_price) in
             match new_stop_order with
             | Some new_order =>
                 modify (set_positions
                           (update_where
                              (fun p => Nat.eqb (Position.id p) position_id)
                              (PositionRow.set_stop_loss_price new_stop_price))) ;;
                 modify (set_orders
                           (update_where
                              (fun o => Nat.eqb (Order.id o)
                                          (Position.entry_order_id position))
                              (OrderRow.set_stop_loss_order (Order.id new_order)))) ;;
                 ret true
             | None => ret false
             end
         end
     end)
    (ret false).

(** One round of the loop of [_cancel_position_orders] over
    [stop_loss_order_id] and [take_profit_order_id]. *)
Definition cancel_child (child : option uuid) : M unit :=
  match child with
  | None => ret tt
  | Some order_id =>
      let* w := get in
      let* order_data := partial (head (orders_by_id order_id w)) in
      match nonempty_id (Order.kraken_order_id order_data) with
      | Some txid => cancel_order txid
      | None => ret tt
      end
  end.

(** [_cancel_position_orders(position_id)]. *)
Definition _cancel_position_orders (position_id : uuid) : M unit :=
  try_except
    (let* w := get in
     let* position_data := partial (head (positions_by_id position_id w)) in
     let* entry_order :=
       partial (head (orders_by_id (Position.entry_order_id position_data) w)) in
     cancel_child (Order.stop_loss_order_id entry_order) ;;
     cancel_child (Order.take_profit_order_id entry_order))
    (ret tt).

(** [close_position(position_id, reason)]. *)
Definition close_position (position_id : uuid) : M bool :=
  try_except
    (let* w := get in
     match open_positions_by_id position_id w with
     | [] => ret false
     | position :: _ =>
         _cancel_position_orders position_id ;;
         let* close_order :=
           _place_order (Position.pair_id position)
             (Position.signal_id position) "market"
             (closing_side (Position.side position))
             (Position.remaining_amount position) None in
         match close_order with
         | Some _ =>
             let* t := now in
             modify (set_positions
                       (update_where
                          (fun p => Nat.eqb (Position.id p) position_id)
                          (PositionRow.set_closed t))) ;;
             ret true
         | None => ret false
         end
     end)
    (ret false).

(** ** portfolio_service.py *)

(** The dict returned by [calculate_portfolio_metrics]. *)
Record Metrics := mkMetrics {
  m_total_balance_usd : Q;
  m_available_balance_usd : Q;
  m_total_pnl : Q;
  m_realized_pnl : Q;
  m_unrealized_pnl : Q;
  m_daily_pnl : Q;
  m_total_trades : nat;
  m_open_positions_count : nat;
  m_winning_trades : nat;
  m_losing_trades : nat;
  m_win_rate : Q;
  m_average_win : Q;
  m_average_loss : Q;
  m_profit_factor : Q;
  m_current_drawdown : Q;
  m_total_exposure_usd : Q
}.

(** The [SET] clause of [_update_portfolio_metrics]. *)
Definition set_metrics (m : Metrics) (t : datetime) (p : Portfolio.t)
  : Portfolio.t :=
  Portfolio.mk (Portfolio.id p) (Portfolio.total_balance_usd p)
    (Portfolio.available_balance_usd p) (Portfolio.locked_balance_usd p)
    (m_total_pnl m) (m_daily_pnl m) (Portfolio.weekly_pnl p)
    (Portfolio.monthly_pnl p) (m_total_trades m) (m_winning_trades m)
    (m_losing_trades m) (m_win_rate m) (m_average_win m) (m_average_loss m)
    (m_profit_factor m) (Portfolio.max_drawdown p) (m_current_drawdown m)
    (Portfolio.sharpe_ratio p) (m_open_positions_count m)
    (m_total_exposure_usd m) (Portfolio.max_position_size_pct p)
    (Portfolio.max_daily_loss_pct p) (Portfolio.is_trading_enabled p) t
    (Portfolio.created_at p).

(** [_update_portfolio_metrics(metrics)]. *)
Definition _update_portfolio_metrics (metrics : Metrics) : M unit :=
  try_except
    (let* t := now in
     let* w := get in
     modify (set_portfolio
               (update_where
                  (fun p => bool_decide (Some (Portfolio.id p) = portfolio_id w))
                  (set_metrics metrics t))))
    (ret tt).

(** The side-aware mark of an open position against its current price. *)
Definition position_unrealized (position : Position.t) (current_price : Q) : Q :=
  if String.eqb (Position.side position) "long"
  then (current_price - Position.entry_price position)
       * Position.remaining_amount position
  else (Position.entry_price position - current_price)
       * Position.remaining_amount position.

(** The loop accumulating [total_unrealized_pnl]. *)
Fixpoint unrealized_loop (open_positions : list Position.t) (total : Q) : Q :=
  match open_positions with
  | [] => total
  | position :: rest =>
      match Position.current_price position with
      | Some current_price =>
          if truthy (Some current_price)
          then unrealized_loop rest (total + position_unrealized position current_price)
          else unrealized_loop rest total
      | None => unrealized_loop rest total
      end
  end.

(** The loop accumulating [total_exposure]. *)
Fixpoint exposure_loop (open_positions : list Position.t) (total : Q) : Q :=
  match open_positions with
  | [] => total
  | position :: rest =>
      match Position.current_price position with
      | Some current_price =>
          if truthy (Some current_price)
          then exposure_loop rest
                 (total + current_price * Position.remaining_amount position)
          else exposure_loop rest total
      | None => exposure_loop rest total
      end
  end.

Definition count_of {A} (l : list A) : Q := inject_Z (Z.of_nat (length l)).

(** The metrics computed by [calculate_portfolio_metrics]: [positions] is the
    result of [SELECT * FROM positions ORDER BY opened_at DESC], [today] the
    date of the call. *)
Definition compute_metrics (positions : list Position.t)
    (portfolio_data : Portfolio.t) (today : Z) : Metrics :=
  let total_trades := length positions in
  let open_positions := filter (fun p => Position.is_open p) positions in
  let closed_positions := filter (fun p => ¬ Position.is_open p) positions in
  let total_realized_pnl := py_sum (map Position.realized_pnl closed_positions) in
  let total_unrealized_pnl := unrealized_loop open_positions 0 in
  let winning :=
    filter (fun p => Qgtb (Position.realized_pnl p) 0 = true) closed_positions in
  let losing :=
    filter (fun p => Qltb (Position.realized_pnl p) 0 = true) closed_positions in
  let winning_trades := length winning in
  let losing_trades := length losing in
  let win_rate :=
    match closed_positions with
    | [] => 0
    | _ => (count_of winning / count_of closed_positions) * 100
    end in
  let winning_pnls := map Position.realized_pnl winning in
  let losing_pnls := map Position.realized_pnl losing in
  let average_win :=
    match winning_pnls with
    | [] => 0
    | _ => py_sum winning_pnls / count_of winning_pnls
    end in
  let average_loss :=
    match losing_pnls with
    | [] => 0
    | _ => py_sum losing_pnls / count_of losing_pnls
    end in
  let total_wins := match winning_pnls with [] => 0 | _ => py_sum winning_pnls end in
  let total_losses :=
    match losing_pnls with [] => 0 | _ => Qabs (py_sum losing_pnls) end in
  let profit_factor :=
    if Qgtb total_losses 0 then total_wins / total_losses else 0 in
  let total_pnl := total_realized_pnl + total_unrealized_pnl in
  let max_pnl := list_max (map Position.max_unrealized_pnl positions ++ [0]) in
  let current_drawdown :=
    if Qgtb max_pnl 0 then py_max 0 (max_pnl - total_pnl) else 0 in
  let daily_positions :=
    filter (fun p => date (Position.opened_at p) = today) positions in
  let daily_pnl :=
    py_sum (map Position.realized_pnl
              (filter (fun p => ¬ Position.is_open p) daily_positions)) in
  let total_exposure := exposure_loop open_positions 0 in
  mkMetrics (Portfolio.total_balance_usd portfolio_data)
    (Portfolio.available_balance_usd portfolio_data) total_pnl
    total_realized_pnl total_unrealized_pnl daily_pnl total_trades
    (length open_positions) winning_trades losing_trades win_rate average_win
    average_loss profit_factor current_drawdown total_exposure.

(** [calculate_portfolio_metrics()]; [None] is the empty dict of the
    handler. *)
Definition calculate_portfolio_metrics : M (option Metrics) :=
  try_except
    (let* w := get in
     let positions :=
       sort_desc (fun p q => (Position.opened_at q <=? Position.opened_at p)%Z)
         (positions w) in
     let* portfolio_data := partial (head (portfolio_by_id w)) in
     let* t := now in
     let metrics := compute_metrics positions portfolio_data (date t) in
     _update_portfolio_metrics metrics ;;
     ret (Some metrics))
    (ret None).

(** [update_position_pnl(position_id, current_price)]. *)
Definition update_position_pnl (position_id : uuid) (current_price : Q)
  : M bool :=
  try_except
    (let* w := get in
     let* position_data := partial (head (positions_by_id position_id w)) in
     let unrealized_pnl := position_unrealized position_data current_price in
     let max_unrealized_pnl :=
       py_max (Position.max_unrealized_pnl position_data) unrealized_pnl in
     let max_unrealized_loss :=
       py_min (Position.max_unrealized_loss position_data) unrealized_pnl in
     let* t := now in
     modify (set_positions
               (update_where
                  (fun p => Nat.eqb (Position.id p) position_id)
                  (PositionRow.set_pnl current_price unrealized_pnl
                     max_unrealized_pnl max_unrealized_loss t))) ;;
     ret true)
    (ret false).

(** An alert of the risk check (the formatted message is left out). *)
Record Alert := mkAlert {
  a_type : string;
  a_severity : string;
  a_position_id : option uuid
}.

(** The dict returned by [check_risk_limits]. *)
Record RiskReport := mkReport {
  alerts : list Alert;
  risk_status : string
}.

(** The loop over the open positions of [check_risk_limits]; the division by
    the balance raises when the balance is zero. *)
Fixpoint position_alerts_loop (portfolio_data : Portfolio.t)
    (open_positions : list Position.t) (alerts : list Alert)
  : option (list Alert) :=
  match open_positions with
  | [] => Some alerts
  | position :: rest =>
      match Position.current_price position with
      | Some current_price =>
          if truthy (Some current_price) then
            let position_value :=
              current_price * Position.remaining_amount position in
            ratio ← py_div position_value
                      (Portfolio.total_balance_usd portfolio_data);
            let position_pct := ratio * 100 in
            if Qgtb position_pct (Portfolio.max_position_size_pct portfolio_data)
            then position_alerts_loop portfolio_data rest
                   (alerts ++ [mkAlert "POSITION_SIZE_LIMIT" "MEDIUM"
                                 (Some (Position.id position))])
            else position_alerts_loop portfolio_data rest alerts
          else position_alerts_loop portfolio_data rest alerts
      | None => position_alerts_loop portfolio_data rest alerts
      end
  end.

(** [any(a['severity'] == 'HIGH' for a in alerts)]. *)
Definition any_high (alerts : list Alert) : bool :=
  existsb (fun a => String.eqb (a_severity a) "HIGH") alerts.

Definition status_of (alerts : list Alert) : string :=
  if any_high alerts then "HIGH"
  else match alerts with
       | [] => "LOW"
       | _ => "MEDIUM"
       end.

(** The [try] block of [check_risk_limits]. *)
Definition check_risk_limits_body : M RiskReport :=
    (let* w := get in
     let* portfolio_data := partial (head (portfolio_by_id w)) in
     let alerts := [] in
     let daily_loss_limit :=
       Portfolio.total_balance_usd portfolio_data
       * (Portfolio.max_daily_loss_pct portfolio_data / 100) in
     let alerts :=
       if Qltb (Portfolio.daily_pnl portfolio_data) (- daily_loss_limit)
       then alerts ++ [mkAlert "DAILY_LOSS_LIMIT" "HIGH" None]
       else alerts in
     let open_positions := all_open_positions w in
     let* alerts :=
       partial (position_alerts_loop portfolio_data open_positions alerts) in
     let* exposure_ratio :=
       partial (py_div (Portfolio.total_exposure_usd portfolio_data)
                  (Portfolio.total_balance_usd portfolio_data)) in
     let total_exposure_pct := exposure_ratio * 100 in
     let alerts :=
       if Qgtb total_exposure_pct 50
       then alerts ++ [mkAlert "TOTAL_EXPOSURE_LIMIT" "HIGH" None]
       else alerts in
     ret (mkReport alerts (status_of alerts))).

(** [check_risk_limits()]. *)
Definition check_risk_limits : M RiskReport :=
  try_except check_risk_limits_body (ret (mkReport [] "UNKNOWN")).

(** ** trading_bot_service.py *)

(** The [for signal in signals[:3]] loop of [execute_trading_signals]. *)
Fixpoint execute_loop (portfolio_data : Portfolio.t)
    (signals : list TradingSignal.t) (positions : list Position.t)
  : M (list Position.t) :=
  match signals with
  | [] => ret positions
  | signal :: rest =>
      let position_size_pct := TradingSignal.position_size_recommendation signal in
      let position_size_usd :=
        Portfolio.available_balance_usd portfolio_data
        * (position_size_pct / 100) in
      if Qltb position_size_usd 50 then execute_loop portfolio_data rest positions
      else
        let* position := create_bracket_order signal position_size_usd in
        match position with
        | Some p => execute_loop portfolio_data rest (positions ++ [p])
        | None => execute_loop portfolio_data rest positions
        end
  end.

(** [execute_trading_signals(signals)]. *)
Definition execute_trading_signals (signals : list TradingSignal.t)
  : M (list Position.t) :=
  try_except
    (let* w := get in
     let* portfolio_data :=
       partial
         (head (sort_desc
                  (fun p q => (Portfolio.created_at q <=? Portfolio.created_at p)%Z)
                  (portfolio w))) in
     if negb (Portfolio.is_trading_enabled portfolio_data) then ret []
     else
       let* risk_check := check_risk_limits in
       if String.eqb (risk_status risk_check) "HIGH" then ret []
       else
         let signals :=
           sort_desc
             (fun s s' => Qle_bool (TradingSignal.confidence s')
                            (TradingSignal.confidence s))
             signals in
         execute_loop portfolio_data (take 3 signals) [])
    (ret []).

(** The dict returned by [_check_trailing_stop]. *)
Record Adjustment := mkAdjustment {
  adj_position_id : uuid;
  adj_old_stop : Q;
  adj_new_stop : Q;
  adj_reason : string
}.

(** [_check_trailing_stop(position, current_price)]: [position] is the row
    read by the caller.  Arithmetic on a [None] distance and comparison with
    a [None] stop raise. *)
Definition _check_trailing_stop (position : Position.t) (current_price : Q)
  : M (option Adjustment) :=
  try_except
    (if String.eqb (Position.side position) "long" then
       let* distance := partial (Position.trailing_stop_distance position) in
       let new_stop := current_price - distance in
       let* old_stop := partial (Position.stop_loss_price position) in
       if Qgtb new_stop old_stop then
         let* success := adjust_stop_loss (Position.id position) new_stop in
         if success
         then ret (Some (mkAdjustment (Position.id position) old_stop new_stop
                           "trailing_stop"))
         else ret None
       else ret None
     else
       let* distance := partial (Position.trailing_stop_distance position) in
       let new_stop := current_price + distance in
       let* old_stop := partial (Position.stop_loss_price position) in
       if Qltb new_stop old_stop then
         let* success := adjust_stop_loss (Position.id position) new_stop in
         if success
         then ret (Some (mkAdjustment (Position.id position) old_stop new_stop
                           "trailing_stop"))
         else ret None
       else ret None)
    (ret None).

(** The body of the [for position in open_positions] loop of
    [monitor_positions]. *)
Definition monitor_position_step (position : Position.t)
    (adjustments : list Adjustment) : M (list Adjustment) :=
  let* w := get in
  let* pair_data :=
    partial (head (pairs_by_id (Position.pair_id position) w)) in
  let* ticker_data := get_ticker [CryptoPair.symbol pair_data] in
  match ticker_data !! CryptoPair.symbol pair_data with
  | Some current_price =>
      update_position_pnl (Position.id position) current_price ;;
      if truthy (Position.trailing_stop_distance position) then
        let* adjustment := _check_trailing_stop position current_price in
        match adjustment with
        | Some a => ret (adjustments ++ [a])
        | None => ret adjustments
        end
      else ret adjustments
  | None => ret adjustments
  end.

(** The [for position in open_positions] loop of [monitor_positions]. *)
Fixpoint monitor_positions_loop (open_positions : list Position.t)
    (adjustments : list Adjustment) : M (list Adjustment) :=
  match open_positions with
  | [] => ret adjustments
  | position :: rest =>
      let* adjustments := monitor_position_step position adjustments in
      monitor_positions_loop rest adjustments
  end.

(** The dict returned by [monitor_positions]. *)
Record MonitorResult := mkMonitor {
  order_updates : list OrderUpdate;
  position_adjustments : list Adjustment;
  monitored_positions : nat
}.

(** [monitor_positions()]; [None] is the empty dict of the handler. *)
Definition monitor_positions : M (option MonitorResult) :=
  try_except
    (let* order_updates := monitor_orders in
     let* w := get in
     let open_positions := all_open_positions w in
     let* adjustments := monitor_positions_loop open_positions [] in
     ret (Some (mkMonitor order_updates adjustments (length open_positions))))
    (ret None).

End Services.

(** The world reached, and the value returned, by a computation that does
    not let an exception out. *)
Definition world_after {A} (m : M A) (w : World) : World := (m w).2.
Definition result_of {A} (m : M A) (w : World) : option A := (m w).1.

(** [n] reconciliation ticks in a row. *)
Fixpoint run_ticks (exchange : Kraken.Exchange) (n : nat) (w : World) : World :=
  match n with
  | O => w
  | S k => run_ticks exchange k (world_after (monitor_positions exchange) w)
  end.

(** ** Vocabulary of the statements *)

(** The Python value returned by an indicator function, seen as a reading:
    [None] and the label ["UNKNOWN"] tell that the indicator is unavailable,
    a float is a numeric value. *)
Inductive Reading :=
| Unavailable
| Numeric (v : Q)
| Regime (label : string).

Definition reading_of_optional (x : option Q) : Reading :=
  match x with
  | None => Unavailable
  | Some v => Numeric v
  end.

Definition reading_of_float (x : Q) : Reading := Numeric x.

Definition reading_of_label (s : string) : Reading :=
  if String.eqb s "UNKNOWN" then Unavailable else Regime s.

(** The inputs that [generate_trading_signal] derives from the rows. *)
Definition trend_of (market_data : list MarketData.t) : Q :=
  MarketAnalysis.calculate_trend_strength
    (map MarketData.close_price (reverse market_data)) 20.

Definition volatility_of (np_sqrt np_log : Q -> Q)
    (market_data : list MarketData.t) : option Q :=
  MarketAnalysis.calculate_volatility np_sqrt np_log
    (map MarketData.close_price (reverse market_data)) 20.

Definition volume_profile_of (market_data : list MarketData.t) : string :=
  MarketAnalysis.analyze_volume_profile
    (map MarketData.volume (reverse market_data)) 20.

(** The request that [_place_order] sends for a pair of symbol [symbol]. *)
Definition place_request (symbol order_type side : string) (amount : Q)
    (price : option Q) : Kraken.Request :=
  if String.eqb order_type "market"
  then Kraken.AddOrder symbol side "market" amount None
  else Kraken.AddOrder symbol side "limit" amount
         (if truthy price then price else None).

(** The transaction ids of a placement that the exchange accepted: the
    reply that [add_order] lets through. *)
Definition accepted (reply : option Kraken.Reply) : option (list string) :=
  match reply with
  | Some (Kraken.AddOrderResult txid) => Some txid
  | _ => None
  end.

(** The order record that [_place_order] creates in world [w] from the
    transaction ids [txid] of the reply. *)
Definition placed_order (w : World) (txid : list string) (pair_id : uuid)
    (signal_id : option uuid) (order_type side : string) (amount : Q)
    (price : option Q) : Order.t :=
  Order.mk (next_uuid w) (head txid) pair_id signal_id order_type side amount
    price "open" 0 None false None None None None None (clock w) (clock w) None.

(** The world after a successful [_place_order]. *)
Definition world_with_order (r : Kraken.Request) (o : Order.t) (w : World)
  : World :=
  set_orders (fun l => l ++ [o]) (set_next_uuid (S (next_uuid w)) (log_call r w)).

(** The database part of a world: what the ledger holds. *)
Definition same_ledger (w w' : World) : Prop :=
  orders w' = orders w /\ positions w' = positions w /\
  portfolio w' = portfolio w /\ crypto_pairs w' = crypto_pairs w /\
  active_bracket_orders w' = active_bracket_orders w.

(** The amount of a bracket order: the notional over the entry price,
    rounded to the volume precision of the pair; [None] when the division
    raises. *)
Definition bracket_amount (signal : TradingSignal.t) (position_size_usd : Q)
    (pair_ : CryptoPair.t) : option Q :=
  raw ← py_div position_size_usd (TradingSignal.entry_price signal);
  Some (py_round raw (CryptoPair.volume_precision pair_)).

Definition entry_side (signal : TradingSignal.t) : string :=
  if MarketAnalysis.is_buy (TradingSignal.signal_type signal)
  then "buy" else "sell".

(** An entry order is protected when its row refers to a stop-loss and to a
    take-profit order; it is flagged for a retry when its correlation entry
    is still in [active_bracket_orders]. *)
Definition protected_by (w : World) (entry_id : uuid) : Prop :=
  exists entry stop_id target_id,
    head (orders_by_id entry_id w) = Some entry /\
    Order.stop_loss_order_id entry = Some stop_id /\
    Order.take_profit_order_id entry = Some target_id.

Definition flagged_for_retry (w : World) (entry_id : uuid) : Prop :=
  is_Some (active_bracket_orders w !! entry_id).

(** The two protective orders of a fill of [filled] units, as
    [_handle_entry_fill] requests them for the correlation entry [info]. *)
Definition children_of_fill (info : BracketInfo) (filled : Q)
    (stop_order target_order : Order.t) : Prop :=
  Order.order_type stop_order = "stop-loss" /\
  Order.amount stop_order = filled /\
  Order.price stop_order = Some (b_stop_loss_price info) /\
  Order.side stop_order = opposite_of_entry (b_side info) /\
  Order.order_type target_order = "limit" /\
  Order.amount target_order = filled /\
  Order.price target_order = Some (b_take_profit_price info) /\
  Order.side target_order = opposite_of_entry (b_side info) /\
  Order.id stop_order <> Order.id target_order.

(** The statement that a tracked entry order reported closed ends up either
    protected or flagged for a retry. *)
Definition fill_dichotomy (exchange : Kraken.Exchange) (w : World)
    (order : Order.t) (kraken_order : Kraken.OrderInfo) : Prop :=
  head (orders_by_id (Order.id order) w) = Some order ->
  flagged_for_retry w (Order.id order) ->
  Kraken.status kraken_order = Some "closed" ->
  let w' := world_after (_update_order_status exchange order kraken_order) w in
  protected_by w' (Order.id order) \/ flagged_for_retry w' (Order.id order).

(** The two conditions of a HIGH alert, on the portfolio row. *)
Definition daily_loss_breach (portfolio_data : Portfolio.t) : Prop :=
  Portfolio.daily_pnl portfolio_data
  < - (Portfolio.total_balance_usd portfolio_data
       * (Portfolio.max_daily_loss_pct portfolio_data / 100)).

Definition exposure_breach (portfolio_data : Portfolio.t) : Prop :=
  50 < Portfolio.total_exposure_usd portfolio_data
       / Portfolio.total_balance_usd portfolio_data * 100.

(** The row that [execute_trading_signals] reads: the newest portfolio. *)
Definition newest_portfolio (w : World) : option Portfolio.t :=
  head (sort_desc
          (fun p q => (Portfolio.created_at q <=? Portfolio.created_at p)%Z)
          (portfolio w)).

(** The signals that [execute_trading_signals] goes through. *)
Definition top_signals (signals : list TradingSignal.t) : list TradingSignal.t :=
  take 3
    (sort_desc
       (fun s s' => Qle_bool (TradingSignal.confidence s')
                      (TradingSignal.confidence s))
       signals).

(** The statement that a daily loss beyond the limit always makes the risk
    check answer HIGH. *)
Definition daily_loss_is_high (w : World) (portfolio_data : Portfolio.t) : Prop :=
  head (portfolio_by_id w) = Some portfolio_data ->
  daily_loss_breach portfolio_data ->
  risk_status <$> result_of check_risk_limits w = Some "HIGH".

(** *** Stops that never widen *)

(** [not_wider side a b]: the stop [b] is at least as tight as the stop [a],
    for a position of side [side] (any side but ["long"] is handled as a
    short by the code). *)
Definition not_wider (side : string) (a b : option Q) : Prop :=
  match a, b with
  | Some x, Some y => if String.eqb side "long" then x <= y else y <= x
  | None, None => True
  | _, _ => False
  end.

(** The row [p'] is the row [p] at a later time, its stop not wider. *)
Definition never_widens (p p' : Position.t) : Prop :=
  Position.id p' = Position.id p /\
  Position.side p' = Position.side p /\
  not_wider (Position.side p) (Position.stop_loss_price p)
    (Position.stop_loss_price p').

(** The same, where only the rows of identifier [k] may have moved. *)
Definition steps_to (k : uuid) (p p' : Position.t) : Prop :=
  never_widens p p' /\
  (Position.id p <> k ->
   Position.stop_loss_price p' = Position.stop_loss_price p).

(** The statement that [adjust_stop_loss] accepts a candidate stop only
    when no row of the positions table ends up with a wider stop. *)
Definition accepts_only_tighter (exchange : Kraken.Exchange) (w : World)
    (position_id : uuid) (new_stop_price : Q) : Prop :=
  result_of (adjust_stop_loss exchange position_id new_stop_price) w
  = Some true ->
  Forall2 never_widens (positions w)
    (positions
       (world_after (adjust_stop_loss exchange position_id new_stop_price) w)).

(** What the trailing stop reads of a position row. *)
Definition stop_view (p : Position.t) : uuid * string * option Q :=
  (Position.id p, Position.side p, Position.stop_loss_price p).

(** A candidate stop is strictly tighter than the current one. *)
Definition tightens (side : string) (old_stop new_stop : Q) : Prop :=
  if String.eqb side "long" then old_stop < new_stop else new_stop < old_stop.

(** The positions table after a stop moved to [new_stop] on the rows of
    identifier [k], or not at all. *)
Definition moved_to (k : uuid) (new_stop : Q) (l l' : list Position.t) : Prop :=
  l' = l \/
  l' = update_where (fun p => Nat.eqb (Position.id p) k)
         (PositionRow.set_stop_loss_price new_stop) l.

(** The row [p'] shows what the row [p] shows. *)
Definition same_view (p p' : Position.t) : Prop := stop_view p' = stop_view p.

(** The rows read at the start of a tick still tell the side and the stop
    of the rows of the table that bear their identifiers. *)
Definition agrees (snapshot table : list Position.t) : Prop :=
  forall s q,
    s ∈ snapshot -> q ∈ table -> Position.id q = Position.id s ->
    Position.stop_loss_price q = Position.stop_loss_price s /\
    Position.side q = Position.side s.

(** A computation keeps a relation on the positions table. *)
Definition keeps {A} (Ip : list Position.t -> list Position.t -> Prop)
    (m : M A) : Prop :=
  forall w, Ip (positions w) (positions (m w).2).

(** ** Sample worlds *)

(** Two sample rows: an oversold reading with bullish MACD and averages, and
    a neutral reading. *)
Definition bullish_row : MarketData.t :=
  MarketData.mk 0 1 0 120 121 119 120 10 (Some 25) (Some 2) (Some 1) (Some 1)
    (Some 110) (Some 100) None None None None None.

Definition neutral_row : MarketData.t :=
  MarketData.mk 0 1 0 120 121 119 120 10 (Some 50) None None None
    None None None None None None None.

Definition sample_pair : CryptoPair.t :=
  CryptoPair.mk 1 "BTCUSD" "BTC" "USD" "BTC/USD" true 0.001 2 8.

(** A buy signal on the sample pair: entry 100, target 104, stop 98. *)
Definition sample_signal : TradingSignal.t :=
  TradingSignal.mk 5 1 "BUY" 0.7 100 104 98 0.5 1 "HIGH" None None "SCALP" 2
    60 true 0 None.

(** No order, no position, no portfolio yet. *)
Definition empty_world : World :=
  mkWorld [sample_pair] [] [] [] ∅ None 10 1000 [].

(** An exchange that accepts every request: the transaction id of an order
    is numbered by the length of the history, every queried order is
    reported closed, filled for one unit at 100.5, and the last trade is
    at 101. *)
Definition exchange_up : Kraken.Exchange :=
  fun history r =>
    match r with
    | Kraken.AddOrder _ _ _ _ _ =>
        Some (Kraken.AddOrderResult ["TX" +:+ pretty (length history)])
    | Kraken.CancelOrder _ => Some Kraken.CancelResult
    | Kraken.QueryOrders txids =>
        Some (Kraken.QueryResult
                (list_to_map
                   (map (fun i => (i, Kraken.mkInfo (Some "closed") (Some 1)
                                        (Some 100.5) (Some 0.1))) txids)))
    | Kraken.Ticker pairs =>
        Some (Kraken.TickerResult (list_to_map (map (fun i => (i, 101)) pairs)))
    end.

(** An exchange that is unreachable. *)
Definition exchange_down : Kraken.Exchange := fun _ _ => None.

(** An exchange that accepts everything but the placement of orders. *)
Definition exchange_rejecting_orders : Kraken.Exchange :=
  fun history r =>
    match r with
    | Kraken.AddOrder _ _ _ _ _ => None
    | _ => exchange_up history r
    end.

(** The world after the sample signal was executed for 100 USD. *)
Definition entered_world : World :=
  world_after (create_bracket_order exchange_up sample_signal 100) empty_world.

(** The world after the fill of that entry was reconciled: the position 11
    is protected by the stop-loss order 12 and the take-profit order 13. *)
Definition protected_world : World :=
  world_after (monitor_orders exchange_up) entered_world.

(** The report of the exchange for the filled sample entry. *)
Definition sample_fill : Kraken.OrderInfo :=
  Kraken.mkInfo (Some "closed") (Some 1) (Some 100.5) (Some 0.1).

(** The entry order of the sample signal, as [entered_world] holds it. *)
Definition sample_entry_order : Order.t :=
  Order.mk 10 (Some "TX0") 1 (Some 5%nat) "limit" "buy" 1.00000000 (Some 100)
    "open" 0 None false None None None None None 1000 1000 None.

(** A portfolio holding no USD but other assets: the total balance is zero,
    the trade balance is 10000; a daily loss of 10 is on record. *)
Definition crypto_only_portfolio : Portfolio.t :=
  Portfolio.mk 3 0 10000 0 0 (-10) 0 0 0 0 0 0 0 0 0 0 0 None 0 0 5 2 true
    1000 0.

Definition crypto_only_world : World :=
  mkWorld [sample_pair] [] [] [crypto_only_portfolio] ∅ (Some 3%nat) 10 1000 [].

(** A portfolio of 1000 USD with a daily loss of 50, beyond the limit of 2%. *)
Definition losing_portfolio : Portfolio.t :=
  Portfolio.mk 3 1000 1000 0 0 (-50) 0 0 0 0 0 0 0 0 0 0 0 None 0 0 5 2 true
    1000 0.

Definition losing_world : World :=
  mkWorld [sample_pair] [] [] [losing_portfolio] ∅ (Some 3%nat) 10 1000 [].

(** A world with two closed trades (one won 30, one lost 10) and one open
    long position marked at 105. *)
Definition traded_world : World :=
  mkWorld [sample_pair] []
    [Position.mk 20 1 30 None "long" 1 100 (Some 130) 0 30 0 None None None
       false 0 1 "SCALP" 35 0 500 900 (Some 900%Z);
     Position.mk 21 1 31 None "short" 1 100 (Some 110) 0 (-10) 0 None None None
       false 0 1 "SCALP" 0 (-10) 600 900 (Some 900%Z);
     Position.mk 22 1 32 None "long" 2 100 (Some 105) 10 0 0 (Some 98)
       (Some 104) None true 0 2 "SCALP" 12 0 700 900 None]
    [losing_portfolio] ∅ (Some 3%nat) 40 1000 [].

(** The protected sample position with a trailing distance of 2: a long of
    one unit entered at 100.5, stop at 98 (order 12), target at 104 (order
    13). *)
Definition trailing_world : World :=
  mkWorld [sample_pair]
    [Order.mk 10 (Some "TX0") 1 (Some 5%nat) "limit" "buy" 1 (Some 100)
       "closed" 1 (Some 100.5) false None (Some 12%nat) (Some 13%nat)
       (Some 0.1) None 1000 1000 (Some 1000%Z);
     Order.mk 12 (Some "TX2") 1 (Some 5%nat) "stop-loss" "sell" 1 (Some 98)
       "open" 0 None false None None None None None 1000 1000 None;
     Order.mk 13 (Some "TX3") 1 (Some 5%nat) "limit" "sell" 1 (Some 104)
       "open" 0 None false None None None None None 1000 1000 None]
    [Position.mk 11 1 10 (Some 5%nat) "long" 1 100.5 (Some 100.5) 0 0 0
       (Some 98) (Some 104) (Some 2) true 0 1 "SCALP" 0 0 1000 1000 None]
    [] ∅ None 14 1000 [].

(** ** More of portfolio_service.py and trading_bot_service.py *)

Definition set_portfolio_id (i : option uuid) (w : World) : World :=
  mkWorld (crypto_pairs w) (orders w) (positions w) (portfolio w)
    (active_bracket_orders w) i (next_uuid w) (clock w) (kraken_calls w).

(** [Portfolio()]: the defaults of the columns. *)
Definition new_portfolio (new_id : uuid) (t : datetime) : Portfolio.t :=
  Portfolio.mk new_id 0 0 0 0 0 0 0 0 0 0 0 0 0 0 0 0 None 0 0 5 2 true t t.

(** [_initialize_portfolio()]: the newest row of the table, or a new one. *)
Definition _initialize_portfolio : M unit :=
  try_except
    (let* w := get in
     let portfolios :=
       take 1
         (sort_desc
            (fun p q => (Portfolio.created_at q <=? Portfolio.created_at p)%Z)
            (portfolio w)) in
     match portfolios with
     | first :: _ => modify (set_portfolio_id (Some (Portfolio.id first)))
     | [] =>
         let* new_id := fresh_uuid in
         let* t := now in
         modify (set_portfolio (fun l => l ++ [new_portfolio new_id t])) ;;
         modify (set_portfolio_id (Some new_id))
     end)%M
    (ret tt).

(** The attributes that [TradingBotService.__init__] sets, [update_intervals]
    apart. *)
Record Bot := mkBot {
  is_running : bool;
  last_market_update : option datetime;
  last_signal_generation : option datetime
}.

(** [self.update_intervals], in seconds. *)
Definition update_intervals : gmap string Z :=
  {[ "market_data" := 60%Z; "signal_generation" := 300%Z;
     "order_monitoring" := 30%Z; "portfolio_update" := 180%Z ]}.

(** [_should_update(update_type)], called at time [t]. *)
Definition _should_update (bot : Bot) (t : datetime) (update_type : string)
  : bool :=
  let interval := default 60%Z (update_intervals !! update_type) in
  let check last_update :=
    match last_update with
    | None => true
    | Some last => (interval <=? t - last)%Z
    end in
  if String.eqb update_type "market_data"
  then check (last_market_update bot)
  else if String.eqb update_type "signal_generation"
  then check (last_signal_generation bot)
  else true.

(** ** Vocabulary of the further properties *)

(** The two parallel lists of [_analyze_signals] are sound when they have
    the same length, every vote is -1, 0 or 1 and every weight is positive. *)
Definition sound_votes (v : MarketAnalysis.votes) : Prop :=
  Forall2 (fun s w => (-1 <= s <= 1)%Z /\ 0 < w) v.1 v.2.

(** No indicator of the row casts a vote: each of them is absent or zero. *)
Definition no_indicator_votes (latest_data : MarketData.t) : Prop :=
  truthy (MarketData.rsi_14 latest_data) = false /\
  truthy (MarketData.macd latest_data)
    && truthy (MarketData.macd_signal latest_data) = false /\
  truthy (MarketData.sma_20 latest_data)
    && truthy (MarketData.sma_50 latest_data) = false.

(** A position row as [create_bracket_order] writes it, for what no later
    statement sets: no trailing distance and no realized P&L. *)
Definition as_opened (p : Position.t) : Prop :=
  Position.trailing_stop_distance p = None /\ Position.realized_pnl p = 0.

(** The row [p'] holds what the row [p] held: the same position, as open
    or as closed as it was. *)
Definition same_holding (p p' : Position.t) : Prop :=
  Position.id p' = Position.id p /\
  Position.side p' = Position.side p /\
  Position.amount p' = Position.amount p /\
  Position.is_open p' = Position.is_open p /\
  Position.closed_at p' = Position.closed_at p /\
  Position.realized_pnl p' = Position.realized_pnl p /\
  Position.trailing_stop_distance p' = Position.trailing_stop_distance p.

(** The public operations of the services on the world. *)
Inductive Operation :=
| CreateBracketOrder (signal : TradingSignal.t) (position_size_usd : Q)
| ExecuteTradingSignals (signals : list TradingSignal.t)
| MonitorOrders
| MonitorPositions
| AdjustStopLoss (position_id : uuid) (new_stop_price : Q)
| ClosePosition (position_id : uuid)
| UpdatePositionPnl (position_id : uuid) (current_price : Q)
| CalculatePortfolioMetrics
| CheckRiskLimits
| InitializePortfolio.

Definition perform (exchange : Kraken.Exchange) (op : Operation) (w : World)
  : World :=
  match op with
  | CreateBracketOrder signal position_size_usd =>
      world_after (create_bracket_order exchange signal position_size_usd) w
  | ExecuteTradingSignals signals =>
      world_after (execute_trading_signals exchange signals) w
  | MonitorOrders => world_after (monitor_orders exchange) w
  | MonitorPositions => world_after (monitor_positions exchange) w
  | AdjustStopLoss position_id new_stop_price =>
      world_after (adjust_stop_loss exchange position_id new_stop_price) w
  | ClosePosition position_id =>
      world_after (close_position exchange position_id) w
  | UpdatePositionPnl position_id current_price =>
      world_after (update_position_pnl position_id current_price) w
  | CalculatePortfolioMetrics => world_after calculate_portfolio_metrics w
  | CheckRiskLimits => world_after check_risk_limits w
  | InitializePortfolio => world_after _initialize_portfolio w
  end.

(** A sequence of operations, each one paired with the time of its call. *)
Fixpoint perform_all (exchange : Kraken.Exchange)
    (ops : list (datetime * Operation)) (w : World) : World :=
  match ops with
  | [] => w
  | (t, op) :: rest =>
      perform_all exchange rest (perform exchange op (set_clock t w))
  end.

(** The world [w] after further calls of the exchange, and nothing else. *)
Definition with_calls (calls : list Kraken.Request) (w : World) : World :=
  mkWorld (crypto_pairs w) (orders w) (positions w) (portfolio w)
    (active_bracket_orders w) (portfolio_id w) (next_uuid w) (clock w)
    (kraken_calls w ++ calls).

(** A list in descending order of a key: every element is followed by
    elements of a key at most its own. *)
Fixpoint ordered_desc {A} (key : A -> Q) (l : list A) : Prop :=
  match l with
  | [] => True
  | x :: t => Forall (fun y => key y <= key x) t /\ ordered_desc key t
  end.

(** A computation keeps a relation between the world it starts from and the
    world it reaches. *)
Definition evolves {A} (R : World -> World -> Prop) (m : M A) : Prop :=
  forall w, R w (m w).2.

(** The order types that the exchange is asked for. *)
Definition sendable (r : Kraken.Request) : Prop :=
  match r with
  | Kraken.AddOrder _ _ ordertype _ _ =>
      ordertype = "market" \/ ordertype = "limit"
  | _ => True
  end.

(** The history of [w'] is the history of [w] followed by sendable calls. *)
Definition history_grows (w w' : World) : Prop :=
  exists calls,
    kraken_calls w' = kraken_calls w ++ calls /\ Forall sendable calls.

(** The identifiers of the orders and of the positions are primary keys,
    all of them drawn before the next one. *)
Definition well_keyed (w : World) : Prop :=
  NoDup (map Order.id (orders w)) /\
  NoDup (map Position.id (positions w)) /\
  Forall (fun o => (Order.id o < next_uuid w)%nat) (orders w) /\
  Forall (fun p => (Position.id p < next_uuid w)%nat) (positions w).

(** An exchange that raises on every call. *)
Definition unreachable (exchange : Kraken.Exchange) : Prop :=
  forall history r, exchange history r = None.

(** * Properties *)

(** ** Comparisons and sums of rationals *)

Lemma Qltb_lt x y : Qltb x y = true <-> x < y.
Proof.
  unfold Qltb. rewrite negb_true_iff.
  split; intros H.
  - apply Qnot_le_lt. intros Hle. apply Qle_bool_iff in Hle. congruence.
  - destruct (Qle_bool y x) eqn:E; [|reflexivity].
    apply Qle_bool_iff in E. exfalso. revert E. apply Qlt_not_le, H.
Qed.

Lemma Qltb_ge x y : Qltb x y = false <-> y <= x.
Proof.
  unfold Qltb. rewrite negb_false_iff. apply Qle_bool_iff.
Qed.

Lemma Qgtb_gt x y : Qgtb x y = true <-> y < x.
Proof. apply Qltb_lt. Qed.

Lemma Qgtb_le x y : Qgtb x y = false <-> x <= y.
Proof. apply Qltb_ge. Qed.

Lemma py_min_le_r a b : py_min a b <= b.
Proof.
  unfold py_min. destruct (Qltb b a) eqn:E.
  - apply Qle_refl.
  - now apply Qltb_ge in E.
Qed.

Lemma py_min_cases a b : py_min a b = a \/ py_min a b = b.
Proof. unfold py_min. destruct (Qltb b a); auto. Qed.

Lemma Qsum_nonneg (l : list Q) :
  Forall (fun x => 0 <= x) l -> 0 <= Qsum l.
Proof.
  induction 1 as [|x l Hx _ IH]; simpl.
  - apply Qle_refl.
  - change 0 with (0 + 0). now apply Qplus_le_compat.
Qed.

Lemma count_nonneg (n : nat) : 0 <= inject_Z (Z.of_nat n).
Proof.
  change 0 with (inject_Z 0). rewrite <- Zle_Qle. lia.
Qed.

Lemma np_mean_nonneg (l : list Q) :
  Forall (fun x => 0 <= x) l -> 0 <= np_mean l.
Proof.
  intros H. unfold np_mean.
  apply Qmult_le_0_compat.
  - now apply Qsum_nonneg.
  - apply Qinv_le_0_compat, count_nonneg.
Qed.

Lemma np_gains_nonneg (l : list Q) : Forall (fun x => 0 <= x) (np_gains l).
Proof.
  unfold np_gains. induction l as [|d l IH]; simpl; constructor; [|exact IH].
  destruct (Qgtb d 0) eqn:E.
  - apply Qgtb_gt in E. now apply Qlt_le_weak.
  - apply Qle_refl.
Qed.

Lemma np_losses_nonneg (l : list Q) : Forall (fun x => 0 <= x) (np_losses l).
Proof.
  unfold np_losses. induction l as [|d l IH]; simpl; constructor; [|exact IH].
  destruct (Qltb d 0) eqn:E.
  - apply Qltb_lt in E. lra.
  - apply Qle_refl.
Qed.

Lemma py_tail_Forall {A} (P : A -> Prop) (n : nat) (l : list A) :
  Forall P l -> Forall P (py_tail n l).
Proof.
  intros H. destruct n; simpl; [exact H|]. now apply Forall_drop.
Qed.

(** ** The relative strength index *)

Lemma rsi_avg_gain_nonneg prices period :
  0 <= MarketAnalysis.rsi_avg_gain prices period.
Proof.
  apply np_mean_nonneg, py_tail_Forall, np_gains_nonneg.
Qed.

Lemma rsi_avg_loss_nonneg prices period :
  0 <= MarketAnalysis.rsi_avg_loss prices period.
Proof.
  apply np_mean_nonneg, py_tail_Forall, np_losses_nonneg.
Qed.

Lemma rsi_formula_range (g l : Q) :
  0 <= g -> 0 < l ->
  0 <= 100 - 100 / (1 + g / l) /\ 100 - 100 / (1 + g / l) <= 100.
Proof.
  intros Hg Hl.
  assert (Hrs : 0 <= g / l).
  { apply Qle_shift_div_l; [exact Hl | lra]. }
  assert (Hpos : 0 < 1 + g / l) by lra.
  assert (Hup : 100 / (1 + g / l) <= 100).
  { apply Qle_shift_div_r; [exact Hpos | lra]. }
  assert (Hlow : 0 <= 100 / (1 + g / l)).
  { apply Qle_shift_div_l; [exact Hpos | lra]. }
  split; lra.
Qed.

(** C8.  With at least [period + 1] samples (15 for the default period 14)
    [calculate_rsi] returns a value between 0 and 100, which is exactly 100
    when the average loss over the trailing window is zero; with fewer
    samples it returns [None].  The period is at least one, so that the
    trailing window of a long enough series is not empty. *)
Theorem calculate_rsi_range (prices : list Q) (period : nat) :
  (1 <= period)%nat ->
  ((length prices < period + 1)%nat ->
   MarketAnalysis.calculate_rsi prices period = None) /\
  ((period + 1 <= length prices)%nat ->
   exists r,
     MarketAnalysis.calculate_rsi prices period = Some r /\
     0 <= r /\ r <= 100 /\
     (MarketAnalysis.rsi_avg_loss prices period == 0 -> r = 100)).
Proof.
  intros _. unfold MarketAnalysis.calculate_rsi. split; intros Hlen.
  - apply Nat.ltb_lt in Hlen. now rewrite Hlen.
  - assert (E : (length prices <? period + 1)%nat = false)
      by (apply Nat.ltb_ge; exact Hlen).
    rewrite E.
    destruct (Qeq_bool (MarketAnalysis.rsi_avg_loss prices period) 0) eqn:Hz.
    + exists 100. repeat split; [lra | lra].
    + apply Qeq_bool_neq in Hz.
      pose proof (rsi_avg_loss_nonneg prices period) as Hl.
      pose proof (rsi_avg_gain_nonneg prices period) as Hg.
      assert (Hpos : 0 < MarketAnalysis.rsi_avg_loss prices period).
      { apply Qle_lteq in Hl as [Hlt | Heq]; [exact Hlt|].
        exfalso. apply Hz. symmetry. exact Heq. }
      destruct (rsi_formula_range _ _ Hg Hpos) as [H0 H100].
      eexists. split; [reflexivity|]. repeat split; try assumption.
      intros Hzero. exfalso. apply Hz, Hzero.
Qed.

(** Fifteen rising prices: the window has no loss and the index is 100. *)
Lemma calculate_rsi_range_witness :
  (1 <= 14)%nat /\
  exists r,
    MarketAnalysis.calculate_rsi
      [1; 2; 3; 4; 5; 6; 7; 8; 9; 10; 11; 12; 13; 14; 15] 14 = Some r /\
    0 <= r /\ r <= 100.
Proof.
  split; [lia|].
  destruct (calculate_rsi_range
              [1; 2; 3; 4; 5; 6; 7; 8; 9; 10; 11; 12; 13; 14; 15] 14)
    as [_ H]; [lia|].
  destruct H as (r & Hr & H0 & H100 & _); [simpl; lia|].
  exists r. auto.
Defined.

(** ** Indicators below their minimum window *)

Section ShortSeries.

Variables np_sqrt np_log : Q -> Q.

Lemma calculate_rsi_short prices period :
  (length prices < period + 1)%nat ->
  MarketAnalysis.calculate_rsi prices period = None.
Proof.
  intros H. unfold MarketAnalysis.calculate_rsi.
  apply Nat.ltb_lt in H. now rewrite H.
Qed.

Lemma calculate_macd_short prices fast slow signal :
  (length prices < slow + signal)%nat ->
  MarketAnalysis.calculate_macd prices fast slow signal = (None, None, None).
Proof.
  intros H. unfold MarketAnalysis.calculate_macd.
  apply Nat.ltb_lt in H. now rewrite H.
Qed.

Lemma calculate_bollinger_bands_short prices period std_dev :
  (length prices < period)%nat ->
  MarketAnalysis.calculate_bollinger_bands np_sqrt prices period std_dev
  = (None, None, None).
Proof.
  intros H. unfold MarketAnalysis.calculate_bollinger_bands.
  apply Nat.ltb_lt in H. now rewrite H.
Qed.

Lemma calculate_volatility_short prices period :
  (length prices < period + 1)%nat ->
  MarketAnalysis.calculate_volatility np_sqrt np_log prices period = None.
Proof.
  intros H. unfold MarketAnalysis.calculate_volatility.
  apply Nat.ltb_lt in H. now rewrite H.
Qed.

Lemma identify_support_resistance_short highs lows lookback :
  (length highs < lookback)%nat \/ (length lows < lookback)%nat ->
  MarketAnalysis.identify_support_resistance highs lows lookback = (None, None).
Proof.
  intros H. unfold MarketAnalysis.identify_support_resistance.
  destruct H as [H | H]; apply Nat.ltb_lt in H; rewrite H;
    [reflexivity | now rewrite orb_true_r].
Qed.

Lemma analyze_volume_profile_short volumes period :
  (length volumes < period)%nat ->
  MarketAnalysis.analyze_volume_profile volumes period = "UNKNOWN".
Proof.
  intros H. unfold MarketAnalysis.analyze_volume_profile.
  apply Nat.ltb_lt in H. now rewrite H.
Qed.

Lemma calculate_trend_strength_short prices period :
  (length prices < period)%nat ->
  MarketAnalysis.calculate_trend_strength prices period = 0.
Proof.
  intros H. unfold MarketAnalysis.calculate_trend_strength.
  apply Nat.ltb_lt in H. now rewrite H.
Qed.

(** With positive periods the loop returns a dict, and the keys of a period
    longer than the series are never written. *)
Lemma moving_averages_loop_short prices periods results :
  Forall (fun q => (1 <= q)%nat) periods ->
  exists results',
    MarketAnalysis.calculate_moving_averages_loop prices periods results
    = Some results' /\
    forall p key,
      (length prices < p)%nat ->
      key = "sma_" +:+ pretty p \/ key = "ema_" +:+ pretty p ->
      results !! key = None -> results' !! key = None.
Proof.
  intros Hpos. revert results.
  induction Hpos as [|q rest Hq _ IH]; intros results; simpl.
  - exists results. split; [reflexivity | auto].
  - destruct (q <=? length prices)%nat eqn:E.
    + assert (Hz : (q =? 0)%nat = false) by (apply Nat.eqb_neq; lia).
      rewrite Hz. apply Nat.leb_le in E.
      destruct (IH (<[ "ema_" +:+ pretty q
                       := iloc_last (ewm_mean q prices) ]>
                      (<[ "sma_" +:+ pretty q
                          := rolling_mean_last q prices ]> results)))
        as (results' & Hrun & Hkeys).
      exists results'. split; [exact Hrun|].
      intros p key Hp Hkey Hres. apply (Hkeys p key Hp Hkey).
      assert (Hne : pretty q <> pretty p).
      { intros Heq. apply (inj pretty) in Heq. lia. }
      rewrite !lookup_insert_ne; [exact Hres | |].
      * destruct Hkey as [-> | ->]; intros Heq.
        -- apply Hne. now apply (inj (String.app "sma_")) in Heq.
        -- injection Heq; intros; discriminate.
      * destruct Hkey as [-> | ->]; intros Heq.
        -- injection Heq; intros; discriminate.
        -- apply Hne. now apply (inj (String.app "ema_")) in Heq.
    + apply IH.
Qed.

Lemma calculate_moving_averages_short prices periods :
  Forall (fun q => (1 <= q)%nat) periods ->
  exists results,
    MarketAnalysis.calculate_moving_averages prices periods = Some results /\
    forall p,
      (length prices < p)%nat ->
      results !! ("sma_" +:+ pretty p) = None /\
      results !! ("ema_" +:+ pretty p) = None.
Proof.
  intros Hpos. unfold MarketAnalysis.calculate_moving_averages.
  destruct (moving_averages_loop_short prices periods ∅ Hpos)
    as (results & Hrun & Hkeys).
  exists results. split; [exact Hrun|].
  intros p Hp. split; eapply Hkeys; eauto.
Qed.

(** A period of zero makes the call raise, whatever the series. *)
Lemma calculate_moving_averages_zero_period prices periods :
  MarketAnalysis.calculate_moving_averages prices (0%nat :: periods) = None.
Proof. reflexivity. Qed.

End ShortSeries.

(** Three prices against the default window of 20: the trend strength is the
    float [0.0]. *)
Example trend_strength_three_prices :
  MarketAnalysis.calculate_trend_strength [100; 101; 102] 20 = 0.
Proof. reflexivity. Qed.

(** C6, as stated, fails: below its window [calculate_trend_strength]
    reports a number, not an unavailable reading. *)
Lemma trend_strength_short_not_unavailable :
  ~ (forall prices period,
        (length prices < period)%nat ->
        reading_of_float (MarketAnalysis.calculate_trend_strength prices period)
        = Unavailable).
Proof.
  intros H. specialize (H [100; 101; 102] 20%nat).
  assert (Hlen : (length [100; 101; 102] < 20)%nat) by (simpl; lia).
  specialize (H Hlen). discriminate H.
Qed.

(** C6, amended.  Below its minimum window every indicator function returns
    without an error, and reports itself unavailable ([None], the label
    ["UNKNOWN"], or no key in the dict of moving averages), except
    [calculate_trend_strength], which returns the number [0.0].  The moving
    averages are asked for positive periods: a period of zero makes
    [calculate_moving_averages] raise, whatever the series. *)
Theorem indicators_below_minimum_window (np_sqrt np_log : Q -> Q)
    (series : list Q) :
  (forall period, (length series < period + 1)%nat ->
     reading_of_optional (MarketAnalysis.calculate_rsi series period)
     = Unavailable) /\
  (forall fast slow signal, (length series < slow + signal)%nat ->
     MarketAnalysis.calculate_macd series fast slow signal
     = (None, None, None)) /\
  (forall period std_dev, (length series < period)%nat ->
     MarketAnalysis.calculate_bollinger_bands np_sqrt series period std_dev
     = (None, None, None)) /\
  (forall periods, Forall (fun period => (1 <= period)%nat) periods ->
     exists averages,
       MarketAnalysis.calculate_moving_averages series periods
       = Some averages /\
       forall period, (length series < period)%nat ->
         averages !! ("sma_" +:+ pretty period) = None /\
         averages !! ("ema_" +:+ pretty period) = None) /\
  (forall periods,
     MarketAnalysis.calculate_moving_averages series (0%nat :: periods)
     = None) /\
  (forall period, (length series < period + 1)%nat ->
     reading_of_optional
       (MarketAnalysis.calculate_volatility np_sqrt np_log series period)
     = Unavailable) /\
  (forall other lookback, (length series < lookback)%nat ->
     MarketAnalysis.identify_support_resistance series other lookback
     = (None, None) /\
     MarketAnalysis.identify_support_resistance other series lookback
     = (None, None)) /\
  (forall period, (length series < period)%nat ->
     reading_of_label (MarketAnalysis.analyze_volume_profile series period)
     = Unavailable) /\
  (forall period, (length series < period)%nat ->
     reading_of_float (MarketAnalysis.calculate_trend_strength series period)
     = Numeric 0).
Proof.
  repeat split; intros.
  - now rewrite calculate_rsi_short.
  - now apply calculate_macd_short.
  - now apply calculate_bollinger_bands_short.
  - now apply calculate_moving_averages_short.
  - now rewrite calculate_volatility_short.
  - apply identify_support_resistance_short. now left.
  - apply identify_support_resistance_short. now right.
  - now rewrite analyze_volume_profile_short.
  - now rewrite calculate_trend_strength_short.
Qed.

(** Three samples against the default windows. *)
Lemma indicators_below_minimum_window_witness :
  (length [100; 101; 102] < 14 + 1)%nat /\
  (length [100; 101; 102] < 26 + 9)%nat /\
  (length [100; 101; 102] < 20)%nat /\
  reading_of_optional (MarketAnalysis.calculate_rsi [100; 101; 102] 14)
  = Unavailable /\
  MarketAnalysis.calculate_macd [100; 101; 102] 12 26 9 = (None, None, None) /\
  reading_of_label (MarketAnalysis.analyze_volume_profile [100; 101; 102] 20)
  = Unavailable /\
  reading_of_float (MarketAnalysis.calculate_trend_strength [100; 101; 102] 20)
  = Numeric 0 /\
  (exists averages,
      MarketAnalysis.calculate_moving_averages [100; 101; 102] [20; 50]%nat
      = Some averages /\
      averages !! "sma_20" = None /\ averages !! "ema_50" = None).
Proof.
  assert (H1 : (length [100; 101; 102] < 14 + 1)%nat) by (simpl; lia).
  assert (H2 : (length [100; 101; 102] < 26 + 9)%nat) by (simpl; lia).
  assert (H3 : (length [100; 101; 102] < 20)%nat) by (simpl; lia).
  destruct (indicators_below_minimum_window (fun x => x) (fun x => x)
              [100; 101; 102])
    as (Hrsi & Hmacd & _ & Haverages & _ & _ & _ & Hvol & Htrend).
  split; [exact H1|]. split; [exact H2|]. split; [exact H3|].
  split; [exact (Hrsi _ H1)|]. split; [exact (Hmacd _ _ _ H2)|].
  split; [exact (Hvol _ H3)|]. split; [exact (Htrend _ H3)|].
  destruct (Haverages [20; 50]%nat) as (averages & Hrun & Hkeys).
  { repeat constructor; lia. }
  exists averages. split; [exact Hrun|].
  split.
  - exact (proj1 (Hkeys 20%nat H3)).
  - apply (proj2 (Hkeys 50%nat ltac:(simpl; lia))).
Defined.

(** ** The signal generator *)

Lemma classify_hold (ws : Q) :
  MarketAnalysis.classify ws = "HOLD" <-> Qabs ws <= 0.3.
Proof.
  unfold MarketAnalysis.classify.
  rewrite Qabs_Qle_condition.
  destruct (Qgtb ws 0.3) eqn:Hgt.
  - apply Qgtb_gt in Hgt.
    split.
    + destruct (Qgtb ws 0.6); discriminate.
    + intros [_ Hle]. exfalso. lra.
  - apply Qgtb_le in Hgt.
    destruct (Qltb ws (-0.3)) eqn:Hlt.
    + apply Qltb_lt in Hlt.
      split.
      * destruct (Qltb ws (-0.6)); discriminate.
      * intros [Hge _]. exfalso. lra.
    + apply Qltb_ge in Hlt. split; [|reflexivity].
      intros _. split; lra.
Qed.

Lemma confidence_in_unit_interval (ws : Q) :
  0 <= py_min (Qabs ws) 1 /\ py_min (Qabs ws) 1 <= 1.
Proof.
  split.
  - destruct (py_min_cases (Qabs ws) 1) as [-> | ->].
    + apply Qabs_nonneg.
    + lra.
  - apply py_min_le_r.
Qed.

(** What [_analyze_signals] returns: the pair of ["HOLD"] and [0.0] when no
    indicator voted, else the class and the capped magnitude of the weighted
    score. *)
Lemma _analyze_signals_result latest ts vol vp signal_type confidence :
  MarketAnalysis._analyze_signals latest ts vol vp
  = Some (signal_type, confidence) ->
  (signal_type = "HOLD" /\ confidence = 0) \/
  (exists ws,
      MarketAnalysis.weighted_signal_of
        (MarketAnalysis.gather_votes latest ts vp) = Some ws /\
      signal_type = MarketAnalysis.classify ws /\
      confidence = py_min (Qabs ws) 1).
Proof.
  unfold MarketAnalysis._analyze_signals.
  destruct ((MarketAnalysis.gather_votes latest ts vp).1) as [|s rest].
  - intros [= <- <-]. now left.
  - destruct (MarketAnalysis.weighted_signal_of
                (MarketAnalysis.gather_votes latest ts vp)) as [ws|];
      simpl; [|discriminate].
    intros [= <- <-]. right. exists ws. auto.
Qed.

Lemma _analyze_signals_confidence latest ts vol vp signal_type confidence :
  MarketAnalysis._analyze_signals latest ts vol vp
  = Some (signal_type, confidence) ->
  0 <= confidence /\ confidence <= 1.
Proof.
  intros H. apply _analyze_signals_result in H as [[_ ->] | (ws & _ & _ & ->)].
  - split; lra.
  - apply confidence_in_unit_interval.
Qed.

Section SignalGenerator.

Variables np_sqrt np_log : Q -> Q.
Variables (new_id pair_id : uuid) (now : datetime).

(** A returned signal is the candidate of [_analyze_signals] on the newest
    row, and it passed both tests of the gate. *)
Lemma generate_trading_signal_inv market_data signal :
  MarketAnalysis.generate_trading_signal np_sqrt np_log new_id pair_id now
    market_data = Some signal ->
  exists latest signal_type,
    head market_data = Some latest /\
    MarketAnalysis._analyze_signals latest (trend_of market_data)
      (volatility_of np_sqrt np_log market_data)
      (volume_profile_of market_data)
    = Some (signal_type, TradingSignal.confidence signal) /\
    String.eqb signal_type "HOLD" = false /\
    Qltb (TradingSignal.confidence signal) 0.6 = false.
Proof.
  unfold MarketAnalysis.generate_trading_signal.
  destruct (length market_data <? 20)%nat; [discriminate|].
  destruct (head market_data) as [latest|]; simpl; [|discriminate].
  destruct (MarketAnalysis.identify_support_resistance _ _ _)
    as [support resistance].
  fold (trend_of market_data) (volatility_of np_sqrt np_log market_data)
    (volume_profile_of market_data).
  destruct (MarketAnalysis._analyze_signals latest (trend_of market_data)
              (volatility_of np_sqrt np_log market_data)
              (volume_profile_of market_data))
    as [[signal_type confidence]|] eqn:Hcandidate; simpl; [|discriminate].
  destruct (String.eqb signal_type "HOLD") eqn:Hhold; simpl; [discriminate|].
  destruct (Qltb confidence 0.6) eqn:Hconf; [discriminate|].
  destruct (MarketAnalysis._calculate_trade_levels _ _ _ _ _)
    as [[[entry target] stop]|]; simpl; [|discriminate].
  destruct (MarketAnalysis._calculate_position_size _ _) as [size|];
    simpl; [|discriminate].
  destruct (volatility_of np_sqrt np_log market_data) as [vol|] eqn:Hvol;
    simpl; [|discriminate].
  intros [= <-]. simpl.
  exists latest, signal_type. auto.
Qed.

End SignalGenerator.

(** C7.  A signal returned by [generate_trading_signal] has a confidence
    between 0 and 1 (and of at least 0.6); no signal is returned when the
    magnitude of the weighted score is at most 0.3, nor when the confidence
    of the candidate is below 0.6. *)
Theorem generate_trading_signal_gate (np_sqrt np_log : Q -> Q)
    (new_id pair_id : uuid) (now : datetime)
    (market_data : list MarketData.t) :
  (forall signal,
      MarketAnalysis.generate_trading_signal np_sqrt np_log new_id pair_id now
        market_data = Some signal ->
      0 <= TradingSignal.confidence signal /\
      TradingSignal.confidence signal <= 1 /\
      0.6 <= TradingSignal.confidence signal) /\
  (forall latest ws,
      head market_data = Some latest ->
      MarketAnalysis.weighted_signal_of
        (MarketAnalysis.gather_votes latest (trend_of market_data)
           (volume_profile_of market_data)) = Some ws ->
      Qabs ws <= 0.3 ->
      MarketAnalysis.generate_trading_signal np_sqrt np_log new_id pair_id now
        market_data = None) /\
  (forall latest signal_type confidence,
      head market_data = Some latest ->
      MarketAnalysis._analyze_signals latest (trend_of market_data)
        (volatility_of np_sqrt np_log market_data)
        (volume_profile_of market_data) = Some (signal_type, confidence) ->
      confidence < 0.6 ->
      MarketAnalysis.generate_trading_signal np_sqrt np_log new_id pair_id now
        market_data = None).
Proof.
  split; [|split].
  - intros signal Hgen.
    apply generate_trading_signal_inv in Hgen
      as (latest & signal_type & _ & Hcand & _ & Hconf).
    apply _analyze_signals_confidence in Hcand as [H0 H1].
    apply Qltb_ge in Hconf. auto.
  - intros latest ws Hhead Hws Hsmall.
    destruct (MarketAnalysis.generate_trading_signal np_sqrt np_log new_id
                pair_id now market_data) as [signal|] eqn:Hgen; [|reflexivity].
    exfalso.
    apply generate_trading_signal_inv in Hgen
      as (latest' & signal_type & Hhead' & Hcand & Hhold & _).
    rewrite Hhead in Hhead'. injection Hhead' as <-.
    apply _analyze_signals_result in Hcand
      as [[-> _] | (ws' & Hws' & -> & _)].
    + discriminate Hhold.
    + rewrite Hws in Hws'. injection Hws' as <-.
      apply classify_hold in Hsmall. rewrite Hsmall in Hhold.
      discriminate Hhold.
  - intros latest signal_type confidence Hhead Hcand Hlow.
    destruct (MarketAnalysis.generate_trading_signal np_sqrt np_log new_id
                pair_id now market_data) as [signal|] eqn:Hgen; [|reflexivity].
    exfalso.
    apply generate_trading_signal_inv in Hgen
      as (latest' & signal_type' & Hhead' & Hcand' & _ & Hconf).
    rewrite Hhead in Hhead'. injection Hhead' as <-.
    rewrite Hcand in Hcand'. injection Hcand' as _ Hc.
    rewrite <- Hc in Hconf. apply Qltb_ge in Hconf.
    revert Hconf. apply Qlt_not_le, Hlow.
Qed.

(** Twenty-one bullish rows give a signal, whose confidence the theorem
    bounds; twenty-one neutral rows have a weighted score of zero and give
    none. *)
Lemma generate_trading_signal_gate_witness :
  (exists signal,
      MarketAnalysis.generate_trading_signal (fun x => x) (fun x => x) 7 1 0
        (replicate 21 bullish_row) = Some signal /\
      0 <= TradingSignal.confidence signal /\
      TradingSignal.confidence signal <= 1 /\
      0.6 <= TradingSignal.confidence signal) /\
  MarketAnalysis.generate_trading_signal (fun x => x) (fun x => x) 7 1 0
    (replicate 21 neutral_row) = None.
Proof.
  split.
  - destruct (MarketAnalysis.generate_trading_signal (fun x => x) (fun x => x)
                7 1 0 (replicate 21 bullish_row)) as [signal|] eqn:Hgen.
    + exists signal. split; [reflexivity|].
      exact (proj1 (generate_trading_signal_gate (fun x => x) (fun x => x)
                      7%nat 1%nat 0%Z (replicate 21 bullish_row)) signal Hgen).
    + vm_compute in Hgen. discriminate Hgen.
  - eapply (proj1 (proj2 (generate_trading_signal_gate (fun x => x)
                            (fun x => x) 7%nat 1%nat 0%Z
                            (replicate 21 neutral_row)))).
    + reflexivity.
    + vm_compute. reflexivity.
    + vm_compute. discriminate.
Defined.

(** ** The bracket order manager *)

Section OrderManagement.

Variable exchange : Kraken.Exchange.

#[local] Arguments py_round : simpl never.
#[local] Arguments Qltb : simpl never.
#[local] Arguments py_div : simpl never.

(** [_place_order] never lets an exception out; it either leaves the
    database as it is, or appends exactly one order. *)
Lemma _place_order_cases pair_id signal_id order_type side amount price w :
  match head (pairs_by_id pair_id w) with
  | None =>
      _place_order exchange pair_id signal_id order_type side amount price w
      = (Some None, w)
  | Some pair_data =>
      let r := place_request (CryptoPair.symbol pair_data) order_type side
                 amount price in
      match exchange (kraken_calls w) r with
      | Some (Kraken.AddOrderResult txid) =>
          let o := placed_order w txid pair_id signal_id order_type side
                     amount price in
          _place_order exchange pair_id signal_id order_type side amount price w
          = (Some (Some o), world_with_order r o w)
      | _ =>
          _place_order exchange pair_id signal_id order_type side amount price w
          = (Some None, log_call r w)
      end
  end.
Proof.
  unfold _place_order, try_except, bind, get, partial, place_request.
  destruct (head (pairs_by_id pair_id w)) as [pair_data|]; [|reflexivity].
  cbn.
  destruct (String.eqb order_type "market");
    unfold add_order, bind, kraken_call; cbn;
    match goal with
    | |- context [exchange ?h ?r] => destruct (exchange h r) as [[txid| | |]|]
    end; reflexivity.
Qed.

(** C4.  When the rounded amount is below the minimum order size of the
    pair, or when the placement of the entry order fails,
    [create_bracket_order] returns no position and leaves the database and
    the correlation map as they were: no position (and no order) record is
    created. *)
Theorem create_bracket_order_atomic (signal : TradingSignal.t)
    (position_size_usd : Q) (w : World) (pair_ : CryptoPair.t) (amount : Q) :
  head (pairs_by_id (TradingSignal.pair_id signal) w) = Some pair_ ->
  bracket_amount signal position_size_usd pair_ = Some amount ->
  amount < CryptoPair.min_order_size pair_ \/
  result_of
    (_place_order exchange (TradingSignal.pair_id signal)
       (Some (TradingSignal.id signal)) "limit" (entry_side signal) amount
       (Some (TradingSignal.entry_price signal))) w = Some None ->
  result_of (create_bracket_order exchange signal position_size_usd) w
  = Some None /\
  same_ledger w
    (world_after (create_bracket_order exchange signal position_size_usd) w).
Proof.
  intros Hpair Hamount Hfail.
  unfold bracket_amount in Hamount.
  unfold result_of, world_after, create_bracket_order, try_except, bind, get,
    partial.
  rewrite Hpair.
  destruct (py_div position_size_usd (TradingSignal.entry_price signal))
    as [raw|]; [|discriminate].
  cbn in Hamount. injection Hamount as Hamount. cbn. rewrite Hamount.
  destruct (Qltb amount (CryptoPair.min_order_size pair_)) eqn:Hmin.
  { cbn. split; [reflexivity | repeat split]. }
  destruct Hfail as [Hlt | Hplace].
  { apply Qltb_lt in Hlt. congruence. }
  fold (entry_side signal).
  unfold result_of in Hplace.
  pose proof (_place_order_cases (TradingSignal.pair_id signal)
                (Some (TradingSignal.id signal)) "limit" (entry_side signal)
                amount (Some (TradingSignal.entry_price signal)) w) as Hcases.
  rewrite Hpair in Hcases. cbn zeta in Hcases.
  destruct (exchange (kraken_calls w) _) as [[txid| | |]|];
    rewrite Hcases in Hplace |- *; try discriminate Hplace;
    cbn; (split; [reflexivity | repeat split]).
Qed.

(** What [_place_order] does to the world, whatever the exchange answers. *)
Lemma _place_order_outcome pair_id signal_id order_type side amount price w :
  exists r w',
    _place_order exchange pair_id signal_id order_type side amount price w
    = (Some r, w') /\
    positions w' = positions w /\
    active_bracket_orders w' = active_bracket_orders w /\
    crypto_pairs w' = crypto_pairs w /\
    portfolio w' = portfolio w /\
    portfolio_id w' = portfolio_id w /\
    clock w' = clock w /\
    match r with
    | None => orders w' = orders w /\ next_uuid w' = next_uuid w
    | Some o =>
        orders w' = orders w ++ [o] /\ next_uuid w' = S (next_uuid w) /\
        exists txid,
          o = placed_order w txid pair_id signal_id order_type side amount price
    end.
Proof.
  pose proof (_place_order_cases pair_id signal_id order_type side amount
                price w) as Hcases.
  destruct (head (pairs_by_id pair_id w)) as [pair_data|].
  - cbv zeta in Hcases.
    destruct (exchange (kraken_calls w) _) as [[txid| | |]|];
      rewrite Hcases; eexists; eexists; (split; [reflexivity|]); cbn;
      repeat split; eauto.
  - rewrite Hcases. eexists; eexists; (split; [reflexivity|]); repeat split.
Qed.

(** *** Closing a position *)

Lemma cancel_order_accepted txid w :
  exchange (kraken_calls w) (Kraken.CancelOrder txid) = Some Kraken.CancelResult ->
  cancel_order exchange txid w = (Some tt, log_call (Kraken.CancelOrder txid) w).
Proof.
  intros H. unfold cancel_order, bind, kraken_call. now rewrite H.
Qed.

Lemma cancel_child_accepted order_id order_data txid w :
  head (orders_by_id order_id w) = Some order_data ->
  nonempty_id (Order.kraken_order_id order_data) = Some txid ->
  exchange (kraken_calls w) (Kraken.CancelOrder txid) = Some Kraken.CancelResult ->
  cancel_child exchange (Some order_id) w
  = (Some tt, log_call (Kraken.CancelOrder txid) w).
Proof.
  intros Hrow Htx Hok. unfold cancel_child, bind, get, partial.
  rewrite Hrow. cbn. rewrite Htx. now apply cancel_order_accepted.
Qed.

(** C5.  [close_position] cancels the stop-loss and the take-profit order at
    the exchange before it attempts the closing market order; when that
    order is refused it returns [False], the position row is untouched (its
    [is_open] flag stays true) and the two cancellations stay in the history
    of the exchange: nothing restores the protective orders. *)
Theorem close_position_failure_leaves_unprotected
    (position_id : uuid) (w : World) (position position_data : Position.t)
    (entry_order stop_order target_order : Order.t) (stop_id target_id : uuid)
    (stop_txid target_txid : string) (pair_data : CryptoPair.t) :
  head (open_positions_by_id position_id w) = Some position ->
  head (positions_by_id position_id w) = Some position_data ->
  head (orders_by_id (Position.entry_order_id position_data) w)
  = Some entry_order ->
  Order.stop_loss_order_id entry_order = Some stop_id ->
  Order.take_profit_order_id entry_order = Some target_id ->
  head (orders_by_id stop_id w) = Some stop_order ->
  head (orders_by_id target_id w) = Some target_order ->
  nonempty_id (Order.kraken_order_id stop_order) = Some stop_txid ->
  nonempty_id (Order.kraken_order_id target_order) = Some target_txid ->
  head (pairs_by_id (Position.pair_id position) w) = Some pair_data ->
  let cancel_stop := Kraken.CancelOrder stop_txid in
  let cancel_target := Kraken.CancelOrder target_txid in
  let market_order :=
    Kraken.AddOrder (CryptoPair.symbol pair_data)
      (closing_side (Position.side position)) "market"
      (Position.remaining_amount position) None in
  exchange (kraken_calls w) cancel_stop = Some Kraken.CancelResult ->
  exchange (kraken_calls w ++ [cancel_stop]) cancel_target
  = Some Kraken.CancelResult ->
  exchange (kraken_calls w ++ [cancel_stop; cancel_target]) market_order
  = None ->
  let w' := world_after (close_position exchange position_id) w in
  result_of (close_position exchange position_id) w = Some false /\
  positions w' = positions w /\
  orders w' = orders w /\
  head (open_positions_by_id position_id w') = Some position /\
  Position.is_open position = true /\
  kraken_calls w'
  = kraken_calls w ++ [cancel_stop; cancel_target; market_order].
Proof.
  intros Hopen Hrow Hentry Hstop Htarget Hsrow Htrow Hstx Httx Hpair
    cancel_stop cancel_target market_order Hc1 Hc2 Hfail w'.
  assert (His_open : Position.is_open position = true).
  { unfold open_positions_by_id in Hopen.
    apply head_Some_elem_of, list_elem_of_filter in Hopen as [Ho _].
    now apply Is_true_true. }
  assert (Hcancel :
    _cancel_position_orders exchange position_id w
    = (Some tt, log_call cancel_target (log_call cancel_stop w))).
  { unfold _cancel_position_orders, try_except, bind, get, partial.
    rewrite Hrow. cbn. rewrite Hentry. cbn. rewrite Hstop, Htarget.
    rewrite (cancel_child_accepted stop_id stop_order stop_txid w Hsrow Hstx Hc1).
    cbv beta iota. fold cancel_stop.
    now rewrite (cancel_child_accepted target_id target_order target_txid
                   (log_call cancel_stop w) Htrow Httx Hc2). }
  assert (Hplace :
    _place_order exchange (Position.pair_id position)
      (Position.signal_id position) "market"
      (closing_side (Position.side position))
      (Position.remaining_amount position) None
      (log_call cancel_target (log_call cancel_stop w))
    = (Some None,
       log_call market_order (log_call cancel_target (log_call cancel_stop w)))).
  { pose proof (_place_order_cases (Position.pair_id position)
                  (Position.signal_id position) "market"
                  (closing_side (Position.side position))
                  (Position.remaining_amount position) None
                  (log_call cancel_target (log_call cancel_stop w))) as Hcases.
    change (pairs_by_id (Position.pair_id position)
              (log_call cancel_target (log_call cancel_stop w)))
      with (pairs_by_id (Position.pair_id position) w) in Hcases.
    rewrite Hpair in Hcases.
    change (kraken_calls (log_call cancel_target (log_call cancel_stop w)))
      with ((kraken_calls w ++ [cancel_stop]) ++ [cancel_target]) in Hcases.
    rewrite <- app_assoc in Hcases.
    change (place_request (CryptoPair.symbol pair_data) "market"
              (closing_side (Position.side position))
              (Position.remaining_amount position) None)
      with market_order in Hcases.
    cbv zeta in Hcases.
    change ([cancel_stop] ++ [cancel_target])
      with [cancel_stop; cancel_target] in Hcases.
    now rewrite Hfail in Hcases. }
  assert (Hrun :
    close_position exchange position_id w
    = (Some false,
       log_call market_order (log_call cancel_target (log_call cancel_stop w)))).
  { unfold close_position, try_except, bind, get.
    destruct (open_positions_by_id position_id w) as [|p others];
      [discriminate Hopen|].
    cbn in Hopen. injection Hopen as ->.
    rewrite Hcancel. cbv beta iota. rewrite Hplace. reflexivity. }
  subst w'. unfold result_of, world_after. rewrite Hrun.
  unfold open_positions_by_id, positions_by_id in *. cbn.
  repeat split; try assumption.
  now rewrite <- !app_assoc.
Qed.

(** *** The fill of an entry order *)

Lemma _handle_entry_fill_outcome (entry_order : Order.t) (filled avg : Q)
    (w : World) (info : BracketInfo) :
  active_bracket_orders w !! Order.id entry_order = Some info ->
  exists w',
    _handle_entry_fill exchange entry_order filled (Some avg) w
    = (Some tt, w') /\
    active_bracket_orders w'
    = delete (Order.id entry_order) (active_bracket_orders w) /\
    ((exists stop_order target_order,
         orders w'
         = update_where
             (fun o => Nat.eqb (Order.id o) (Order.id entry_order))
             (OrderRow.set_children (Order.id stop_order)
                (Order.id target_order))
             (orders w ++ [stop_order; target_order]) /\
         children_of_fill info filled stop_order target_order) \/
     (exists placed,
         (length placed <= 1)%nat /\ orders w' = orders w ++ placed)).
Proof.
  intros Hinfo.
  unfold _handle_entry_fill, try_except, bind, get, partial, now, modify, ret.
  rewrite Hinfo. cbv beta iota.
  set (w1 := set_positions _ w).
  destruct (_place_order_outcome (Order.pair_id entry_order)
              (Some (b_signal_id info)) "stop-loss"
              (opposite_of_entry (b_side info)) filled
              (Some (b_stop_loss_price info)) w1)
    as (r1 & w2 & E1 & _ & Ha1 & _ & _ & _ & _ & Ho1).
  rewrite E1. cbv beta iota.
  destruct (_place_order_outcome (Order.pair_id entry_order)
              (Some (b_signal_id info)) "limit"
              (opposite_of_entry (b_side info)) filled
              (Some (b_take_profit_price info)) w2)
    as (r2 & w3 & E2 & _ & Ha2 & _ & _ & _ & _ & Ho2).
  rewrite E2. cbv beta iota.
  assert (Hact : active_bracket_orders w3 = active_bracket_orders w).
  { rewrite Ha2, Ha1. reflexivity. }
  destruct r1 as [stop_order|]; destruct r2 as [target_order|];
    eexists; (split; [reflexivity|]); cbn; rewrite Hact;
    (split; [reflexivity|]).
  - left. exists stop_order, target_order.
    destruct Ho1 as (Ho1 & Hn1 & txid1 & ->).
    destruct Ho2 as (Ho2 & _ & txid2 & ->).
    split.
    + rewrite Ho2, Ho1. now rewrite <- app_assoc.
    + unfold children_of_fill, placed_order; cbn.
      repeat (split; [reflexivity|]). rewrite Hn1. subst w1. cbn. lia.
  - right. exists [stop_order]. split; [simpl; lia|].
    destruct Ho1 as (Ho1 & _). destruct Ho2 as (Ho2 & _).
    rewrite Ho2, Ho1. reflexivity.
  - right. exists [target_order]. split; [simpl; lia|].
    destruct Ho1 as (Ho1 & _). destruct Ho2 as (Ho2 & _).
    rewrite Ho2, Ho1. reflexivity.
  - right. exists []. split; [simpl; lia|].
    destruct Ho1 as (Ho1 & _). destruct Ho2 as (Ho2 & _).
    rewrite Ho2, Ho1. now rewrite app_nil_r.
Qed.

Lemma head_filter_update_where {A} (key : A -> nat) (k : nat) (f : A -> A)
    (l : list A) (row : A) :
  (forall x, key (f x) = key x) ->
  head (filter (fun x => key x = k) l) = Some row ->
  head (filter (fun x => key x = k)
          (update_where (fun x => Nat.eqb (key x) k) f l)) = Some (f row).
Proof.
  intros Hkey. unfold update_where.
  induction l as [|x l IH]; simpl; [discriminate|].
  rewrite !filter_cons.
  destruct (Nat.eqb (key x) k) eqn:E.
  - apply Nat.eqb_eq in E.
    rewrite !decide_True by (rewrite ?Hkey; exact E).
    simpl. now intros [= ->].
  - apply Nat.eqb_neq in E.
    rewrite !decide_False by exact E. exact IH.
Qed.

Lemma head_filter_app {A} (P : A -> Prop) `{forall x, Decision (P x)}
    (l l' : list A) (row : A) :
  head (filter P l) = Some row -> head (filter P (l ++ l')) = Some row.
Proof.
  intros Hrow. rewrite filter_app.
  destruct (filter P l); [discriminate | exact Hrow].
Qed.

(** [_place_order] by the answer of the exchange, for a pair that exists. *)
Lemma _place_order_run pair_id signal_id order_type side amount price w
    pair_data :
  head (pairs_by_id pair_id w) = Some pair_data ->
  let r := place_request (CryptoPair.symbol pair_data) order_type side amount
             price in
  _place_order exchange pair_id signal_id order_type side amount price w
  = match accepted (exchange (kraken_calls w) r) with
    | Some txid =>
        let o := placed_order w txid pair_id signal_id order_type side amount
                   price in
        (Some (Some o), world_with_order r o w)
    | None => (Some None, log_call r w)
    end.
Proof.
  intros Hpair r.
  pose proof (_place_order_cases pair_id signal_id order_type side amount
                price w) as Hcases.
  rewrite Hpair in Hcases. cbv zeta in Hcases. fold r in Hcases.
  destruct (exchange (kraken_calls w) r) as [[txid| | |]|]; exact Hcases.
Qed.

(** The world that [_handle_entry_fill] reaches, by the answers of the
    exchange to the two placements. *)
Lemma _handle_entry_fill_run (entry_order : Order.t) (filled avg : Q)
    (w : World) (info : BracketInfo) (pair_data : CryptoPair.t) :
  active_bracket_orders w !! Order.id entry_order = Some info ->
  head (pairs_by_id (Order.pair_id entry_order) w) = Some pair_data ->
  let side := opposite_of_entry (b_side info) in
  let stop_request :=
    place_request (CryptoPair.symbol pair_data) "stop-loss" side filled
      (Some (b_stop_loss_price info)) in
  let target_request :=
    place_request (CryptoPair.symbol pair_data) "limit" side filled
      (Some (b_take_profit_price info)) in
  let w1 :=
    set_positions
      (update_where (fun p => Nat.eqb (Position.id p) (b_position_id info))
         (PositionRow.set_fill avg filled (clock w))) w in
  let stop_of w0 txid :=
    placed_order w0 txid (Order.pair_id entry_order) (Some (b_signal_id info))
      "stop-loss" side filled (Some (b_stop_loss_price info)) in
  let target_of w0 txid :=
    placed_order w0 txid (Order.pair_id entry_order) (Some (b_signal_id info))
      "limit" side filled (Some (b_take_profit_price info)) in
  _handle_entry_fill exchange entry_order filled (Some avg) w
  = (Some tt,
     set_active_bracket_orders (delete (Order.id entry_order))
       match accepted (exchange (kraken_calls w) stop_request),
             accepted (exchange (kraken_calls w ++ [stop_request])
                         target_request) with
       | Some stop_txid, Some target_txid =>
           let w2 := world_with_order stop_request (stop_of w1 stop_txid) w1 in
           set_orders
             (update_where
                (fun o => Nat.eqb (Order.id o) (Order.id entry_order))
                (OrderRow.set_children (Order.id (stop_of w1 stop_txid))
                   (Order.id (target_of w2 target_txid))))
             (world_with_order target_request (target_of w2 target_txid) w2)
       | Some stop_txid, None =>
           log_call target_request
             (world_with_order stop_request (stop_of w1 stop_txid) w1)
       | None, Some target_txid =>
           world_with_order target_request
             (target_of (log_call stop_request w1) target_txid)
             (log_call stop_request w1)
       | None, None => log_call target_request (log_call stop_request w1)
       end).
Proof.
  intros Hinfo Hpair side stop_request target_request w1 stop_of target_of.
  unfold _handle_entry_fill, try_except, bind, get, partial, now, modify.
  rewrite Hinfo. cbv beta iota. unfold ret at 1 2. cbv beta iota.
  fold side. fold w1.
  assert (Hpair1 : head (pairs_by_id (Order.pair_id entry_order) w1)
                   = Some pair_data) by exact Hpair.
  rewrite (_place_order_run (Order.pair_id entry_order)
             (Some (b_signal_id info)) "stop-loss" side filled
             (Some (b_stop_loss_price info)) w1 pair_data Hpair1).
  cbv zeta. fold stop_request.
  change (kraken_calls w1) with (kraken_calls w).
  destruct (accepted (exchange (kraken_calls w) stop_request))
    as [stop_txid|]; cbv beta iota.
  - set (w2 := world_with_order stop_request _ w1).
    assert (Hpair2 : head (pairs_by_id (Order.pair_id entry_order) w2)
                     = Some pair_data) by exact Hpair.
    rewrite (_place_order_run (Order.pair_id entry_order)
               (Some (b_signal_id info)) "limit" side filled
               (Some (b_take_profit_price info)) w2 pair_data Hpair2).
    cbv zeta. fold target_request.
    change (kraken_calls w2) with (kraken_calls w ++ [stop_request]).
    destruct (accepted (exchange (kraken_calls w ++ [stop_request])
                          target_request)) as [target_txid|]; reflexivity.
  - set (w2 := log_call stop_request w1).
    assert (Hpair2 : head (pairs_by_id (Order.pair_id entry_order) w2)
                     = Some pair_data) by exact Hpair.
    rewrite (_place_order_run (Order.pair_id entry_order)
               (Some (b_signal_id info)) "limit" side filled
               (Some (b_take_profit_price info)) w2 pair_data Hpair2).
    cbv zeta. fold target_request.
    change (kraken_calls w2) with (kraken_calls w ++ [stop_request]).
    destruct (accepted (exchange (kraken_calls w ++ [stop_request])
                          target_request)) as [target_txid|]; reflexivity.
Qed.

(** C1, amended.  When the exchange reports a tracked entry order of an
    existing pair closed, with a fill price, [_update_order_status] returns
    an update, marks the position with the fill, and asks the exchange for
    the two protective orders, the stop-loss first and the take-profit
    second, both sized to the filled amount, whatever the first answer; it
    then removes the correlation entry in every case, so that nothing flags
    the position for a retry.  When the exchange accepts both placements,
    exactly these two orders are created, they carry the transaction ids of
    the exchange, and both ids are recorded on the entry order, which is
    then protected.  When it refuses one of them, only the accepted order
    (if any) is created and the row of the entry order records no id: it is
    the row of before, marked closed. *)
Theorem entry_fill_outcome (order : Order.t) (kraken_order : Kraken.OrderInfo)
    (w : World) (info : BracketInfo) (avg : Q) (pair_data : CryptoPair.t) :
  head (orders_by_id (Order.id order) w) = Some order ->
  active_bracket_orders w !! Order.id order = Some info ->
  Kraken.status kraken_order = Some "closed" ->
  Kraken.price kraken_order = Some avg ->
  head (pairs_by_id (Order.pair_id order) w) = Some pair_data ->
  let filled := default 0 (Kraken.vol_exec kraken_order) in
  let w' := world_after (_update_order_status exchange order kraken_order) w in
  let closed_row :=
    OrderRow.set_status "closed" filled (Some avg)
      (default 0 (Kraken.fee kraken_order)) (clock w) (Some (clock w)) in
  let reconciled :=
    update_where (fun o => Nat.eqb (Order.id o) (Order.id order)) closed_row
      (orders w) in
  let side := opposite_of_entry (b_side info) in
  let stop_request :=
    place_request (CryptoPair.symbol pair_data) "stop-loss" side filled
      (Some (b_stop_loss_price info)) in
  let target_request :=
    place_request (CryptoPair.symbol pair_data) "limit" side filled
      (Some (b_take_profit_price info)) in
  is_Some (result_of (_update_order_status exchange order kraken_order) w) /\
  kraken_calls w' = kraken_calls w ++ [stop_request; target_request] /\
  positions w'
  = update_where (fun p => Nat.eqb (Position.id p) (b_position_id info))
      (PositionRow.set_fill avg filled (clock w)) (positions w) /\
  active_bracket_orders w'
  = delete (Order.id order) (active_bracket_orders w) /\
  ~ flagged_for_retry w' (Order.id order) /\
  match accepted (exchange (kraken_calls w) stop_request),
        accepted (exchange (kraken_calls w ++ [stop_request]) target_request)
  with
  | Some stop_txid, Some target_txid =>
      exists stop_order target_order,
        orders w'
        = update_where (fun o => Nat.eqb (Order.id o) (Order.id order))
            (OrderRow.set_children (Order.id stop_order)
               (Order.id target_order))
            (reconciled ++ [stop_order; target_order]) /\
        children_of_fill info filled stop_order target_order /\
        Order.kraken_order_id stop_order = head stop_txid /\
        Order.kraken_order_id target_order = head target_txid /\
        protected_by w' (Order.id order)
  | Some stop_txid, None =>
      exists stop_order,
        orders w' = reconciled ++ [stop_order] /\
        Order.order_type stop_order = "stop-loss" /\
        Order.kraken_order_id stop_order = head stop_txid /\
        head (orders_by_id (Order.id order) w') = Some (closed_row order)
  | None, Some target_txid =>
      exists target_order,
        orders w' = reconciled ++ [target_order] /\
        Order.order_type target_order = "limit" /\
        Order.kraken_order_id target_order = head target_txid /\
        head (orders_by_id (Order.id order) w') = Some (closed_row order)
  | None, None =>
      orders w' = reconciled /\
      head (orders_by_id (Order.id order) w') = Some (closed_row order)
  end.
Proof.
  intros Hrow Hinfo Hstatus Hprice Hpair filled w' closed_row reconciled side
    stop_request target_request.
  assert (Hclosed : head (filter (fun o => Order.id o = Order.id order)
                            reconciled) = Some (closed_row order)).
  { apply (head_filter_update_where Order.id); [reflexivity | exact Hrow]. }
  assert (Hrun :
            exists update,
              _update_order_status exchange order kraken_order w
              = (Some (Some update),
                 (_handle_entry_fill exchange order filled (Some avg)
                    (set_orders
                       (update_where
                          (fun o => Nat.eqb (Order.id o) (Order.id order))
                          closed_row) w)).2)).
  { unfold _update_order_status, try_except, bind, get, now, modify, ret.
    rewrite Hstatus, Hprice.
    change (String.eqb (default "open" (Some "closed")) "closed") with true.
    cbv beta iota. fold filled. fold closed_row.
    set (w0 := set_orders _ w).
    assert (Hinfo0 : active_bracket_orders w0 !! Order.id order = Some info)
      by exact Hinfo.
    rewrite Hinfo0, bool_decide_eq_true_2 by eauto. cbn [andb].
    rewrite (_handle_entry_fill_run order filled avg w0 info pair_data Hinfo0
               Hpair).
    cbv beta iota zeta. eexists. reflexivity. }
  destruct Hrun as (update & Hrun).
  subst w'. unfold result_of, world_after. rewrite Hrun. cbn [fst snd].
  set (w0 := set_orders _ w).
  assert (Hinfo0 : active_bracket_orders w0 !! Order.id order = Some info)
    by exact Hinfo.
  rewrite (_handle_entry_fill_run order filled avg w0 info pair_data Hinfo0
             Hpair).
  cbv zeta. cbn [snd]. fold side. fold stop_request. fold target_request.
  change (kraken_calls w0) with (kraken_calls w).
  split; [eauto|].
  destruct (accepted (exchange (kraken_calls w) stop_request))
    as [stop_txid|];
    destruct (accepted (exchange (kraken_calls w ++ [stop_request])
                          target_request)) as [target_txid|];
    (split; [cbn; now rewrite <- app_assoc|]);
    (split; [reflexivity|]);
    (split; [reflexivity|]);
    (split;
     [unfold flagged_for_retry; cbn; rewrite lookup_delete_eq;
      intros [x Hx]; discriminate Hx|]).
  - exists (placed_order w stop_txid (Order.pair_id order)
              (Some (b_signal_id info)) "stop-loss" side filled
              (Some (b_stop_loss_price info))),
      (placed_order (set_next_uuid (S (next_uuid w)) w) target_txid
         (Order.pair_id order) (Some (b_signal_id info)) "limit" side filled
         (Some (b_take_profit_price info))).
    split.
    { cbn [orders set_orders set_active_bracket_orders world_with_order
        set_next_uuid log_call set_positions]. rewrite <- app_assoc.
      reflexivity. }
    split.
    { unfold children_of_fill, placed_order. cbn.
      repeat (split; [reflexivity|]). lia. }
    split; [reflexivity|]. split; [reflexivity|].
    unfold protected_by, orders_by_id. cbn [orders set_orders
      set_active_bracket_orders world_with_order set_next_uuid log_call].
    eexists. eexists. eexists. split.
    + apply (head_filter_update_where Order.id); [reflexivity|].
      rewrite <- app_assoc. apply head_filter_app. exact Hclosed.
    + split; reflexivity.
  - eexists. split; [reflexivity|]. split; [reflexivity|].
    split; [reflexivity|].
    unfold orders_by_id. cbn [orders set_orders set_active_bracket_orders
      world_with_order set_next_uuid log_call].
    apply head_filter_app. exact Hclosed.
  - eexists. split; [reflexivity|]. split; [reflexivity|].
    split; [reflexivity|].
    unfold orders_by_id. cbn [orders set_orders set_active_bracket_orders
      world_with_order set_next_uuid log_call].
    apply head_filter_app. exact Hclosed.
  - split; [reflexivity|]. exact Hclosed.
Qed.

(** C1, as stated, fails: the sample entry order is tracked and reported
    closed, the exchange refuses the protective orders, and the order ends
    up neither protected nor flagged for a retry. *)
Lemma unprotected_fill_is_dropped :
  ~ (forall exchange w order kraken_order,
        fill_dichotomy exchange w order kraken_order).
Proof.
  intros Hclaim.
  specialize (Hclaim exchange_rejecting_orders entered_world
                sample_entry_order sample_fill).
  unfold fill_dichotomy in Hclaim.
  destruct Hclaim as [Hprotected | Hflagged].
  - vm_compute. reflexivity.
  - unfold flagged_for_retry. vm_compute. eauto.
  - reflexivity.
  - destruct Hprotected as (entry & stop_id & target_id & Hentry & Hstop & _).
    vm_compute in Hentry. injection Hentry as <-. discriminate Hstop.
  - unfold flagged_for_retry in Hflagged. vm_compute in Hflagged.
    destruct Hflagged as [x Hx]. discriminate Hx.
Qed.

End OrderManagement.

(** A notional of 0.05 USD at an entry price of 100 rounds to 0.0005 units,
    below the minimum of 0.001; and a notional of 100 USD with the exchange
    unreachable fails at the placement. *)
Lemma create_bracket_order_atomic_witness :
  (exists amount,
      bracket_amount sample_signal 0.05 sample_pair = Some amount /\
      amount < CryptoPair.min_order_size sample_pair /\
      result_of (create_bracket_order exchange_up sample_signal 0.05) empty_world
      = Some None /\
      same_ledger empty_world
        (world_after (create_bracket_order exchange_up sample_signal 0.05)
           empty_world)) /\
  (result_of (create_bracket_order exchange_down sample_signal 100) empty_world
   = Some None /\
   same_ledger empty_world
     (world_after (create_bracket_order exchange_down sample_signal 100)
        empty_world)).
Proof.
  split.
  - eexists. split; [vm_compute; reflexivity|].
    split; [vm_compute; reflexivity|].
    eapply (create_bracket_order_atomic exchange_up sample_signal 0.05
              empty_world sample_pair).
    + reflexivity.
    + vm_compute. reflexivity.
    + left. vm_compute. reflexivity.
  - eapply (create_bracket_order_atomic exchange_down sample_signal 100
              empty_world sample_pair).
    + reflexivity.
    + vm_compute. reflexivity.
    + right. vm_compute. reflexivity.
Defined.

(** The protected sample position, closed while the exchange refuses new
    orders: both protective orders are cancelled, the market order fails,
    and the position stays open. *)
Lemma close_position_failure_leaves_unprotected_witness :
  result_of (close_position exchange_rejecting_orders 11) protected_world
  = Some false /\
  positions (world_after (close_position exchange_rejecting_orders 11)
               protected_world)
  = positions protected_world /\
  kraken_calls (world_after (close_position exchange_rejecting_orders 11)
                  protected_world)
  = kraken_calls protected_world
    ++ [Kraken.CancelOrder "TX2"; Kraken.CancelOrder "TX3";
        Kraken.AddOrder "BTCUSD" "sell" "market" 1 None].
Proof.
  edestruct (close_position_failure_leaves_unprotected
               exchange_rejecting_orders 11%nat protected_world)
    as (Hres & Hpos & _ & _ & _ & Hcalls).
  - vm_compute. reflexivity.
  - vm_compute. reflexivity.
  - vm_compute. reflexivity.
  - vm_compute. reflexivity.
  - vm_compute. reflexivity.
  - vm_compute. reflexivity.
  - vm_compute. reflexivity.
  - vm_compute. reflexivity.
  - vm_compute. reflexivity.
  - vm_compute. reflexivity.
  - vm_compute. reflexivity.
  - vm_compute. reflexivity.
  - vm_compute. reflexivity.
  - split; [exact Hres|]. split; [exact Hpos|]. exact Hcalls.
Defined.

(** The filled sample entry, reconciled with the exchange up: both
    protective orders are requested and accepted, and the entry is
    protected.  Reconciled with an exchange that refuses new orders: both
    are requested all the same, no order is created, and the correlation
    entry is dropped. *)
Lemma entry_fill_outcome_witness :
  (kraken_calls
     (world_after
        (_update_order_status exchange_up sample_entry_order sample_fill)
        entered_world)
   = kraken_calls entered_world
     ++ [Kraken.AddOrder "BTCUSD" "sell" "limit" 1 (Some 98);
         Kraken.AddOrder "BTCUSD" "sell" "limit" 1 (Some 104)] /\
   protected_by
     (world_after
        (_update_order_status exchange_up sample_entry_order sample_fill)
        entered_world) 10 /\
   ~ flagged_for_retry
       (world_after
          (_update_order_status exchange_up sample_entry_order sample_fill)
          entered_world) 10) /\
  (kraken_calls
     (world_after
        (_update_order_status exchange_rejecting_orders sample_entry_order
           sample_fill)
        entered_world)
   = kraken_calls entered_world
     ++ [Kraken.AddOrder "BTCUSD" "sell" "limit" 1 (Some 98);
         Kraken.AddOrder "BTCUSD" "sell" "limit" 1 (Some 104)] /\
   orders
     (world_after
        (_update_order_status exchange_rejecting_orders sample_entry_order
           sample_fill)
        entered_world)
   = update_where (fun o => Nat.eqb (Order.id o) 10)
       (OrderRow.set_status "closed" 1 (Some 100.5) 0.1 1000 (Some 1000%Z))
       (orders entered_world) /\
   ~ flagged_for_retry
       (world_after
          (_update_order_status exchange_rejecting_orders sample_entry_order
             sample_fill)
          entered_world) 10).
Proof.
  split.
  - edestruct (entry_fill_outcome exchange_up sample_entry_order sample_fill
                 entered_world) as (_ & Hcalls & _ & _ & Hflag & Hfill).
    + vm_compute. reflexivity.
    + vm_compute. reflexivity.
    + reflexivity.
    + reflexivity.
    + vm_compute. reflexivity.
    + cbn [accepted exchange_up place_request] in Hfill.
      destruct Hfill as (stop_order & target_order & _ & _ & _ & _ & Hprot).
      split; [exact Hcalls|]. split; [exact Hprot | exact Hflag].
  - edestruct (entry_fill_outcome exchange_rejecting_orders sample_entry_order
                 sample_fill entered_world)
      as (_ & Hcalls & _ & _ & Hflag & Hfill).
    + vm_compute. reflexivity.
    + vm_compute. reflexivity.
    + reflexivity.
    + reflexivity.
    + vm_compute. reflexivity.
    + cbn [accepted exchange_rejecting_orders place_request] in Hfill.
      destruct Hfill as (Horders & _).
      split; [exact Hcalls|]. split; [exact Horders | exact Hflag].
Defined.

(** ** The risk gate *)

Lemma py_div_nonzero (a b : Q) : ~ b == 0 -> py_div a b = Some (a / b).
Proof.
  intros Hb. unfold py_div.
  destruct (Qeq_bool b 0) eqn:E; [|reflexivity].
  exfalso. apply Hb. now apply Qeq_bool_eq.
Qed.

Lemma py_div_zero (a b : Q) : b == 0 -> py_div a b = None.
Proof.
  intros Hb. unfold py_div.
  apply Qeq_bool_iff in Hb. now rewrite Hb.
Qed.

Lemma any_high_app (a b : list Alert) :
  any_high (a ++ b) = any_high a || any_high b.
Proof. unfold any_high. apply existsb_app. Qed.

(** The loop over the positions adds MEDIUM alerts only, and does not raise
    when the balance is not zero. *)
Lemma position_alerts_loop_medium (portfolio_data : Portfolio.t)
    (open_positions : list Position.t) (alerts : list Alert) :
  ~ Portfolio.total_balance_usd portfolio_data == 0 ->
  exists extra,
    position_alerts_loop portfolio_data open_positions alerts
    = Some (alerts ++ extra) /\
    any_high extra = false.
Proof.
  intros Hbalance. revert alerts.
  induction open_positions as [|position rest IH]; intros alerts; simpl.
  - exists []. now rewrite app_nil_r.
  - destruct (Position.current_price position) as [current_price|];
      [|apply IH].
    destruct (negb (Qeq_bool current_price 0)); [|apply IH].
    rewrite (py_div_nonzero _ _ Hbalance). simpl.
    destruct (Qgtb _ _); [|apply IH].
    destruct (IH (alerts ++ [mkAlert "POSITION_SIZE_LIMIT" "MEDIUM"
                               (Some (Position.id position))]))
      as (extra & Hloop & Hextra).
    eexists. rewrite Hloop, <- app_assoc. split; [reflexivity|].
    rewrite any_high_app, Hextra. reflexivity.
Qed.

Lemma status_of_high (alerts : list Alert) :
  status_of alerts = "HIGH" <-> any_high alerts = true.
Proof.
  unfold status_of. destruct (any_high alerts).
  - tauto.
  - destruct alerts; split; discriminate.
Qed.

Lemma status_of_medium (alerts : list Alert) :
  status_of alerts = "MEDIUM" <-> any_high alerts = false /\ alerts <> [].
Proof.
  unfold status_of. destruct (any_high alerts).
  - split; [discriminate | intros [H _]; discriminate H].
  - destruct alerts; split.
    + discriminate.
    + intros [_ H]. now contradiction H.
    + intros _. split; [reflexivity | discriminate].
    + reflexivity.
Qed.

Lemma status_of_low (alerts : list Alert) :
  status_of alerts = "LOW" <-> alerts = [].
Proof.
  unfold status_of. destruct alerts as [|a alerts].
  - simpl. tauto.
  - destruct (any_high (a :: alerts)); split; discriminate.
Qed.

(** The risk check reads the database and leaves the world as it is. *)
Lemma check_risk_limits_body_pure (w : World) :
  (check_risk_limits_body w).2 = w.
Proof.
  unfold check_risk_limits_body, bind, get, partial, ret, raise.
  destruct (head (portfolio_by_id w)) as [portfolio_data|]; [|reflexivity].
  cbv beta iota.
  destruct (position_alerts_loop _ _ _); [|reflexivity].
  cbv beta iota.
  destruct (py_div _ _); reflexivity.
Qed.

Lemma check_risk_limits_pure (w : World) : (check_risk_limits w).2 = w.
Proof.
  unfold check_risk_limits, try_except.
  pose proof (check_risk_limits_body_pure w) as Hpure.
  destruct (check_risk_limits_body w) as [[report|] w']; simpl in *;
    now subst.
Qed.

Lemma check_risk_limits_total (w : World) :
  exists report, check_risk_limits w = (Some report, w).
Proof.
  pose proof (check_risk_limits_pure w) as Hpure.
  unfold check_risk_limits, try_except in *.
  destruct (check_risk_limits_body w) as [[report|] w']; simpl in *; subst;
    eauto.
Qed.

Lemma check_risk_limits_completes (w : World) (portfolio_data : Portfolio.t) :
  head (portfolio_by_id w) = Some portfolio_data ->
  ~ Portfolio.total_balance_usd portfolio_data == 0 ->
  exists report,
    check_risk_limits w = (Some report, w) /\
    risk_status report = status_of (alerts report) /\
    (any_high (alerts report) = true <->
     daily_loss_breach portfolio_data \/ exposure_breach portfolio_data).
Proof.
  intros Hrow Hbalance.
  unfold check_risk_limits, try_except, check_risk_limits_body, bind, get,
    partial, ret.
  rewrite Hrow. cbv beta iota.
  match goal with
  | |- context [position_alerts_loop ?pd ?l ?a] =>
      destruct (position_alerts_loop_medium pd l a Hbalance)
        as (extra & Hloop & Hextra);
      rewrite Hloop
  end.
  cbv beta iota.
  rewrite (py_div_nonzero _ _ Hbalance). cbv beta iota.
  eexists. split; [reflexivity|]. split; [reflexivity|].
  cbn [alerts]. unfold daily_loss_breach, exposure_breach.
  destruct (Qltb (Portfolio.daily_pnl portfolio_data) _) eqn:Hdaily;
    destruct (Qgtb _ 50) eqn:Hexposure;
    rewrite ?any_high_app, ?Hextra; cbn;
    try apply Qltb_lt in Hdaily; try apply Qltb_ge in Hdaily;
    try apply Qgtb_gt in Hexposure; try apply Qgtb_le in Hexposure.
  - tauto.
  - tauto.
  - tauto.
  - split; [discriminate|].
    intros [H | H]; exfalso; revert H; apply Qle_not_lt; assumption.
Qed.

Lemma execute_trading_signals_high (exchange : Kraken.Exchange)
    (signals : list TradingSignal.t) (w : World) :
  risk_status <$> result_of check_risk_limits w = Some "HIGH" ->
  execute_trading_signals exchange signals w = (Some [], w).
Proof.
  intros Hhigh.
  destruct (check_risk_limits_total w) as (report & Hcheck).
  unfold result_of in Hhigh. rewrite Hcheck in Hhigh. simpl in Hhigh.
  injection Hhigh as Hhigh.
  unfold execute_trading_signals, try_except, bind, get, partial, ret, raise.
  destruct (head (sort_desc _ (portfolio w))) as [portfolio_data|];
    [|reflexivity].
  cbv beta iota.
  destruct (Portfolio.is_trading_enabled portfolio_data); [|reflexivity].
  cbn [negb]. cbv beta iota.
  rewrite Hcheck. cbv beta iota. rewrite Hhigh. reflexivity.
Qed.

(** C3, as stated, fails: with a total balance of zero and a daily loss on
    record, the loss exceeds the limit, yet the check answers UNKNOWN. *)
Lemma daily_loss_with_zero_balance_not_high :
  ~ (forall w portfolio_data, daily_loss_is_high w portfolio_data).
Proof.
  intros Hclaim.
  specialize (Hclaim crypto_only_world crypto_only_portfolio).
  unfold daily_loss_is_high in Hclaim.
  assert (Hrow : head (portfolio_by_id crypto_only_world)
                 = Some crypto_only_portfolio) by reflexivity.
  assert (Hbreach : daily_loss_breach crypto_only_portfolio)
    by (vm_compute; reflexivity).
  specialize (Hclaim Hrow Hbreach).
  vm_compute in Hclaim. discriminate Hclaim.
Qed.

(** C3, amended.  When the risk check completes (its portfolio row exists
    and the total balance is not zero) it answers HIGH exactly when the
    daily loss exceeds [max_daily_loss_pct] of the balance or the exposure
    exceeds 50% of it, that is when a HIGH alert exists; else MEDIUM when an
    alert exists; else LOW.  And whenever the answer is HIGH,
    [execute_trading_signals] returns no position and changes nothing. *)
Theorem risk_gate (w : World) :
  (forall portfolio_data,
      head (portfolio_by_id w) = Some portfolio_data ->
      ~ Portfolio.total_balance_usd portfolio_data == 0 ->
      exists report,
        result_of check_risk_limits w = Some report /\
        (risk_status report = "HIGH" <->
         daily_loss_breach portfolio_data \/ exposure_breach portfolio_data) /\
        (risk_status report = "HIGH" <-> any_high (alerts report) = true) /\
        (risk_status report = "MEDIUM" <->
         any_high (alerts report) = false /\ alerts report <> []) /\
        (risk_status report = "LOW" <-> alerts report = [])) /\
  (forall exchange signals,
      risk_status <$> result_of check_risk_limits w = Some "HIGH" ->
      result_of (execute_trading_signals exchange signals) w = Some [] /\
      world_after (execute_trading_signals exchange signals) w = w).
Proof.
  split.
  - intros portfolio_data Hrow Hbalance.
    destruct (check_risk_limits_completes w portfolio_data Hrow Hbalance)
      as (report & Hcheck & Hstatus & Hhigh).
    exists report. unfold result_of. rewrite Hcheck, Hstatus.
    split; [reflexivity|].
    split; [rewrite status_of_high; exact Hhigh|].
    split; [apply status_of_high|].
    split; [apply status_of_medium | apply status_of_low].
  - intros exchange signals Hhigh.
    unfold result_of, world_after.
    now rewrite (execute_trading_signals_high exchange signals w Hhigh).
Qed.

(** A balance of 1000 with a daily loss of 50: the check answers HIGH and the
    sample signal is not executed. *)
Lemma risk_gate_witness :
  head (portfolio_by_id losing_world) = Some losing_portfolio /\
  ~ Portfolio.total_balance_usd losing_portfolio == 0 /\
  risk_status <$> result_of check_risk_limits losing_world = Some "HIGH" /\
  result_of (execute_trading_signals exchange_up [sample_signal]) losing_world
  = Some [].
Proof.
  assert (Hrow : head (portfolio_by_id losing_world) = Some losing_portfolio)
    by reflexivity.
  assert (Hbalance : ~ Portfolio.total_balance_usd losing_portfolio == 0)
    by (vm_compute; discriminate).
  destruct (risk_gate losing_world) as [Hstatus Hgate].
  destruct (Hstatus losing_portfolio Hrow Hbalance)
    as (report & Hreport & Hhigh & _).
  assert (Hanswer : risk_status <$> result_of check_risk_limits losing_world
                    = Some "HIGH").
  { rewrite Hreport. simpl. f_equal. apply Hhigh. left.
    vm_compute. reflexivity. }
  split; [exact Hrow|]. split; [exact Hbalance|]. split; [exact Hanswer|].
  exact (proj1 (Hgate exchange_up [sample_signal] Hanswer)).
Defined.

(** The risk check fails internally when its portfolio row is missing or
    when the total balance is zero. *)
Lemma check_risk_limits_body_raises (w : World) :
  head (portfolio_by_id w) = None \/
  (exists portfolio_data,
      head (portfolio_by_id w) = Some portfolio_data /\
      Portfolio.total_balance_usd portfolio_data == 0) ->
  result_of check_risk_limits_body w = None.
Proof.
  unfold result_of, check_risk_limits_body, bind, get, partial, ret, raise.
  intros [Hnone | (portfolio_data & Hrow & Hzero)].
  - now rewrite Hnone.
  - rewrite Hrow. cbv beta iota.
    destruct (position_alerts_loop _ _ _); [|reflexivity].
    cbv beta iota. now rewrite (py_div_zero _ _ Hzero).
Qed.

Lemma execute_trading_signals_not_high (exchange : Kraken.Exchange)
    (signals : list TradingSignal.t) (w : World)
    (portfolio_data : Portfolio.t) (report : RiskReport) :
  newest_portfolio w = Some portfolio_data ->
  Portfolio.is_trading_enabled portfolio_data = true ->
  result_of check_risk_limits w = Some report ->
  String.eqb (risk_status report) "HIGH" = false ->
  execute_trading_signals exchange signals w
  = try_except
      (execute_loop exchange portfolio_data (top_signals signals) [])
      (ret []) w.
Proof.
  intros Hrow Henabled Hreport Hstatus.
  destruct (check_risk_limits_total w) as (report' & Hcheck).
  unfold result_of in Hreport. rewrite Hcheck in Hreport.
  injection Hreport as ->.
  unfold newest_portfolio in Hrow.
  unfold execute_trading_signals, try_except, bind, get, partial, ret.
  rewrite Hrow. cbv beta iota. rewrite Henabled. cbn [negb]. cbv beta iota.
  rewrite Hcheck. cbv beta iota. rewrite Hstatus. reflexivity.
Qed.

(** C10.  When the risk check fails internally it returns no alert and the
    status UNKNOWN instead of raising; [execute_trading_signals] then goes
    through the signals exactly as it does under LOW, and positions are
    opened: the sample signal is executed in a world whose total balance is
    zero. *)
Theorem unknown_risk_does_not_block :
  (forall w,
      result_of check_risk_limits_body w = None ->
      check_risk_limits w = (Some (mkReport [] "UNKNOWN"), w)) /\
  (forall exchange signals w portfolio_data report,
      newest_portfolio w = Some portfolio_data ->
      Portfolio.is_trading_enabled portfolio_data = true ->
      result_of check_risk_limits w = Some report ->
      risk_status report = "UNKNOWN" \/ risk_status report = "LOW" ->
      execute_trading_signals exchange signals w
      = try_except
          (execute_loop exchange portfolio_data (top_signals signals) [])
          (ret []) w) /\
  (risk_status <$> result_of check_risk_limits crypto_only_world
   = Some "UNKNOWN" /\
   exists position,
     result_of (execute_trading_signals exchange_up [sample_signal])
       crypto_only_world = Some [position] /\
     positions (world_after (execute_trading_signals exchange_up [sample_signal])
                  crypto_only_world) = [position]).
Proof.
  split; [|split].
  - intros w Hraise.
    pose proof (check_risk_limits_body_pure w) as Hpure.
    unfold check_risk_limits, try_except, result_of in *.
    destruct (check_risk_limits_body w) as [[report|] w']; simpl in *;
      [discriminate Hraise|].
    now subst.
  - intros exchange signals w portfolio_data report Hrow Henabled Hreport Hstatus.
    apply (execute_trading_signals_not_high exchange signals w portfolio_data
             report Hrow Henabled Hreport).
    destruct Hstatus as [-> | ->]; reflexivity.
  - split; [vm_compute; reflexivity|].
    eexists. split; vm_compute; reflexivity.
Qed.

(** The world with a zero total balance: the check answers UNKNOWN and the
    execution runs the loop over the signals. *)
Lemma unknown_risk_does_not_block_witness :
  result_of check_risk_limits_body crypto_only_world = None /\
  check_risk_limits crypto_only_world
  = (Some (mkReport [] "UNKNOWN"), crypto_only_world) /\
  execute_trading_signals exchange_up [sample_signal] crypto_only_world
  = try_except
      (execute_loop exchange_up crypto_only_portfolio
         (top_signals [sample_signal]) [])
      (ret []) crypto_only_world.
Proof.
  destruct unknown_risk_does_not_block as (Hunknown & Hloop & _).
  assert (Hraise : result_of check_risk_limits_body crypto_only_world = None)
    by (vm_compute; reflexivity).
  split; [exact Hraise|]. split.
  - exact (Hunknown crypto_only_world Hraise).
  - eapply Hloop.
    + reflexivity.
    + reflexivity.
    + vm_compute. reflexivity.
    + left. reflexivity.
Defined.

(** ** The portfolio accountant *)

Lemma head_filter_update_decide {A} (P : A -> Prop) `{forall x, Decision (P x)}
    (f : A -> A) (l : list A) :
  (forall x, P x -> P (f x)) ->
  head (filter P (update_where (fun x => bool_decide (P x)) f l))
  = f <$> head (filter P l).
Proof.
  intros Hkeep. unfold update_where.
  induction l as [|x l IH]; simpl; [reflexivity|].
  rewrite !filter_cons.
  destruct (decide (P x)) as [Hx | Hx].
  - rewrite bool_decide_eq_true_2 by exact Hx.
    rewrite decide_True by (apply Hkeep, Hx). reflexivity.
  - rewrite bool_decide_eq_false_2 by exact Hx.
    rewrite decide_False by exact Hx. exact IH.
Qed.

(** The metrics read the two balances of the portfolio row and nothing else
    of it. *)
Lemma compute_metrics_set_metrics positions portfolio_data today m t :
  compute_metrics positions (set_metrics m t portfolio_data) today
  = compute_metrics positions portfolio_data today.
Proof. reflexivity. Qed.

Lemma profit_factor_without_losses positions portfolio_data today :
  m_losing_trades (compute_metrics positions portfolio_data today) = 0%nat ->
  m_profit_factor (compute_metrics positions portfolio_data today) = 0.
Proof.
  unfold compute_metrics. cbn [m_losing_trades m_profit_factor].
  intros Hlen. apply length_zero_iff_nil in Hlen. rewrite Hlen. reflexivity.
Qed.

(** What a call of [calculate_portfolio_metrics] returns and writes. *)
Lemma calculate_portfolio_metrics_run (w : World) :
  match head (portfolio_by_id w) with
  | None => calculate_portfolio_metrics w = (Some None, w)
  | Some portfolio_data =>
      let metrics :=
        compute_metrics
          (sort_desc
             (fun p q => (Position.opened_at q <=? Position.opened_at p)%Z)
             (positions w))
          portfolio_data (date (clock w)) in
      calculate_portfolio_metrics w
      = (Some (Some metrics),
         set_portfolio
           (update_where
              (fun p => bool_decide (Some (Portfolio.id p) = portfolio_id w))
              (set_metrics metrics (clock w)))
           w)
  end.
Proof.
  unfold calculate_portfolio_metrics, try_except, bind, get, partial, now, ret,
    _update_portfolio_metrics, try_except, bind, get, now, modify.
  destruct (head (portfolio_by_id w)); reflexivity.
Qed.

(** C9.  Two calls of [calculate_portfolio_metrics] in a row, over the same
    positions and balances and on the same day, return the same metrics
    (realized and unrealized P&L, win rate, profit factor, drawdown, exposure
    and the others); the profit factor is zero when no trade lost. *)
Theorem calculate_portfolio_metrics_idempotent (w : World) (later : datetime) :
  date later = date (clock w) ->
  exists r,
    result_of calculate_portfolio_metrics w = Some r /\
    result_of calculate_portfolio_metrics
      (set_clock later (world_after calculate_portfolio_metrics w)) = Some r /\
    (forall metrics,
        r = Some metrics ->
        m_losing_trades metrics = 0%nat -> m_profit_factor metrics = 0).
Proof.
  intros Hday.
  pose proof (calculate_portfolio_metrics_run w) as Hfirst.
  destruct (head (portfolio_by_id w)) as [portfolio_data|] eqn:Hrow.
  - cbv zeta in Hfirst.
    eexists. unfold result_of, world_after. rewrite Hfirst. cbn [fst snd].
    split; [reflexivity|]. split.
    + match goal with
      | |- (calculate_portfolio_metrics ?w1).1 = _ =>
          pose proof (calculate_portfolio_metrics_run w1) as Hsecond;
          assert (Hrow1 : head (portfolio_by_id w1)
                          = set_metrics
                              (compute_metrics
                                 (sort_desc
                                    (fun p q =>
                                       (Position.opened_at q
                                        <=? Position.opened_at p)%Z)
                                    (positions w))
                                 portfolio_data (date (clock w)))
                              (clock w) <$> head (portfolio_by_id w))
      end.
      { unfold portfolio_by_id. cbn [portfolio portfolio_id set_clock
                                       set_portfolio].
        apply head_filter_update_decide. intros x Hx. exact Hx. }
      rewrite Hrow in Hrow1. cbn [fmap option_fmap option_map] in Hrow1.
      rewrite Hrow1 in Hsecond. cbv zeta in Hsecond. rewrite Hsecond.
      cbn [fst clock positions set_clock set_portfolio].
      rewrite Hday, compute_metrics_set_metrics. reflexivity.
    + intros metrics [= <-]. apply profit_factor_without_losses.
  - exists None. unfold result_of, world_after. rewrite Hfirst. cbn [fst snd].
    split; [reflexivity|]. split; [|discriminate].
    pose proof (calculate_portfolio_metrics_run (set_clock later w)) as Hsecond.
    change (portfolio_by_id (set_clock later w)) with (portfolio_by_id w)
      in Hsecond.
    rewrite Hrow in Hsecond. now rewrite Hsecond.
Qed.

(** Sample ledger: the second computation, later the same day, returns the
    metrics of the first. *)
Lemma calculate_portfolio_metrics_idempotent_witness :
  date 2000 = date (clock traded_world) /\
  exists metrics,
    result_of calculate_portfolio_metrics traded_world = Some (Some metrics) /\
    result_of calculate_portfolio_metrics
      (set_clock 2000 (world_after calculate_portfolio_metrics traded_world))
    = Some (Some metrics).
Proof.
  assert (Hday : date 2000 = date (clock traded_world)) by reflexivity.
  split; [exact Hday|].
  destruct (calculate_portfolio_metrics_idempotent traded_world 2000 Hday)
    as (r & Hfirst & Hsecond & _).
  destruct r as [metrics|].
  - exists metrics. split; [exact Hfirst | exact Hsecond].
  - vm_compute in Hfirst. discriminate Hfirst.
Defined.

(** ** Relations kept by the computations *)

Section Keeps.

Variable Ip : list Position.t -> list Position.t -> Prop.
Hypothesis Ip_refl : forall l, Ip l l.
Hypothesis Ip_trans : forall l1 l2 l3, Ip l1 l2 -> Ip l2 l3 -> Ip l1 l3.

Lemma keeps_ret {A} (a : A) : keeps Ip (ret a).
Proof. intros w. apply Ip_refl. Qed.

Lemma keeps_raise {A} : keeps Ip (@raise A).
Proof. intros w. apply Ip_refl. Qed.

Lemma keeps_get : keeps Ip get.
Proof. intros w. apply Ip_refl. Qed.

Lemma keeps_now : keeps Ip now.
Proof. intros w. apply Ip_refl. Qed.

Lemma keeps_partial {A} (o : option A) : keeps Ip (partial o).
Proof. destruct o; [apply keeps_ret | apply keeps_raise]. Qed.

Lemma keeps_fresh_uuid : keeps Ip fresh_uuid.
Proof. intros w. apply Ip_refl. Qed.

Lemma keeps_set_orders f : keeps Ip (modify (set_orders f)).
Proof. intros w. apply Ip_refl. Qed.

Lemma keeps_set_active f : keeps Ip (modify (set_active_bracket_orders f)).
Proof. intros w. apply Ip_refl. Qed.

Lemma keeps_set_portfolio f : keeps Ip (modify (set_portfolio f)).
Proof. intros w. apply Ip_refl. Qed.

Lemma keeps_set_positions f :
  (forall l, Ip l (f l)) -> keeps Ip (modify (set_positions f)).
Proof. intros Hf w. apply Hf. Qed.

Lemma keeps_bind {A B} (m : M A) (k : A -> M B) :
  keeps Ip m -> (forall a, keeps Ip (k a)) -> keeps Ip (bind m k).
Proof.
  intros Hm Hk w. unfold bind. specialize (Hm w).
  destruct (m w) as [[a|] w1]; simpl in *; [|exact Hm].
  eapply Ip_trans; [exact Hm | apply Hk].
Qed.

Lemma keeps_try {A} (body handler : M A) :
  keeps Ip body -> keeps Ip handler -> keeps Ip (try_except body handler).
Proof.
  intros Hb Hh w. unfold try_except. specialize (Hb w).
  destruct (body w) as [[a|] w1]; simpl in *; [exact Hb|].
  eapply Ip_trans; [exact Hb | apply Hh].
Qed.

Variable exchange : Kraken.Exchange.

Lemma keeps_kraken_call r : keeps Ip (kraken_call exchange r).
Proof. intros w. apply Ip_refl. Qed.

End Keeps.

Create HintDb keeps_db.
#[export] Hint Resolve keeps_ret keeps_raise keeps_get keeps_now keeps_partial
  keeps_fresh_uuid keeps_set_orders keeps_set_active keeps_set_portfolio
  keeps_kraken_call : keeps_db.

(** One step through the structure of a computation. *)
Ltac keeps_step :=
  match goal with
  | |- keeps _ (bind _ _) => apply keeps_bind; [assumption | | intros ?]
  | |- keeps _ (try_except _ _) => apply keeps_try; [assumption | | ]
  | |- keeps _ (match ?x with _ => _ end) => destruct x
  | |- keeps _ (if ?b then _ else _) => destruct b
  | |- keeps _ _ => solve [eauto with keeps_db]
  end.

Section Frames.

Variable Ip : list Position.t -> list Position.t -> Prop.
Hypothesis Ip_refl : forall l, Ip l l.
Hypothesis Ip_trans : forall l1 l2 l3, Ip l1 l2 -> Ip l2 l3 -> Ip l1 l3.

Variable exchange : Kraken.Exchange.

Lemma keeps_add_order pair type_ ordertype volume price :
  keeps Ip (add_order exchange pair type_ ordertype volume price).
Proof. unfold add_order. repeat keeps_step. Qed.

Lemma keeps_cancel_order txid : keeps Ip (cancel_order exchange txid).
Proof. unfold cancel_order. repeat keeps_step. Qed.

Lemma keeps_query_orders ids : keeps Ip (query_orders exchange ids).
Proof. unfold query_orders. repeat keeps_step. Qed.

Lemma keeps_get_ticker pairs : keeps Ip (get_ticker exchange pairs).
Proof. unfold get_ticker. repeat keeps_step. Qed.

Hint Resolve keeps_add_order keeps_cancel_order keeps_query_orders
  keeps_get_ticker : keeps_db.

Lemma keeps_place_order pair_id signal_id order_type side amount price :
  keeps Ip (_place_order exchange pair_id signal_id order_type side amount price).
Proof. unfold _place_order. repeat keeps_step. Qed.

Hint Resolve keeps_place_order : keeps_db.

(** The updates of the fill and of the mark are assumed to be kept. *)
Hypothesis Ip_fill : forall pred avg filled t l,
  Ip l (update_where pred (PositionRow.set_fill avg filled t) l).
Hypothesis Ip_pnl : forall pred current unrealized max_pnl max_loss t l,
  Ip l (update_where pred
          (PositionRow.set_pnl current unrealized max_pnl max_loss t) l).

Lemma keeps_handle_entry_fill entry_order filled average_price :
  keeps Ip (_handle_entry_fill exchange entry_order filled average_price).
Proof.
  unfold _handle_entry_fill. repeat keeps_step.
  all: try (apply keeps_set_positions; intros; apply Ip_fill).
Qed.

Hint Resolve keeps_handle_entry_fill : keeps_db.

Lemma keeps_update_order_status order kraken_order :
  keeps Ip (_update_order_status exchange order kraken_order).
Proof. unfold _update_order_status. repeat keeps_step. Qed.

Hint Resolve keeps_update_order_status : keeps_db.

Lemma keeps_monitor_orders_loop kraken_orders open_orders updates :
  keeps Ip (monitor_orders_loop exchange kraken_orders open_orders updates).
Proof.
  revert updates.
  induction open_orders as [|order rest IH]; intros updates; simpl.
  - apply keeps_ret, Ip_refl.
  - apply keeps_bind; [assumption | | intros ?; apply IH].
    repeat keeps_step.
Qed.

Hint Resolve keeps_monitor_orders_loop : keeps_db.

Lemma keeps_monitor_orders : keeps Ip (monitor_orders exchange).
Proof. unfold monitor_orders. repeat keeps_step. Qed.

Lemma keeps_update_position_pnl position_id current_price :
  keeps Ip (update_position_pnl position_id current_price).
Proof.
  unfold update_position_pnl. repeat keeps_step.
  all: try (apply keeps_set_positions; intros; apply Ip_pnl).
Qed.

End Frames.

#[export] Hint Resolve keeps_add_order keeps_cancel_order keeps_query_orders
  keeps_get_ticker keeps_place_order keeps_handle_entry_fill
  keeps_update_order_status keeps_monitor_orders_loop : keeps_db.

(** ** The trailing stop *)

Lemma update_stop_idempotent (k : uuid) (new_stop : Q) (l : list Position.t) :
  update_where (fun p => Nat.eqb (Position.id p) k)
    (PositionRow.set_stop_loss_price new_stop)
    (update_where (fun p => Nat.eqb (Position.id p) k)
       (PositionRow.set_stop_loss_price new_stop) l)
  = update_where (fun p => Nat.eqb (Position.id p) k)
      (PositionRow.set_stop_loss_price new_stop) l.
Proof.
  unfold update_where. rewrite map_map. apply map_ext. intros p.
  destruct (Nat.eqb (Position.id p) k) eqn:E; [|now rewrite E].
  cbn [Position.id PositionRow.set_stop_loss_price]. now rewrite E.
Qed.

Lemma moved_to_refl k new_stop l : moved_to k new_stop l l.
Proof. now left. Qed.

Lemma moved_to_trans k new_stop l1 l2 l3 :
  moved_to k new_stop l1 l2 -> moved_to k new_stop l2 l3 ->
  moved_to k new_stop l1 l3.
Proof.
  intros [-> | ->] [-> | ->]; try (now left); try (now right).
  right. apply update_stop_idempotent.
Qed.

Section TrailingStop.

Variable exchange : Kraken.Exchange.

Lemma adjust_stop_loss_moves (position_id : uuid) (new_stop_price : Q) :
  keeps (moved_to position_id new_stop_price)
    (adjust_stop_loss exchange position_id new_stop_price).
Proof.
  pose proof (moved_to_refl position_id new_stop_price) as Hrefl.
  pose proof (moved_to_trans position_id new_stop_price) as Htrans.
  unfold adjust_stop_loss. repeat keeps_step.
  all: try (apply keeps_set_positions; intros ?; right; reflexivity).
Qed.

(** What a trailing-stop check may do to the positions table: nothing, or
    move the stop of the rows of the checked position to a candidate that
    is strictly tighter than the stop of the row it was given. *)
Lemma _check_trailing_stop_moves (position : Position.t) (current_price : Q)
    (w : World) :
  let w' := world_after (_check_trailing_stop exchange position current_price) w in
  positions w' = positions w \/
  exists old_stop new_stop,
    Position.stop_loss_price position = Some old_stop /\
    tightens (Position.side position) old_stop new_stop /\
    positions w'
    = update_where (fun p => Nat.eqb (Position.id p) (Position.id position))
        (PositionRow.set_stop_loss_price new_stop) (positions w).
Proof.
  unfold world_after, _check_trailing_stop, try_except, bind, partial, ret,
    raise, tightens.
  destruct (String.eqb (Position.side position) "long");
    (destruct (Position.trailing_stop_distance position) as [distance|];
     [|now left]); cbv beta iota;
    (destruct (Position.stop_loss_price position) as [old_stop|];
     [|now left]); cbv beta iota.
  - destruct (Qgtb (current_price - distance) old_stop) eqn:Hcmp; [|now left].
    apply Qgtb_gt in Hcmp.
    pose proof (adjust_stop_loss_moves (Position.id position)
                  (current_price - distance) w) as Hmove.
    destruct (adjust_stop_loss exchange (Position.id position)
                (current_price - distance) w) as [[[|]|] w1];
      cbn in *; (destruct Hmove as [Hsame | Hmoved]; [now left|]);
      right; exists old_stop, (current_price - distance); auto.
  - destruct (Qltb (current_price + distance) old_stop) eqn:Hcmp; [|now left].
    apply Qltb_lt in Hcmp.
    pose proof (adjust_stop_loss_moves (Position.id position)
                  (current_price + distance) w) as Hmove.
    destruct (adjust_stop_loss exchange (Position.id position)
                (current_price + distance) w) as [[[|]|] w1];
      cbn in *; (destruct Hmove as [Hsame | Hmoved]; [now left|]);
      right; exists old_stop, (current_price + distance); auto.
Qed.

End TrailingStop.

(** *** Rows of the positions table across a tick *)

Lemma not_wider_refl side a : not_wider side a a.
Proof.
  unfold not_wider. destruct a as [x|]; [|exact I].
  destruct (String.eqb side "long"); apply Qle_refl.
Qed.

Lemma not_wider_trans side a b c :
  not_wider side a b -> not_wider side b c -> not_wider side a c.
Proof.
  unfold not_wider.
  destruct a as [x|], b as [y|], c as [z|]; try tauto.
  destruct (String.eqb side "long"); intros H1 H2.
  - eapply Qle_trans; eassumption.
  - eapply Qle_trans; eassumption.
Qed.

Lemma never_widens_refl p : never_widens p p.
Proof. repeat split. apply not_wider_refl. Qed.

Lemma never_widens_trans p1 p2 p3 :
  never_widens p1 p2 -> never_widens p2 p3 -> never_widens p1 p3.
Proof.
  intros (Hid1 & Hside1 & Hstop1) (Hid2 & Hside2 & Hstop2).
  repeat split; try congruence.
  rewrite Hside1 in Hstop2. eapply not_wider_trans; eassumption.
Qed.

Lemma same_view_never_widens p p' : same_view p p' -> never_widens p p'.
Proof.
  unfold same_view, stop_view. intros [= Hid Hside Hstop].
  repeat split; try assumption. rewrite Hstop. apply not_wider_refl.
Qed.

Lemma Forall2_compose {A} (R : A -> A -> Prop) (l1 l2 l3 : list A) :
  (forall x y z, R x y -> R y z -> R x z) ->
  Forall2 R l1 l2 -> Forall2 R l2 l3 -> Forall2 R l1 l3.
Proof.
  intros Htrans H12. revert l3.
  induction H12 as [|x y l1 l2 Hxy _ IH]; intros l3 H23.
  - inversion H23. constructor.
  - inversion H23 as [|y' z l2' l3' Hyz Hrest]; subst.
    constructor; [eapply Htrans; eassumption | now apply IH].
Qed.

Lemma Forall2_diag {A} (R : A -> A -> Prop) (l : list A) :
  (forall x, R x x) -> Forall2 R l l.
Proof. intros Hrefl. induction l; constructor; auto. Qed.

Lemma Forall2_update_where {A} (R : A -> A -> Prop) (pred : A -> bool)
    (f : A -> A) (l : list A) :
  (forall x, x ∈ l -> R x x) ->
  (forall x, x ∈ l -> pred x = true -> R x (f x)) ->
  Forall2 R l (update_where pred f l).
Proof.
  unfold update_where. induction l as [|x l IH]; intros Hrefl Hf; simpl.
  - constructor.
  - constructor.
    + destruct (pred x) eqn:E.
      * apply Hf; [left | exact E].
      * apply Hrefl. left.
    + apply IH.
      * intros y Hy. apply Hrefl. now right.
      * intros y Hy. apply Hf. now right.
Qed.

Lemma Forall2_elem_of_r {A} (R : A -> A -> Prop) (l l' : list A) (y : A) :
  Forall2 R l l' -> y ∈ l' -> exists x, x ∈ l /\ R x y.
Proof.
  induction 1 as [|x y' l l' Hxy _ IH]; intros Hy.
  - inversion Hy.
  - apply elem_of_cons in Hy as [-> | Hy].
    + exists x. split; [left | exact Hxy].
    + destruct (IH Hy) as (x0 & Hx0 & HR). exists x0. split; [now right | exact HR].
Qed.

Lemma same_view_refl p : same_view p p.
Proof. reflexivity. Qed.

Lemma same_view_trans p1 p2 p3 :
  same_view p1 p2 -> same_view p2 p3 -> same_view p1 p3.
Proof. unfold same_view. congruence. Qed.

Lemma same_views_refl l : Forall2 same_view l l.
Proof. apply Forall2_diag, same_view_refl. Qed.

Lemma same_views_trans l1 l2 l3 :
  Forall2 same_view l1 l2 -> Forall2 same_view l2 l3 ->
  Forall2 same_view l1 l3.
Proof. apply Forall2_compose, same_view_trans. Qed.

Lemma same_views_fill pred avg filled t l :
  Forall2 same_view l (update_where pred (PositionRow.set_fill avg filled t) l).
Proof. apply Forall2_update_where; intros; reflexivity. Qed.

Lemma same_views_pnl pred current unrealized max_pnl max_loss t l :
  Forall2 same_view l
    (update_where pred
       (PositionRow.set_pnl current unrealized max_pnl max_loss t) l).
Proof. apply Forall2_update_where; intros; reflexivity. Qed.

Lemma never_widens_list_trans l1 l2 l3 :
  Forall2 never_widens l1 l2 -> Forall2 never_widens l2 l3 ->
  Forall2 never_widens l1 l3.
Proof. apply Forall2_compose, never_widens_trans. Qed.

Lemma same_views_never_widen l l' :
  Forall2 same_view l l' -> Forall2 never_widens l l'.
Proof.
  intros H. eapply Forall2_impl; [exact H|]. apply same_view_never_widens.
Qed.

Lemma never_widens_ids l l' :
  Forall2 never_widens l l' -> map Position.id l' = map Position.id l.
Proof.
  induction 1 as [|p p' l l' (Hid & _) _ IH]; simpl; [reflexivity|].
  now rewrite Hid, IH.
Qed.

Lemma steps_to_refl k p : steps_to k p p.
Proof. split; [apply never_widens_refl | reflexivity]. Qed.

Lemma steps_to_trans k p1 p2 p3 :
  steps_to k p1 p2 -> steps_to k p2 p3 -> steps_to k p1 p3.
Proof.
  intros [H12 Hk12] [H23 Hk23].
  split; [eapply never_widens_trans; eassumption|].
  intros Hne. rewrite Hk23, Hk12; [reflexivity | exact Hne |].
  destruct H12 as (Hid & _). now rewrite Hid.
Qed.

Lemma same_view_steps_to k p p' : same_view p p' -> steps_to k p p'.
Proof.
  intros H. split; [now apply same_view_never_widens|].
  intros _. unfold same_view, stop_view in H. now injection H.
Qed.

Lemma steps_list_trans k l1 l2 l3 :
  Forall2 (steps_to k) l1 l2 -> Forall2 (steps_to k) l2 l3 ->
  Forall2 (steps_to k) l1 l3.
Proof. apply Forall2_compose, steps_to_trans. Qed.

Lemma same_views_steps k l l' :
  Forall2 same_view l l' -> Forall2 (steps_to k) l l'.
Proof.
  intros H. eapply Forall2_impl; [exact H|]. apply same_view_steps_to.
Qed.

Lemma steps_never_widen k l l' :
  Forall2 (steps_to k) l l' -> Forall2 never_widens l l'.
Proof.
  intros H. eapply Forall2_impl; [exact H|]. now intros p p' [Hnw _].
Qed.

Lemma agrees_same_views snapshot l l' :
  agrees snapshot l -> Forall2 same_view l l' -> agrees snapshot l'.
Proof.
  intros Hag Hviews s q' Hs Hq' Hid.
  destruct (Forall2_elem_of_r _ _ _ _ Hviews Hq') as (q & Hq & Hview).
  unfold same_view, stop_view in Hview. injection Hview as Hid' Hside Hstop.
  rewrite Hstop, Hside. apply Hag; [exact Hs | exact Hq | congruence].
Qed.

Lemma agrees_tail s rest l : agrees (s :: rest) l -> agrees rest l.
Proof. intros Hag s' q Hs'. apply Hag. now right. Qed.

Lemma agrees_steps k rest l l' :
  agrees rest l ->
  (forall s, s ∈ rest -> Position.id s <> k) ->
  Forall2 (steps_to k) l l' ->
  agrees rest l'.
Proof.
  intros Hag Hfresh Hsteps s q' Hs Hq' Hid.
  destruct (Forall2_elem_of_r _ _ _ _ Hsteps Hq')
    as (q & Hq & (Hid' & Hside & _) & Hkeep).
  assert (Hqs : Position.id q = Position.id s) by congruence.
  rewrite Hkeep, Hside.
  - now apply Hag.
  - rewrite Hqs. now apply Hfresh.
Qed.

(** A strictly tighter stop written on the rows that agree with the row
    that was checked. *)
Lemma move_steps (s : Position.t) (l : list Position.t) (old_stop new_stop : Q) :
  agrees [s] l ->
  Position.stop_loss_price s = Some old_stop ->
  tightens (Position.side s) old_stop new_stop ->
  Forall2 (steps_to (Position.id s)) l
    (update_where (fun p => Nat.eqb (Position.id p) (Position.id s))
       (PositionRow.set_stop_loss_price new_stop) l).
Proof.
  intros Hag Hold Htight.
  apply Forall2_update_where.
  - intros q _. apply steps_to_refl.
  - intros q Hq Hid. apply Nat.eqb_eq in Hid.
    destruct (Hag s q) as [Hstop Hside]; [left | exact Hq | exact Hid |].
    split.
    + split; [reflexivity|]. split; [reflexivity|].
      change (not_wider (Position.side q) (Position.stop_loss_price q)
                (Some new_stop)).
      rewrite Hstop, Hold, Hside. unfold not_wider, tightens in *.
      destruct (String.eqb (Position.side s) "long");
        now apply Qlt_le_weak.
    + intros Hne. now contradiction Hne.
Qed.

Section Tick.

Variable exchange : Kraken.Exchange.

(** The check of one row, given a row that agrees with the table. *)
Lemma _check_trailing_stop_steps (s : Position.t) (current_price : Q)
    (w : World) :
  agrees [s] (positions w) ->
  Forall2 (steps_to (Position.id s)) (positions w)
    (positions (_check_trailing_stop exchange s current_price w).2).
Proof.
  intros Hag.
  destruct (_check_trailing_stop_moves exchange s current_price w)
    as [Hsame | (old_stop & new_stop & Hold & Htight & Hmoved)];
    unfold world_after in *.
  - rewrite Hsame. apply Forall2_diag, steps_to_refl.
  - rewrite Hmoved. now apply move_steps with old_stop.
Qed.

(** The body of the loop moves, if anything, the stop of the rows of the
    position it handles, and not to a wider one. *)
Lemma monitor_position_step_steps (s : Position.t)
    (adjustments : list Adjustment) (w : World) :
  agrees [s] (positions w) ->
  Forall2 (steps_to (Position.id s)) (positions w)
    (positions (monitor_position_step exchange s adjustments w).2).
Proof.
  intros Hag.
  unfold monitor_position_step, bind, get, partial.
  destruct (head (pairs_by_id (Position.pair_id s) w)) as [pair_data|];
    [|apply Forall2_diag, steps_to_refl].
  cbv beta iota. unfold ret at 1. cbv beta iota.
  pose proof (keeps_get_ticker (Forall2 same_view) same_views_refl
                same_views_trans exchange [CryptoPair.symbol pair_data] w)
    as Hticker.
  destruct (get_ticker exchange [CryptoPair.symbol pair_data] w)
    as [[ticker_data|] w1]; simpl in Hticker |- *;
    [|now apply same_views_steps].
  destruct (ticker_data !! CryptoPair.symbol pair_data) as [current_price|];
    [|now apply same_views_steps].
  pose proof (keeps_update_position_pnl (Forall2 same_view) same_views_refl
                same_views_trans same_views_pnl (Position.id s) current_price w1)
    as Hpnl.
  assert (Hviews : Forall2 same_view (positions w)
                     (positions (update_position_pnl (Position.id s)
                                   current_price w1).2))
    by (eapply same_views_trans; eassumption).
  clear Hticker Hpnl.
  destruct (update_position_pnl (Position.id s) current_price w1)
    as [[updated|] w2]; simpl in Hviews |- *;
    [|now apply same_views_steps].
  assert (Hag2 : agrees [s] (positions w2))
    by (eapply agrees_same_views; eassumption).
  destruct (truthy (Position.trailing_stop_distance s));
    [|now apply same_views_steps].
  pose proof (_check_trailing_stop_steps s current_price w2 Hag2) as Hcheck.
  assert (Hall : Forall2 (steps_to (Position.id s)) (positions w)
                   (positions (_check_trailing_stop exchange s current_price
                                 w2).2)).
  { eapply steps_list_trans; [|exact Hcheck]. now apply same_views_steps. }
  clear Hcheck.
  destruct (_check_trailing_stop exchange s current_price w2)
    as [[[adjustment|]|] w3]; simpl in Hall |- *; exact Hall.
Qed.

Lemma elem_of_ids (l : list Position.t) (p : Position.t) :
  p ∈ l -> Position.id p ∈ map Position.id l.
Proof.
  induction l as [|x l IH]; intros Hp; [inversion Hp|].
  apply elem_of_cons in Hp as [-> | Hp]; simpl; [left | right; auto].
Qed.

Lemma nodup_ids_inj (l : list Position.t) (p q : Position.t) :
  NoDup (map Position.id l) -> p ∈ l -> q ∈ l ->
  Position.id p = Position.id q -> p = q.
Proof.
  induction l as [|x l IH]; intros Hnd Hp Hq Hid; [inversion Hp|].
  simpl in Hnd. apply NoDup_cons in Hnd as [Hx Hnd].
  apply elem_of_cons in Hp as [-> | Hp];
    apply elem_of_cons in Hq as [-> | Hq]; auto.
  - exfalso. apply Hx. rewrite Hid. now apply elem_of_ids.
  - exfalso. apply Hx. rewrite <- Hid. now apply elem_of_ids.
Qed.

Lemma nodup_ids_filter (P : Position.t -> Prop) `{forall p, Decision (P p)}
    (l : list Position.t) :
  NoDup (map Position.id l) -> NoDup (map Position.id (filter P l)).
Proof.
  induction l as [|x l IH]; intros Hnd; [constructor|].
  simpl in Hnd. apply NoDup_cons in Hnd as [Hx Hnd].
  rewrite filter_cons. destruct (decide (P x)); [|auto].
  simpl. apply NoDup_cons. split; [|auto].
  intros Hin. apply Hx. clear -Hin.
  induction l as [|y l IH]; [inversion Hin|].
  rewrite filter_cons in Hin. destruct (decide (P y)); simpl in *.
  - apply elem_of_cons in Hin as [-> | Hin]; [left | right; auto].
  - right. auto.
Qed.

Lemma agrees_open_positions (l : list Position.t) :
  NoDup (map Position.id l) ->
  agrees (filter (fun p => Position.is_open p) l) l.
Proof.
  intros Hnd s q Hs Hq Hid.
  apply list_elem_of_filter in Hs as [_ Hs].
  now rewrite (nodup_ids_inj l q s Hnd Hq Hs Hid).
Qed.

(** The loop over the rows read at the start of the tick. *)
Lemma monitor_positions_loop_never_widens (snapshot : list Position.t) :
  forall (adjustments : list Adjustment) (w : World),
    NoDup (map Position.id snapshot) ->
    agrees snapshot (positions w) ->
    Forall2 never_widens (positions w)
      (positions (monitor_positions_loop exchange snapshot adjustments w).2).
Proof.
  induction snapshot as [|s rest IH]; intros adjustments w Hnd Hag; simpl.
  - apply Forall2_diag, never_widens_refl.
  - simpl in Hnd. apply NoDup_cons in Hnd as [Hs Hnd].
    assert (Hrow : agrees [s] (positions w)).
    { intros s' q Hs' Hq. apply list_elem_of_singleton in Hs' as ->.
      apply Hag; [left | exact Hq]. }
    pose proof (monitor_position_step_steps s adjustments w Hrow) as Hstep.
    unfold bind.
    destruct (monitor_position_step exchange s adjustments w)
      as [[adjustments'|] w1]; simpl in Hstep |- *;
      [|eapply steps_never_widen; exact Hstep].
    eapply never_widens_list_trans;
      [eapply steps_never_widen; exact Hstep|].
    apply IH; [exact Hnd|].
    eapply agrees_steps; [eapply agrees_tail, Hag | | exact Hstep].
    intros s' Hs' Heq. apply Hs. rewrite <- Heq. now apply elem_of_ids.
Qed.

(** One reconciliation tick. *)
Lemma monitor_positions_never_widens (w : World) :
  NoDup (map Position.id (positions w)) ->
  Forall2 never_widens (positions w)
    (positions (world_after (monitor_positions exchange) w)).
Proof.
  intros Hnd.
  unfold world_after, monitor_positions, try_except, bind, get.
  pose proof (keeps_monitor_orders (Forall2 same_view) same_views_refl
                same_views_trans exchange same_views_fill w) as Horders.
  destruct (monitor_orders exchange w) as [[updates|] w1];
    simpl in Horders |- *; [|now apply same_views_never_widen].
  apply same_views_never_widen in Horders.
  assert (Hnd1 : NoDup (map Position.id (positions w1)))
    by (now rewrite (never_widens_ids _ _ Horders)).
  pose proof (monitor_positions_loop_never_widens (all_open_positions w1) []
                w1 (nodup_ids_filter _ _ Hnd1)
                (agrees_open_positions _ Hnd1)) as Hloop.
  assert (Hall : Forall2 never_widens (positions w)
                   (positions (monitor_positions_loop exchange
                                 (all_open_positions w1) [] w1).2))
    by (eapply never_widens_list_trans; eassumption).
  clear Hloop.
  destruct (monitor_positions_loop exchange (all_open_positions w1) [] w1)
    as [[adjustments|] w2]; simpl in Hall |- *; exact Hall.
Qed.

Lemma run_ticks_never_widens (n : nat) :
  forall w,
    NoDup (map Position.id (positions w)) ->
    Forall2 never_widens (positions w) (positions (run_ticks exchange n w)).
Proof.
  induction n as [|n IH]; intros w Hnd; simpl.
  - apply Forall2_diag, never_widens_refl.
  - pose proof (monitor_positions_never_widens w Hnd) as Htick.
    eapply never_widens_list_trans; [exact Htick|].
    apply IH. now rewrite (never_widens_ids _ _ Htick).
Qed.

(** C2, amended.  The comparison of the candidate with the current stop is
    the one of [_check_trailing_stop], not of [adjust_stop_loss].  A
    trailing-stop check changes the stop of a position only to a
    candidate strictly above the current stop for a long, strictly below it
    for a short; and over any number of reconciliation ticks, whatever the
    exchange answers, every row of the positions table keeps its identifier
    and its side while its stop never becomes wider: it is non-decreasing
    for a long and non-increasing for a short. *)
Theorem trailing_stop_never_widens (w : World) :
  (forall position current_price,
      let w' :=
        world_after (_check_trailing_stop exchange position current_price) w in
      positions w' = positions w \/
      exists old_stop new_stop,
        Position.stop_loss_price position = Some old_stop /\
        tightens (Position.side position) old_stop new_stop /\
        positions w'
        = update_where
            (fun p => Nat.eqb (Position.id p) (Position.id position))
            (PositionRow.set_stop_loss_price new_stop) (positions w)) /\
  (NoDup (map Position.id (positions w)) ->
   forall n,
     Forall2 never_widens (positions w) (positions (run_ticks exchange n w))).
Proof.
  split.
  - intros position current_price.
    apply _check_trailing_stop_moves.
  - intros Hnd n. now apply run_ticks_never_widens.
Qed.

End Tick.

(** The sample position with a trailing distance of 2 and a last trade at
    101: the first tick moves the stop from 98 to 99, the second leaves it,
    and no row ever shows a wider stop. *)
Lemma trailing_stop_never_widens_witness :
  NoDup (map Position.id (positions trailing_world)) /\
  Forall2 never_widens (positions trailing_world)
    (positions (run_ticks exchange_up 2 trailing_world)) /\
  map Position.stop_loss_price (positions (run_ticks exchange_up 1 trailing_world))
  = [Some (101 - 2)] /\
  map Position.stop_loss_price (positions (run_ticks exchange_up 2 trailing_world))
  = [Some (101 - 2)].
Proof.
  assert (Hnd : NoDup (map Position.id (positions trailing_world))).
  { simpl. apply NoDup_singleton. }
  split; [exact Hnd|]. split.
  - exact (proj2 (trailing_stop_never_widens exchange_up trailing_world) Hnd 2%nat).
  - split; vm_compute; reflexivity.
Defined.

(** C2, as stated, fails: [adjust_stop_loss] does not compare the candidate
    with the current stop.  Asked to move the stop of the long sample
    position from 98 down to 90, it accepts, and the row then shows the
    wider stop. *)
Lemma adjust_stop_loss_has_no_guard :
  ~ (forall exchange w position_id new_stop_price,
        accepts_only_tighter exchange w position_id new_stop_price).
Proof.
  intros Hclaim.
  specialize (Hclaim exchange_up trailing_world 11%nat 90).
  unfold accepts_only_tighter in Hclaim.
  assert (Haccepted :
            result_of (adjust_stop_loss exchange_up 11 90) trailing_world
            = Some true) by (vm_compute; reflexivity).
  specialize (Hclaim Haccepted).
  assert (Hrows :
            map (fun p => (Position.side p, Position.stop_loss_price p))
              (positions trailing_world)
            = [("long", Some 98)]) by reflexivity.
  assert (Hstops :
            map Position.stop_loss_price
              (positions
                 (world_after (adjust_stop_loss exchange_up 11 90)
                    trailing_world))
            = [Some 90]) by (vm_compute; reflexivity).
  destruct Hclaim as [|p p' l l' (_ & _ & Hwider) _]; [discriminate Hrows|].
  injection Hrows as Hside Hstop _.
  injection Hstops as Hstop' _.
  rewrite Hside, Hstop, Hstop' in Hwider.
  simpl in Hwider. lra.
Qed.

(** * Further properties of the code *)

(** ** Minima, maxima and sums *)

Lemma py_min_le_l a b : py_min a b <= a.
Proof.
  unfold py_min. destruct (Qltb b a) eqn:E.
  - apply Qltb_lt in E. lra.
  - lra.
Qed.

Lemma py_max_ge_l a b : a <= py_max a b.
Proof.
  unfold py_max. destruct (Qgtb b a) eqn:E.
  - apply Qgtb_gt in E. lra.
  - lra.
Qed.

Lemma py_max_ge_r a b : b <= py_max a b.
Proof.
  unfold py_max. destruct (Qgtb b a) eqn:E.
  - lra.
  - apply Qgtb_le in E. exact E.
Qed.

Lemma py_max_cases a b : py_max a b = a \/ py_max a b = b.
Proof. unfold py_max. destruct (Qgtb b a); auto. Qed.

Lemma fold_left_py_min_bound (l : list Q) (x : Q) :
  fold_left py_min l x <= x /\
  Forall (fun y => fold_left py_min l x <= y) l /\
  (fold_left py_min l x = x \/ fold_left py_min l x ∈ l).
Proof.
  revert x. induction l as [|y l IH]; intros x; simpl.
  - split; [lra|]. split; [constructor | now left].
  - destruct (IH (py_min x y)) as (Hle & Hall & Hin).
    pose proof (py_min_le_l x y) as Hl. pose proof (py_min_le_r x y) as Hr.
    split; [lra|]. split.
    + constructor; [lra | exact Hall].
    + destruct Hin as [Heq | Hin].
      * destruct (py_min_cases x y) as [E | E]; rewrite E in Heq |- *.
        -- now left.
        -- right. rewrite Heq. apply list_elem_of_here.
      * right. now apply list_elem_of_further.
Qed.

Lemma fold_left_py_max_bound (l : list Q) (x : Q) :
  x <= fold_left py_max l x /\
  Forall (fun y => y <= fold_left py_max l x) l /\
  (fold_left py_max l x = x \/ fold_left py_max l x ∈ l).
Proof.
  revert x. induction l as [|y l IH]; intros x; simpl.
  - split; [lra|]. split; [constructor | now left].
  - destruct (IH (py_max x y)) as (Hle & Hall & Hin).
    pose proof (py_max_ge_l x y) as Hl. pose proof (py_max_ge_r x y) as Hr.
    split; [lra|]. split.
    + constructor; [lra | exact Hall].
    + destruct Hin as [Heq | Hin].
      * destruct (py_max_cases x y) as [E | E]; rewrite E in Heq |- *.
        -- now left.
        -- right. rewrite Heq. apply list_elem_of_here.
      * right. now apply list_elem_of_further.
Qed.

(** The minimum of a non-empty list is one of its elements and a lower
    bound of all of them; so is the maximum, from above. *)
Lemma list_min_spec (l : list Q) :
  l <> [] -> list_min l ∈ l /\ Forall (fun y => list_min l <= y) l.
Proof.
  destruct l as [|x t]; [congruence|]. intros _. simpl.
  destruct (fold_left_py_min_bound t x) as (Hle & Hall & Hin). split.
  - destruct Hin as [-> | Hin];
      [apply list_elem_of_here | now apply list_elem_of_further].
  - constructor; assumption.
Qed.

Lemma list_max_spec (l : list Q) :
  l <> [] -> list_max l ∈ l /\ Forall (fun y => y <= list_max l) l.
Proof.
  destruct l as [|x t]; [congruence|]. intros _. simpl.
  destruct (fold_left_py_max_bound t x) as (Hle & Hall & Hin). split.
  - destruct Hin as [-> | Hin];
      [apply list_elem_of_here | now apply list_elem_of_further].
  - constructor; assumption.
Qed.

Lemma py_tail_length {A} (n : nat) (l : list A) :
  (1 <= n)%nat -> (n <= length l)%nat -> length (py_tail n l) = n.
Proof.
  intros Hn Hl. unfold py_tail. destruct n as [|k]; [lia|].
  rewrite length_drop. lia.
Qed.

Lemma py_tail_nonempty {A} (n : nat) (l : list A) :
  (1 <= n)%nat -> (n <= length l)%nat -> py_tail n l <> [].
Proof.
  intros Hn Hl E. apply (f_equal length) in E.
  rewrite py_tail_length in E by assumption. simpl in E. lia.
Qed.

Lemma py_tail_Forall2 {A} (R : A -> A -> Prop) (n : nat) (l l' : list A) :
  Forall2 R l l' -> Forall2 R (py_tail n l) (py_tail n l').
Proof.
  intros H. unfold py_tail. destruct n as [|k]; [exact H|].
  rewrite <- (Forall2_length _ _ _ H). now apply Forall2_drop.
Qed.

(** ** Support, resistance and trend strength *)

(** X1.  With a lookback of at least one and enough samples, the support
    returned by [identify_support_resistance] is one of the last [lookback]
    lows and a lower bound of all of them, the resistance one of the last
    [lookback] highs and an upper bound of all of them; when every low is
    at most the high of its bar, the support is at most the resistance. *)
Theorem support_below_resistance (highs lows : list Q) (lookback : nat)
    (support resistance : Q) :
  (1 <= lookback)%nat ->
  MarketAnalysis.identify_support_resistance highs lows lookback
  = (Some support, Some resistance) ->
  (support ∈ py_tail lookback lows /\
   Forall (fun low => support <= low) (py_tail lookback lows)) /\
  (resistance ∈ py_tail lookback highs /\
   Forall (fun high => high <= resistance) (py_tail lookback highs)) /\
  (Forall2 Qle lows highs -> support <= resistance).
Proof.
  intros Hn. unfold MarketAnalysis.identify_support_resistance.
  destruct (length highs <? lookback)%nat eqn:Hh; [discriminate|].
  destruct (length lows <? lookback)%nat eqn:Hl; [discriminate|].
  apply Nat.ltb_ge in Hh, Hl. simpl. intros [= <- <-].
  pose proof (list_min_spec _ (py_tail_nonempty lookback lows Hn Hl))
    as [Hsin Hsall].
  pose proof (list_max_spec _ (py_tail_nonempty lookback highs Hn Hh))
    as [Hrin Hrall].
  repeat split; try assumption.
  intros Hbars.
  pose proof (py_tail_Forall2 Qle lookback _ _ Hbars) as Htails.
  pose proof (py_tail_nonempty lookback lows Hn Hl) as Hne.
  destruct Htails as [|low high lows' highs' Hbar _]; [congruence|].
  apply Forall_cons in Hsall as [Hs _].
  apply Forall_cons in Hrall as [Hr _].
  lra.
Qed.

(** The last three of five bars: the support is 8, the resistance 14. *)
Lemma support_below_resistance_witness :
  (1 <= 3)%nat /\
  MarketAnalysis.identify_support_resistance [11; 12; 14; 13; 12]
    [9; 10; 11; 8; 10] 3 = (Some 8, Some 14) /\
  8 ∈ py_tail 3 [9; 10; 11; 8; 10] /\ 8 <= 14.
Proof.
  split; [lia|]. split; [vm_compute; reflexivity|].
  destruct (support_below_resistance [11; 12; 14; 13; 12] [9; 10; 11; 8; 10]
              3 8 14) as ((Hs & _) & _ & H).
  - lia.
  - vm_compute. reflexivity.
  - split; [exact Hs|]. apply H.
    repeat constructor; vm_compute; discriminate.
Defined.

(** X2.  Over a window of at least two samples whose mean is not zero,
    [calculate_trend_strength] lies between 0 and 1. *)
Theorem calculate_trend_strength_range (prices : list Q) (period : nat) :
  (2 <= period)%nat ->
  ~ np_mean (py_tail period prices) == 0 ->
  0 <= MarketAnalysis.calculate_trend_strength prices period /\
  MarketAnalysis.calculate_trend_strength prices period <= 1.
Proof.
  intros _ _. unfold MarketAnalysis.calculate_trend_strength.
  destruct (length prices <? period)%nat; [split; lra|].
  cbv zeta. split.
  - match goal with
    | |- 0 <= py_min ?a ?b => destruct (py_min_cases a b) as [-> | ->]
    end.
    + apply Qmult_le_0_compat; [apply Qabs_nonneg | lra].
    + lra.
  - apply py_min_le_r.
Qed.

Lemma calculate_trend_strength_range_witness :
  0 <= MarketAnalysis.calculate_trend_strength [100; 101; 103] 3 /\
  MarketAnalysis.calculate_trend_strength [100; 101; 103] 3 <= 1.
Proof.
  apply calculate_trend_strength_range.
  - lia.
  - vm_compute. discriminate.
Defined.

(** ** The relative strength index at its extremes *)

Lemma np_diff_length (l : list Q) : length (np_diff l) = (length l - 1)%nat.
Proof.
  induction l as [|x l IH]; [reflexivity|].
  destruct l as [|y t]; [reflexivity|].
  change (np_diff (x :: y :: t)) with ((y - x) :: np_diff (y :: t)).
  simpl length in *. rewrite IH. lia.
Qed.

Lemma Qsum_zero (l : list Q) : Forall (fun x => x == 0) l -> Qsum l == 0.
Proof.
  induction 1 as [|x l Hx _ IH]; simpl; [reflexivity|].
  rewrite Hx, IH. reflexivity.
Qed.

Lemma Qsum_pos (l : list Q) :
  Forall (fun x => 0 < x) l -> l <> [] -> 0 < Qsum l.
Proof.
  induction 1 as [|x l Hx Hl IH]; [congruence|]. intros _. simpl.
  destruct l as [|y t].
  - simpl. lra.
  - assert (0 < Qsum (y :: t)) by (apply IH; congruence). lra.
Qed.

Lemma count_pos (n : nat) : (1 <= n)%nat -> 0 < inject_Z (Z.of_nat n).
Proof.
  intros Hn. change 0 with (inject_Z 0). rewrite <- Zlt_Qlt. lia.
Qed.

Lemma np_mean_zero (l : list Q) : Forall (fun x => x == 0) l -> np_mean l == 0.
Proof.
  intros H. unfold np_mean, Qdiv. rewrite (Qsum_zero l H). apply Qmult_0_l.
Qed.

Lemma np_mean_pos (l : list Q) :
  Forall (fun x => 0 < x) l -> l <> [] -> 0 < np_mean l.
Proof.
  intros Hall Hne. unfold np_mean.
  apply Qlt_shift_div_l.
  - apply count_pos. destruct l; [congruence | simpl; lia].
  - rewrite Qmult_0_l. now apply Qsum_pos.
Qed.

Lemma np_losses_of_rises (deltas : list Q) :
  Forall (fun d => 0 <= d) deltas ->
  Forall (fun x => x == 0) (np_losses deltas).
Proof.
  unfold np_losses. induction 1 as [|d l Hd _ IH]; simpl; constructor;
    [|exact IH].
  apply Qltb_ge in Hd. rewrite Hd. reflexivity.
Qed.

Lemma np_gains_of_falls (deltas : list Q) :
  Forall (fun d => d < 0) deltas ->
  Forall (fun x => x == 0) (np_gains deltas).
Proof.
  unfold np_gains. induction 1 as [|d l Hd _ IH]; simpl; constructor;
    [|exact IH].
  assert (E : Qgtb d 0 = false) by (apply Qgtb_le; lra).
  rewrite E. reflexivity.
Qed.

Lemma np_losses_of_falls (deltas : list Q) :
  Forall (fun d => d < 0) deltas ->
  Forall (fun x => 0 < x) (np_losses deltas).
Proof.
  unfold np_losses. induction 1 as [|d l Hd _ IH]; simpl; constructor;
    [|exact IH].
  assert (E : Qltb d 0 = true) by (apply Qltb_lt; exact Hd).
  rewrite E. lra.
Qed.

(** X3.  On a series that never falls over its whole length (a flat one
    included), with at least [period + 1] samples, [calculate_rsi] returns
    exactly 100: a market that does not move reads as overbought. *)
Theorem rsi_of_a_series_that_never_falls (prices : list Q) (period : nat) :
  (1 <= period)%nat ->
  (period + 1 <= length prices)%nat ->
  Forall (fun d => 0 <= d) (np_diff prices) ->
  MarketAnalysis.calculate_rsi prices period = Some 100.
Proof.
  intros _ Hlen Hrise. unfold MarketAnalysis.calculate_rsi.
  assert (E : (length prices <? period + 1)%nat = false)
    by (apply Nat.ltb_ge; exact Hlen).
  rewrite E.
  assert (Hz : MarketAnalysis.rsi_avg_loss prices period == 0).
  { unfold MarketAnalysis.rsi_avg_loss. apply np_mean_zero, py_tail_Forall.
    now apply np_losses_of_rises. }
  apply Qeq_bool_iff in Hz. now rewrite Hz.
Qed.

(** Fifteen equal prices. *)
Lemma rsi_of_a_series_that_never_falls_witness :
  MarketAnalysis.calculate_rsi (replicate 15 42) 14 = Some 100.
Proof.
  apply rsi_of_a_series_that_never_falls.
  - lia.
  - simpl. lia.
  - vm_compute. repeat constructor; discriminate.
Defined.

(** X4.  On a series that falls at every step, with at least [period + 1]
    samples, [calculate_rsi] returns zero; and a row whose [rsi_14] is zero
    casts no RSI vote in [_analyze_signals]: the most oversold reading is
    handled as a missing one. *)
Theorem rsi_of_a_falling_series_is_ignored (prices : list Q) (period : nat)
    (latest_data : MarketData.t) (v : MarketAnalysis.votes) :
  (1 <= period)%nat ->
  (period + 1 <= length prices)%nat ->
  Forall (fun d => d < 0) (np_diff prices) ->
  exists r,
    MarketAnalysis.calculate_rsi prices period = Some r /\
    r == 0 /\
    (MarketData.rsi_14 latest_data = Some r ->
     MarketAnalysis.rsi_vote latest_data v = v).
Proof.
  intros Hperiod Hlen Hfall. unfold MarketAnalysis.calculate_rsi.
  assert (E : (length prices <? period + 1)%nat = false)
    by (apply Nat.ltb_ge; exact Hlen).
  rewrite E.
  assert (Hg : MarketAnalysis.rsi_avg_gain prices period == 0).
  { unfold MarketAnalysis.rsi_avg_gain. apply np_mean_zero, py_tail_Forall.
    now apply np_gains_of_falls. }
  assert (Hl : 0 < MarketAnalysis.rsi_avg_loss prices period).
  { unfold MarketAnalysis.rsi_avg_loss. apply np_mean_pos.
    - apply py_tail_Forall. now apply np_losses_of_falls.
    - apply py_tail_nonempty; [exact Hperiod|].
      unfold np_losses. rewrite length_map, np_diff_length. lia. }
  assert (Hnz : Qeq_bool (MarketAnalysis.rsi_avg_loss prices period) 0 = false).
  { destruct (Qeq_bool _ 0) eqn:Hz; [|reflexivity].
    apply Qeq_bool_iff in Hz. rewrite Hz in Hl. now apply Qlt_irrefl in Hl. }
  rewrite Hnz. eexists. split; [reflexivity|].
  assert (Hr : 100 - 100 / (1 + MarketAnalysis.rsi_avg_gain prices period
                                  / MarketAnalysis.rsi_avg_loss prices period)
               == 0).
  { rewrite Hg. unfold Qdiv at 2. rewrite Qmult_0_l. reflexivity. }
  split; [exact Hr|].
  intros Hrow. unfold MarketAnalysis.rsi_vote. rewrite Hrow.
  unfold truthy. apply Qeq_bool_iff in Hr. now rewrite Hr.
Qed.

(** Fifteen prices falling by one. *)
Lemma rsi_of_a_falling_series_is_ignored_witness :
  exists r,
    MarketAnalysis.calculate_rsi
      [15; 14; 13; 12; 11; 10; 9; 8; 7; 6; 5; 4; 3; 2; 1] 14 = Some r /\
    r == 0.
Proof.
  destruct (rsi_of_a_falling_series_is_ignored
              [15; 14; 13; 12; 11; 10; 9; 8; 7; 6; 5; 4; 3; 2; 1] 14
              neutral_row ([], [])) as (r & Hr & Hz & _).
  - lia.
  - simpl. lia.
  - vm_compute. repeat constructor; reflexivity.
  - exists r. split; assumption.
Defined.

(** ** The votes of the signal generator *)

Lemma sound_cast (s : Z) (w : Q) (v : MarketAnalysis.votes) :
  sound_votes v -> (-1 <= s <= 1)%Z -> 0 < w ->
  sound_votes (MarketAnalysis.cast s w v).
Proof.
  intros Hv Hs Hw. unfold sound_votes, MarketAnalysis.cast. simpl.
  apply Forall2_app; [exact Hv|]. repeat constructor; [lia | lia | exact Hw].
Qed.

Lemma net_direction_range (v : MarketAnalysis.votes) :
  (-1 <= MarketAnalysis.net_direction v <= 1)%Z.
Proof. unfold MarketAnalysis.net_direction. destruct (0 <? _)%Z; lia. Qed.

Lemma sound_gather_votes latest_data trend_strength volume_profile :
  sound_votes
    (MarketAnalysis.gather_votes latest_data trend_strength volume_profile).
Proof.
  unfold MarketAnalysis.gather_votes.
  assert (H0 : sound_votes ([], [])) by constructor.
  assert (H1 : sound_votes (MarketAnalysis.rsi_vote latest_data ([], []))).
  { unfold MarketAnalysis.rsi_vote.
    destruct (MarketData.rsi_14 latest_data) as [rsi|]; [|exact H0].
    destruct (truthy (Some rsi)); [|exact H0].
    destruct (Qltb rsi 30); [|destruct (Qgtb rsi 70)];
      apply sound_cast; try exact H0; try lia; reflexivity. }
  set (v1 := MarketAnalysis.rsi_vote latest_data ([], [])) in *.
  assert (H2 : sound_votes (MarketAnalysis.macd_vote latest_data v1)).
  { unfold MarketAnalysis.macd_vote.
    destruct (MarketData.macd latest_data) as [macd|]; [|exact H1].
    destruct (MarketData.macd_signal latest_data) as [macd_signal|];
      [|exact H1].
    destruct (truthy (Some macd) && truthy (Some macd_signal)); [|exact H1].
    destruct (Qgtb macd macd_signal);
      apply sound_cast; try exact H1; try lia; reflexivity. }
  set (v2 := MarketAnalysis.macd_vote latest_data v1) in *.
  assert (H3 : sound_votes (MarketAnalysis.sma_vote latest_data v2)).
  { unfold MarketAnalysis.sma_vote.
    destruct (MarketData.sma_20 latest_data) as [sma_20|]; [|exact H2].
    destruct (MarketData.sma_50 latest_data) as [sma_50|]; [|exact H2].
    destruct (truthy (Some sma_20) && truthy (Some sma_50)); [|exact H2].
    destruct (Qgtb sma_20 sma_50 && Qgtb _ sma_20);
      [|destruct (Qltb sma_20 sma_50 && Qltb _ sma_20)];
      apply sound_cast; try exact H2; try lia; reflexivity. }
  set (v3 := MarketAnalysis.sma_vote latest_data v2) in *.
  assert (H4 : sound_votes (MarketAnalysis.trend_vote trend_strength v3)).
  { unfold MarketAnalysis.trend_vote.
    destruct (Qgtb trend_strength 0.7); [|exact H3].
    apply sound_cast; [exact H3 | apply net_direction_range | reflexivity]. }
  unfold MarketAnalysis.volume_vote.
  destruct (String.eqb volume_profile "HIGH"); [|exact H4].
  apply sound_cast; [exact H4 | apply net_direction_range | reflexivity].
Qed.

Lemma fold_left_Qplus (l : list Q) (a : Q) :
  fold_left Qplus l a == a + Qsum l.
Proof.
  revert a. induction l as [|x l IH]; intros a; simpl.
  - lra.
  - rewrite IH. lra.
Qed.

Lemma py_sum_Qsum (l : list Q) : py_sum l == Qsum l.
Proof. unfold py_sum. rewrite fold_left_Qplus. lra. Qed.

Lemma vote_magnitude (s : Z) (w : Q) :
  (-1 <= s <= 1)%Z -> 0 < w -> Qabs (inject_Z s * w) <= w.
Proof.
  intros Hs Hw. apply Qabs_Qle_condition.
  assert (E : s = (-1)%Z \/ s = 0%Z \/ s = 1%Z) by lia.
  destruct E as [-> | [-> | ->]];
    [change (inject_Z (-1)) with (-1) | change (inject_Z 0) with 0
     | change (inject_Z 1) with 1]; split; lra.
Qed.

Lemma sound_votes_sums (signals : list Z) (weights : list Q) :
  Forall2 (fun s w => (-1 <= s <= 1)%Z /\ 0 < w) signals weights ->
  Qabs (Qsum (zip_with (fun s w => inject_Z s * w) signals weights))
  <= Qsum weights /\
  0 <= Qsum weights /\
  (signals <> [] -> 0 < Qsum weights).
Proof.
  induction 1 as [|s w signals weights [Hs Hw] _ (IH1 & IH2 & _)].
  - split; [|split]; [vm_compute; discriminate | simpl; lra | congruence].
  - pose proof (vote_magnitude s w Hs Hw) as Hm.
    pose proof (Qabs_triangle (inject_Z s * w)
                  (Qsum (zip_with (fun s w => inject_Z s * w) signals weights)))
      as Ht.
    change (Qsum (zip_with (fun s w => inject_Z s * w) (s :: signals)
                    (w :: weights)))
      with (inject_Z s * w
            + Qsum (zip_with (fun s w => inject_Z s * w) signals weights)).
    change (Qsum (w :: weights)) with (w + Qsum weights).
    split; [|split]; [lra | lra | intros _; lra].
Qed.

(** The weighted score of sound votes exists as soon as one vote was cast,
    and its magnitude is at most one. *)
Lemma weighted_signal_bounded (v : MarketAnalysis.votes) :
  sound_votes v -> v.1 <> [] ->
  exists ws, MarketAnalysis.weighted_signal_of v = Some ws /\ Qabs ws <= 1.
Proof.
  intros Hv Hne.
  destruct (sound_votes_sums _ _ Hv) as (Habs & _ & Hpos).
  specialize (Hpos Hne).
  unfold MarketAnalysis.weighted_signal_of.
  set (a := py_sum _). set (b := py_sum v.2).
  assert (Ha : a == Qsum (zip_with (fun s w => inject_Z s * w) v.1 v.2))
    by apply py_sum_Qsum.
  assert (Hb : b == Qsum v.2) by apply py_sum_Qsum.
  assert (Hbpos : 0 < b) by (rewrite Hb; exact Hpos).
  rewrite py_div_nonzero by (intros E; rewrite E in Hbpos; lra).
  eexists. split; [reflexivity|].
  apply Qabs_Qle_condition in Habs as [Hlo Hhi].
  apply Qabs_Qle_condition. split.
  - apply Qle_shift_div_l; [exact Hbpos|]. lra.
  - apply Qle_shift_div_r; [exact Hbpos|]. lra.
Qed.

(** The five classes of a weighted score. *)
Lemma classify_cases (ws : Q) :
  (MarketAnalysis.classify ws = "STRONG_BUY" /\ 0.6 < ws) \/
  (MarketAnalysis.classify ws = "BUY" /\ 0.3 < ws /\ ws <= 0.6) \/
  (MarketAnalysis.classify ws = "HOLD" /\ -0.3 <= ws /\ ws <= 0.3) \/
  (MarketAnalysis.classify ws = "SELL" /\ -0.6 <= ws /\ ws < -0.3) \/
  (MarketAnalysis.classify ws = "STRONG_SELL" /\ ws < -0.6).
Proof.
  unfold MarketAnalysis.classify.
  destruct (Qgtb ws 0.3) eqn:H1.
  - apply Qgtb_gt in H1. destruct (Qgtb ws 0.6) eqn:H2.
    + apply Qgtb_gt in H2. left. auto.
    + apply Qgtb_le in H2. right; left. auto.
  - apply Qgtb_le in H1. destruct (Qltb ws (-0.3)) eqn:H3.
    + apply Qltb_lt in H3. destruct (Qltb ws (-0.6)) eqn:H4.
      * apply Qltb_lt in H4. do 4 right. auto.
      * apply Qltb_ge in H4. do 3 right; left. auto.
    + apply Qltb_ge in H3. right; right; left. auto.
Qed.

Lemma py_min_unit (x : Q) : x <= 1 -> py_min x 1 = x.
Proof.
  intros Hx. unfold py_min.
  assert (E : Qltb 1 x = false) by (apply Qltb_ge; exact Hx).
  now rewrite E.
Qed.

(** X5.  [_analyze_signals] never raises: the sum of the weights it divides
    by is positive as soon as one vote was cast.  Its result is the class of
    a weighted score of magnitude at most one together with that magnitude:
    the cap [min(..., 1.0)] of the confidence is never active. *)
Theorem _analyze_signals_total (latest : MarketData.t) (trend_strength : Q)
    (volatility : option Q) (volume_profile : string) :
  exists ws,
    MarketAnalysis._analyze_signals latest trend_strength volatility
      volume_profile
    = Some (MarketAnalysis.classify ws, Qabs ws) /\
    Qabs ws <= 1.
Proof.
  unfold MarketAnalysis._analyze_signals.
  pose proof (sound_gather_votes latest trend_strength volume_profile) as Hv.
  destruct ((MarketAnalysis.gather_votes latest trend_strength
               volume_profile).1) as [|s rest] eqn:Hvotes.
  - exists 0. split; [reflexivity | vm_compute; discriminate].
  - destruct (weighted_signal_bounded _ Hv) as (ws & Hws & Hbound).
    { rewrite Hvotes. discriminate. }
    rewrite Hws. simpl. exists ws.
    rewrite (py_min_unit _ Hbound). auto.
Qed.

Lemma no_indicator_votes_gather latest_data :
  no_indicator_votes latest_data ->
  MarketAnalysis.sma_vote latest_data
    (MarketAnalysis.macd_vote latest_data
       (MarketAnalysis.rsi_vote latest_data ([], []))) = ([], []).
Proof.
  intros (Hrsi & Hmacd & Hsma).
  unfold MarketAnalysis.rsi_vote, MarketAnalysis.macd_vote,
    MarketAnalysis.sma_vote.
  destruct (MarketData.rsi_14 latest_data) as [rsi|];
    [rewrite Hrsi|];
    (destruct (MarketData.macd latest_data) as [macd|];
     [destruct (MarketData.macd_signal latest_data) as [macd_signal|];
      [rewrite Hmacd|]|]);
    (destruct (MarketData.sma_20 latest_data) as [sma_20|];
     [destruct (MarketData.sma_50 latest_data) as [sma_50|];
      [rewrite Hsma|]|]);
    reflexivity.
Qed.

(** X6.  When no indicator of the newest row casts a vote (each is absent
    or zero) and the trend is strong ([trend_strength > 0.7], which does
    not tell the direction of the trend) or the volume is HIGH,
    [_analyze_signals] answers STRONG_SELL with confidence one: the vote
    [1 if sum(signals) > 0 else -1] is cast on an empty list, whose sum is
    not positive. *)
Theorem lone_confirmation_is_a_strong_sell (latest : MarketData.t)
    (trend_strength : Q) (volatility : option Q) (volume_profile : string) :
  no_indicator_votes latest ->
  0.7 < trend_strength \/ volume_profile = "HIGH" ->
  exists confidence,
    MarketAnalysis._analyze_signals latest trend_strength volatility
      volume_profile = Some ("STRONG_SELL", confidence) /\
    confidence == 1.
Proof.
  intros Hnone Hconfirm.
  unfold MarketAnalysis._analyze_signals, MarketAnalysis.gather_votes.
  rewrite (no_indicator_votes_gather latest Hnone).
  unfold MarketAnalysis.trend_vote, MarketAnalysis.volume_vote.
  destruct (Qgtb trend_strength 0.7) eqn:Ht;
    destruct (String.eqb volume_profile "HIGH") eqn:Hv.
  - eexists. split; vm_compute; reflexivity.
  - eexists. split; vm_compute; reflexivity.
  - eexists. split; vm_compute; reflexivity.
  - exfalso. destruct Hconfirm as [H | H].
    + apply Qgtb_gt in H. congruence.
    + apply String.eqb_eq in H. congruence.
Qed.

(** A row that only carries a zero RSI, in a strong trend. *)
Lemma lone_confirmation_is_a_strong_sell_witness :
  exists confidence,
    MarketAnalysis._analyze_signals
      (MarketData.mk 0 1 0 120 121 119 120 10 (Some 0) None None None
         None None None None None None None)
      0.9 (Some 1) "MEDIUM" = Some ("STRONG_SELL", confidence) /\
    confidence == 1.
Proof.
  apply lone_confirmation_is_a_strong_sell.
  - repeat split.
  - left. reflexivity.
Defined.

(** ** Trade levels and position size *)

Lemma vol_factor_range (volatility : Q) :
  0.005 <= py_max 0.005 (py_min (volatility / 100) 0.05) /\
  py_max 0.005 (py_min (volatility / 100) 0.05) <= 0.05.
Proof.
  split; [apply py_max_ge_l|].
  destruct (py_max_cases 0.005 (py_min (volatility / 100) 0.05)) as [-> | ->].
  - lra.
  - apply py_min_le_r.
Qed.

(** X7.  For a positive price, [_calculate_trade_levels] enters at the
    price and puts the stop on the losing side, between 0.5% and 5% away
    from it: below the entry for a buy, above it for any other signal type.
    The target is at most 10% above the entry of a buy, at most 10% below
    the entry of a sell. *)
Theorem _calculate_trade_levels_bounds (current_price : Q)
    (signal_type : string) (volatility support resistance : option Q)
    (entry_price target_price stop_loss_price : Q) :
  0 < current_price ->
  MarketAnalysis._calculate_trade_levels current_price signal_type volatility
    support resistance = Some (entry_price, target_price, stop_loss_price) ->
  entry_price = current_price /\
  if MarketAnalysis.is_buy signal_type
  then 0.95 * current_price <= stop_loss_price /\
       stop_loss_price <= 0.995 * current_price /\
       target_price <= 1.1 * current_price
  else 1.005 * current_price <= stop_loss_price /\
       stop_loss_price <= 1.05 * current_price /\
       0.9 * current_price <= target_price.
Proof.
  intros Hprice. unfold MarketAnalysis._calculate_trade_levels.
  destruct volatility as [vol|]; simpl; [|discriminate].
  pose proof (vol_factor_range vol) as [Hlo Hhi].
  set (f := py_max 0.005 (py_min (vol / 100) 0.05)) in *.
  destruct (MarketAnalysis.is_buy signal_type).
  - intros [= <- <- <-]. split; [reflexivity|].
    split; [nra|]. split; [nra|].
    assert (Hraw : current_price * (1 + f * 2) <= 1.1 * current_price) by nra.
    destruct resistance as [r|]; [|exact Hraw].
    destruct (truthy (Some r) && Qgtb r current_price); [|exact Hraw].
    pose proof (py_min_le_l (current_price * (1 + f * 2)) (r * 0.99)). lra.
  - intros [= <- <- <-]. split; [reflexivity|].
    split; [nra|]. split; [nra|].
    assert (Hraw : 0.9 * current_price <= current_price * (1 - f * 2)) by nra.
    destruct support as [s|]; [|exact Hraw].
    destruct (truthy (Some s) && Qltb s current_price); [|exact Hraw].
    pose proof (py_max_ge_l (current_price * (1 - f * 2)) (s * 1.01)). lra.
Qed.

Lemma _calculate_trade_levels_bounds_witness :
  exists entry_price target_price stop_loss_price,
    MarketAnalysis._calculate_trade_levels 100 "BUY" (Some 2) None (Some 103)
    = Some (entry_price, target_price, stop_loss_price) /\
    entry_price = 100 /\
    0.95 * 100 <= stop_loss_price /\ stop_loss_price <= 0.995 * 100 /\
    target_price <= 1.1 * 100.
Proof.
  destruct (MarketAnalysis._calculate_trade_levels 100 "BUY" (Some 2) None
              (Some 103)) as [[[entry_price target_price] stop_loss_price]|]
    eqn:Hlevels; [|vm_compute in Hlevels; discriminate Hlevels].
  exists entry_price, target_price, stop_loss_price.
  split; [reflexivity|].
  apply (_calculate_trade_levels_bounds 100 "BUY" (Some 2) None (Some 103)).
  - reflexivity.
  - exact Hlevels.
Defined.

(** X8.  A level close to the price puts the target on the wrong side of
    the entry: for a buy, a resistance above the price but less than about
    1.01% above it ([resistance * 0.99 < price]) caps the target below the
    entry price; for a sell, a support below the price with
    [support * 1.01 > price] lifts the target above the entry price. *)
Theorem target_beyond_a_near_level (current_price : Q) (signal_type : string)
    (volatility support resistance : option Q)
    (entry_price target_price stop_loss_price : Q) :
  0 < current_price ->
  MarketAnalysis._calculate_trade_levels current_price signal_type volatility
    support resistance = Some (entry_price, target_price, stop_loss_price) ->
  (MarketAnalysis.is_buy signal_type = true ->
   forall r, resistance = Some r -> current_price < r ->
             r * 0.99 < current_price -> target_price < entry_price) /\
  (MarketAnalysis.is_buy signal_type = false ->
   forall s, support = Some s -> s < current_price ->
             current_price < s * 1.01 -> entry_price < target_price).
Proof.
  intros Hprice. unfold MarketAnalysis._calculate_trade_levels.
  destruct volatility as [vol|]; simpl; [|discriminate].
  set (f := py_max 0.005 (py_min (vol / 100) 0.05)) in *.
  destruct (MarketAnalysis.is_buy signal_type);
    intros [= <- <- <-]; split; try discriminate;
    intros _ level -> Hside Hnear.
  - assert (Htruthy : truthy (Some level) = true).
    { unfold truthy. destruct (Qeq_bool level 0) eqn:E; [|reflexivity].
      apply Qeq_bool_iff in E. lra. }
    assert (Hgt : Qgtb level current_price = true) by (apply Qgtb_gt; exact Hside).
    rewrite Htruthy, Hgt. simpl.
    pose proof (py_min_le_r (current_price * (1 + f * 2)) (level * 0.99)). lra.
  - assert (Htruthy : truthy (Some level) = true).
    { unfold truthy. destruct (Qeq_bool level 0) eqn:E; [|reflexivity].
      apply Qeq_bool_iff in E. lra. }
    assert (Hlt : Qltb level current_price = true) by (apply Qltb_lt; exact Hside).
    rewrite Htruthy, Hlt. simpl.
    pose proof (py_max_ge_r (current_price * (1 - f * 2)) (level * 1.01)). lra.
Qed.

(** A buy at 100 under a resistance at 100.5: the target is 99.495. *)
Lemma target_beyond_a_near_level_witness :
  exists entry_price target_price stop_loss_price,
    MarketAnalysis._calculate_trade_levels 100 "BUY" (Some 2) None
      (Some 100.5)
    = Some (entry_price, target_price, stop_loss_price) /\
    target_price < entry_price.
Proof.
  destruct (MarketAnalysis._calculate_trade_levels 100 "BUY" (Some 2) None
              (Some 100.5)) as [[[entry_price target_price] stop_loss_price]|]
    eqn:Hlevels; [|vm_compute in Hlevels; discriminate Hlevels].
  exists entry_price, target_price, stop_loss_price.
  split; [reflexivity|].
  eapply (proj1 (target_beyond_a_near_level 100 "BUY" (Some 2) None
                   (Some 100.5) entry_price target_price stop_loss_price
                   eq_refl Hlevels)); reflexivity.
Defined.

Lemma position_size_range (confidence : Q) (volatility : option Q) (size : Q) :
  0 <= confidence -> confidence <= 1 ->
  MarketAnalysis._calculate_position_size confidence volatility = Some size ->
  confidence <= size /\ size <= 5.
Proof.
  intros H0 H1. unfold MarketAnalysis._calculate_position_size.
  destruct volatility as [vol|]; simpl; [|discriminate].
  intros [= <-].
  pose proof (py_max_ge_l 0.5 (1 - vol / 10)) as Hfloor.
  set (vf := py_max 0.5 (1 - vol / 10)) in *.
  split.
  - destruct (py_min_cases (2 * confidence * vf) 5) as [-> | ->]; [nra | lra].
  - apply py_min_le_r.
Qed.

(** X9.  For a confidence between 0 and 1, [_calculate_position_size]
    recommends a percentage that is at least the confidence, at most 5, and
    at most twice the confidence when the volatility is not negative. *)
Theorem _calculate_position_size_bounds (confidence : Q)
    (volatility : option Q) (size : Q) :
  0 <= confidence -> confidence <= 1 ->
  MarketAnalysis._calculate_position_size confidence volatility = Some size ->
  confidence <= size /\ size <= 5 /\
  (forall vol, volatility = Some vol -> 0 <= vol -> size <= 2 * confidence).
Proof.
  intros H0 H1 Hsize.
  destruct (position_size_range _ _ _ H0 H1 Hsize) as [Hlo Hhi].
  split; [exact Hlo|]. split; [exact Hhi|].
  intros vol -> Hvol. revert Hsize.
  unfold MarketAnalysis._calculate_position_size. simpl. intros [= <-].
  pose proof (py_min_le_l (2 * confidence * py_max 0.5 (1 - vol / 10)) 5)
    as Hle.
  assert (Hvf : py_max 0.5 (1 - vol / 10) <= 1).
  { destruct (py_max_cases 0.5 (1 - vol / 10)) as [-> | ->]; [lra|].
    assert (0 <= vol / 10) by (apply Qle_shift_div_l; lra). lra. }
  set (vf := py_max 0.5 (1 - vol / 10)) in *.
  nra.
Qed.

Lemma _calculate_position_size_bounds_witness :
  exists size,
    MarketAnalysis._calculate_position_size 0.7 (Some 1) = Some size /\
    0.7 <= size /\ size <= 5.
Proof.
  destruct (MarketAnalysis._calculate_position_size 0.7 (Some 1)) as [size|]
    eqn:Hsize; [|vm_compute in Hsize; discriminate Hsize].
  exists size. split; [reflexivity|].
  destruct (_calculate_position_size_bounds 0.7 (Some 1) size) as (Hlo & Hhi & _).
  - vm_compute. discriminate.
  - vm_compute. discriminate.
  - exact Hsize.
  - split; assumption.
Defined.

(** ** What a generated signal looks like *)

Section GeneratedSignal.

Variables np_sqrt np_log : Q -> Q.
Variables (new_id pair_id : uuid) (now : datetime).

(** The parts of a returned signal, as the method computed them. *)
Lemma generate_trading_signal_parts market_data signal :
  MarketAnalysis.generate_trading_signal np_sqrt np_log new_id pair_id now
    market_data = Some signal ->
  exists latest vol,
    head market_data = Some latest /\
    volatility_of np_sqrt np_log market_data = Some vol /\
    MarketAnalysis._analyze_signals latest (trend_of market_data) (Some vol)
      (volume_profile_of market_data)
    = Some (TradingSignal.signal_type signal, TradingSignal.confidence signal) /\
    String.eqb (TradingSignal.signal_type signal) "HOLD" = false /\
    Qltb (TradingSignal.confidence signal) 0.6 = false /\
    MarketAnalysis._calculate_trade_levels (MarketData.close_price latest)
      (TradingSignal.signal_type signal) (Some vol)
      (TradingSignal.support_level signal)
      (TradingSignal.resistance_level signal)
    = Some (TradingSignal.entry_price signal, TradingSignal.target_price signal,
            TradingSignal.stop_loss_price signal) /\
    MarketAnalysis._calculate_position_size (TradingSignal.confidence signal)
      (Some vol)
    = Some (TradingSignal.position_size_recommendation signal) /\
    TradingSignal.id signal = new_id /\
    TradingSignal.pair_id signal = pair_id /\
    TradingSignal.created_at signal = now /\
    TradingSignal.expires_at signal = Some (now + 7200)%Z /\
    TradingSignal.is_active signal = true.
Proof.
  unfold MarketAnalysis.generate_trading_signal.
  destruct (length market_data <? 20)%nat; [discriminate|].
  destruct (head market_data) as [latest|]; simpl; [|discriminate].
  destruct (MarketAnalysis.identify_support_resistance _ _ _)
    as [support resistance].
  fold (trend_of market_data) (volatility_of np_sqrt np_log market_data)
    (volume_profile_of market_data).
  destruct (MarketAnalysis._analyze_signals latest (trend_of market_data)
              (volatility_of np_sqrt np_log market_data)
              (volume_profile_of market_data))
    as [[signal_type confidence]|] eqn:Hcandidate; simpl; [|discriminate].
  destruct (String.eqb signal_type "HOLD") eqn:Hhold; simpl; [discriminate|].
  destruct (Qltb confidence 0.6) eqn:Hconf; [discriminate|].
  destruct (MarketAnalysis._calculate_trade_levels _ _ _ _ _)
    as [[[entry target] stop]|] eqn:Hlevels; simpl; [|discriminate].
  destruct (MarketAnalysis._calculate_position_size _ _) as [size|] eqn:Hsize;
    simpl; [|discriminate].
  destruct (volatility_of np_sqrt np_log market_data) as [vol|] eqn:Hvol;
    simpl; [|discriminate].
  intros [= <-]. simpl.
  exists latest, vol. repeat split; assumption.
Qed.

End GeneratedSignal.

(** X11.  A signal returned by [generate_trading_signal] is a BUY, a
    STRONG_BUY, a SELL or a STRONG_SELL; the plain classes BUY and SELL pass
    the confidence gate only with a confidence of exactly 0.6, the strong
    classes have a confidence above 0.6.  It enters at the close of the
    newest row, recommends between 0.6% and 5% of the portfolio, and expires
    two hours after its creation. *)
Theorem generated_signal_shape (np_sqrt np_log : Q -> Q)
    (new_id pair_id : uuid) (now : datetime)
    (market_data : list MarketData.t) (signal : TradingSignal.t) :
  MarketAnalysis.generate_trading_signal np_sqrt np_log new_id pair_id now
    market_data = Some signal ->
  ((TradingSignal.signal_type signal = "BUY" \/
    TradingSignal.signal_type signal = "SELL") /\
   TradingSignal.confidence signal == 0.6 \/
   (TradingSignal.signal_type signal = "STRONG_BUY" \/
    TradingSignal.signal_type signal = "STRONG_SELL") /\
   0.6 < TradingSignal.confidence signal) /\
  Some (TradingSignal.entry_price signal)
  = MarketData.close_price <$> head market_data /\
  0.6 <= TradingSignal.position_size_recommendation signal /\
  TradingSignal.position_size_recommendation signal <= 5 /\
  TradingSignal.expires_at signal
  = Some (TradingSignal.created_at signal + 7200)%Z.
Proof.
  intros Hgen.
  apply generate_trading_signal_parts in Hgen
    as (latest & vol & Hhead & _ & Hcand & Hhold & Hconf & Hlevels & Hsize
        & _ & _ & Hcreated & Hexpires & _).
  apply Qltb_ge in Hconf.
  pose proof (_analyze_signals_confidence _ _ _ _ _ _ Hcand) as [Hc0 Hc1].
  split; [|split; [|split; [|split]]].
  - apply _analyze_signals_result in Hcand
      as [[Htype _] | (ws & _ & Htype & Hc)].
    { rewrite Htype in Hhold. discriminate Hhold. }
    rewrite Htype in Hhold |- *. rewrite Hc in Hconf |- *.
    pose proof (py_min_le_l (Qabs ws) 1) as Hcap.
    destruct (classify_cases ws)
      as [[E H] | [[E H] | [[E H] | [[E H] | [E H]]]]]; rewrite E in *.
    + right. split; [now left|].
      destruct (py_min_cases (Qabs ws) 1) as [-> | ->]; [|lra].
      apply Qabs_case; intros; lra.
    + left. split; [now left|].
      apply Qle_antisym; [|exact Hconf].
      revert Hcap. apply Qabs_case; intros; lra.
    + discriminate Hhold.
    + left. split; [now right|].
      apply Qle_antisym; [|exact Hconf].
      revert Hcap. apply Qabs_case; intros; lra.
    + right. split; [now right|].
      destruct (py_min_cases (Qabs ws) 1) as [-> | ->]; [|lra].
      apply Qabs_case; intros; lra.
  - rewrite Hhead. simpl. f_equal.
    unfold MarketAnalysis._calculate_trade_levels in Hlevels. simpl in Hlevels.
    destruct (MarketAnalysis.is_buy _); now injection Hlevels.
  - destruct (position_size_range _ _ _ Hc0 Hc1 Hsize) as (H & _). lra.
  - now destruct (position_size_range _ _ _ Hc0 Hc1 Hsize) as (_ & H).
  - rewrite Hexpires, Hcreated. reflexivity.
Qed.

(** Twenty-one bullish rows give a STRONG_BUY. *)
Lemma generated_signal_shape_witness :
  exists signal,
    MarketAnalysis.generate_trading_signal (fun x => x) (fun x => x) 7 1 0
      (replicate 21 bullish_row) = Some signal /\
    0.6 <= TradingSignal.position_size_recommendation signal /\
    TradingSignal.position_size_recommendation signal <= 5.
Proof.
  destruct (MarketAnalysis.generate_trading_signal (fun x => x) (fun x => x)
              7 1 0 (replicate 21 bullish_row)) as [signal|] eqn:Hgen;
    [|vm_compute in Hgen; discriminate Hgen].
  exists signal. split; [reflexivity|].
  destruct (generated_signal_shape (fun x => x) (fun x => x) 7%nat 1%nat 0%Z
              (replicate 21 bullish_row) signal Hgen)
    as (_ & _ & Hlo & Hhi & _).
  split; assumption.
Defined.

(** X12.  The guard of [generate_trading_signal] lets series of 20 rows
    through, but [calculate_volatility] needs 21 prices: with 20 rows or
    fewer the volatility is [None], the computation of the trade levels
    raises and no signal is returned, whatever the indicators say. *)
Theorem generate_trading_signal_needs_21_rows (np_sqrt np_log : Q -> Q)
    (new_id pair_id : uuid) (now : datetime)
    (market_data : list MarketData.t) :
  (length market_data <= 20)%nat ->
  MarketAnalysis.generate_trading_signal np_sqrt np_log new_id pair_id now
    market_data = None.
Proof.
  intros Hlen.
  destruct (MarketAnalysis.generate_trading_signal np_sqrt np_log new_id
              pair_id now market_data) as [signal|] eqn:Hgen; [|reflexivity].
  exfalso.
  apply generate_trading_signal_parts in Hgen
    as (latest & vol & _ & Hvol & _).
  unfold volatility_of, MarketAnalysis.calculate_volatility in Hvol.
  rewrite length_map, length_reverse in Hvol.
  assert (E : (length market_data <? 20 + 1)%nat = true)
    by (apply Nat.ltb_lt; lia).
  rewrite E in Hvol. discriminate Hvol.
Qed.

(** Twenty bullish rows, one short of the twenty-one that give a signal. *)
Lemma generate_trading_signal_needs_21_rows_witness :
  MarketAnalysis.generate_trading_signal (fun x => x) (fun x => x) 7 1 0
    (replicate 20 bullish_row) = None.
Proof.
  apply generate_trading_signal_needs_21_rows. simpl. lia.
Defined.

(** ** Relations kept by the other operations *)

Section MoreFrames.

Variable Ip : list Position.t -> list Position.t -> Prop.
Hypothesis Ip_refl : forall l, Ip l l.
Hypothesis Ip_trans : forall l1 l2 l3, Ip l1 l2 -> Ip l2 l3 -> Ip l1 l3.

Variable exchange : Kraken.Exchange.

Hypothesis Ip_fill : forall pred avg filled t l,
  Ip l (update_where pred (PositionRow.set_fill avg filled t) l).
Hypothesis Ip_pnl : forall pred current unrealized max_pnl max_loss t l,
  Ip l (update_where pred
          (PositionRow.set_pnl current unrealized max_pnl max_loss t) l).
Hypothesis Ip_stop : forall pred stop l,
  Ip l (update_where pred (PositionRow.set_stop_loss_price stop) l).

Lemma keeps_set_portfolio_id i : keeps Ip (modify (set_portfolio_id i)).
Proof. intros w. apply Ip_refl. Qed.

Lemma keeps_initialize_portfolio : keeps Ip _initialize_portfolio.
Proof.
  pose proof keeps_set_portfolio_id.
  unfold _initialize_portfolio. repeat keeps_step.
Qed.

Lemma keeps_check_risk_limits : keeps Ip check_risk_limits.
Proof. intros w. rewrite check_risk_limits_pure. apply Ip_refl. Qed.

Lemma keeps_calculate_portfolio_metrics : keeps Ip calculate_portfolio_metrics.
Proof.
  unfold calculate_portfolio_metrics, _update_portfolio_metrics.
  repeat keeps_step.
Qed.

Lemma keeps_adjust_stop_loss position_id new_stop_price :
  keeps Ip (adjust_stop_loss exchange position_id new_stop_price).
Proof.
  unfold adjust_stop_loss. repeat keeps_step.
  all: try (apply keeps_set_positions; intros; apply Ip_stop).
Qed.

Lemma keeps_check_trailing_stop position current_price :
  keeps Ip (_check_trailing_stop exchange position current_price).
Proof.
  pose proof keeps_adjust_stop_loss.
  unfold _check_trailing_stop. repeat keeps_step.
Qed.

Lemma keeps_monitor_position_step position adjustments :
  keeps Ip (monitor_position_step exchange position adjustments).
Proof.
  pose proof keeps_check_trailing_stop.
  pose proof (keeps_update_position_pnl Ip Ip_refl Ip_trans Ip_pnl).
  unfold monitor_position_step. repeat keeps_step.
Qed.

Lemma keeps_monitor_positions_loop open_positions adjustments :
  keeps Ip (monitor_positions_loop exchange open_positions adjustments).
Proof.
  revert adjustments.
  induction open_positions as [|position rest IH]; intros adjustments; simpl.
  - apply keeps_ret, Ip_refl.
  - apply keeps_bind; [assumption | | intros ?; apply IH].
    apply keeps_monitor_position_step.
Qed.

Lemma keeps_monitor_positions : keeps Ip (monitor_positions exchange).
Proof.
  pose proof keeps_monitor_positions_loop.
  pose proof (keeps_monitor_orders Ip Ip_refl Ip_trans exchange Ip_fill).
  unfold monitor_positions. repeat keeps_step.
Qed.

Lemma keeps_run_ticks (n : nat) (w : World) :
  Ip (positions w) (positions (run_ticks exchange n w)).
Proof.
  revert w. induction n as [|n IH]; intros w; simpl; [apply Ip_refl|].
  eapply Ip_trans; [|apply IH]. apply keeps_monitor_positions.
Qed.

Hypothesis Ip_closed : forall pred t l,
  Ip l (update_where pred (PositionRow.set_closed t) l).

Lemma keeps_cancel_child child : keeps Ip (cancel_child exchange child).
Proof. unfold cancel_child. repeat keeps_step. Qed.

Lemma keeps_cancel_position_orders position_id :
  keeps Ip (_cancel_position_orders exchange position_id).
Proof.
  pose proof keeps_cancel_child.
  unfold _cancel_position_orders. repeat keeps_step.
Qed.

Lemma keeps_close_position position_id :
  keeps Ip (close_position exchange position_id).
Proof.
  pose proof keeps_cancel_position_orders.
  unfold close_position. repeat keeps_step.
  all: try (apply keeps_set_positions; intros; apply Ip_closed).
Qed.

Hypothesis Ip_opened : forall l p,
  as_opened p -> Position.is_open p = true -> Ip l (l ++ [p]).

Lemma keeps_create_bracket_order signal position_size_usd :
  keeps Ip (create_bracket_order exchange signal position_size_usd).
Proof.
  unfold create_bracket_order. repeat keeps_step.
  all: try (apply keeps_set_positions; intros; apply Ip_opened;
            [split|]; reflexivity).
Qed.

Lemma keeps_execute_loop portfolio_data signals acc :
  keeps Ip (execute_loop exchange portfolio_data signals acc).
Proof.
  revert acc. induction signals as [|signal rest IH]; intros acc; simpl.
  - apply keeps_ret, Ip_refl.
  - destruct (Qltb _ 50); [apply IH|].
    apply keeps_bind; [assumption | apply keeps_create_bracket_order|].
    intros [p|]; apply IH.
Qed.

Lemma keeps_execute_trading_signals signals :
  keeps Ip (execute_trading_signals exchange signals).
Proof.
  pose proof keeps_execute_loop. pose proof keeps_check_risk_limits.
  unfold execute_trading_signals. repeat keeps_step.
Qed.

Lemma keeps_perform op w : Ip (positions w) (positions (perform exchange op w)).
Proof.
  destruct op; unfold perform, world_after.
  - apply keeps_create_bracket_order.
  - apply keeps_execute_trading_signals.
  - apply (keeps_monitor_orders Ip Ip_refl Ip_trans exchange Ip_fill).
  - apply keeps_monitor_positions.
  - apply keeps_adjust_stop_loss.
  - apply keeps_close_position.
  - apply (keeps_update_position_pnl Ip Ip_refl Ip_trans Ip_pnl).
  - apply keeps_calculate_portfolio_metrics.
  - apply keeps_check_risk_limits.
  - apply keeps_initialize_portfolio.
Qed.

Lemma keeps_perform_all ops w :
  Ip (positions w) (positions (perform_all exchange ops w)).
Proof.
  revert w. induction ops as [|[t op] rest IH]; intros w; simpl;
    [apply Ip_refl|].
  eapply Ip_trans; [|apply IH].
  change (positions w) with (positions (set_clock t w)).
  apply keeps_perform.
Qed.

End MoreFrames.

(** ** What no operation writes *)

Lemma Forall_update_where {A} (P : A -> Prop) (pred : A -> bool) (f : A -> A)
    (l : list A) :
  (forall x, P x -> P (f x)) -> Forall P l -> Forall P (update_where pred f l).
Proof.
  intros Hf H. unfold update_where.
  induction H as [|x l Hx _ IH]; simpl; constructor; [|exact IH].
  destruct (pred x); auto.
Qed.

Lemma Forall_filter_keep {A} (P Q : A -> Prop) `{forall x, Decision (Q x)}
    (l : list A) :
  Forall P l -> Forall P (filter Q l).
Proof.
  induction 1 as [|x l Hx _ IH]; [constructor|].
  rewrite filter_cons. destruct (decide (Q x)); [constructor|]; assumption.
Qed.

(** Every operation leaves the positions as they were opened. *)
Lemma perform_all_as_opened (exchange : Kraken.Exchange)
    (ops : list (datetime * Operation)) (w : World) :
  Forall as_opened (positions w) ->
  Forall as_opened (positions (perform_all exchange ops w)).
Proof.
  apply (keeps_perform_all
           (fun l l' => Forall as_opened l -> Forall as_opened l')).
  - auto.
  - auto.
  - intros. apply Forall_update_where; [|assumption]. intros x Hx; exact Hx.
  - intros. apply Forall_update_where; [|assumption]. intros x Hx; exact Hx.
  - intros. apply Forall_update_where; [|assumption]. intros x Hx; exact Hx.
  - intros. apply Forall_update_where; [|assumption]. intros x Hx; exact Hx.
  - intros l p Hp _ Hl. apply Forall_app. split; [exact Hl|].
    constructor; [exact Hp | constructor].
Qed.

Section WithoutTrailing.

Variable exchange : Kraken.Exchange.

(** The body of the loop of [monitor_positions], on a row without a
    trailing distance: no stop moves and no adjustment is recorded. *)
Lemma monitor_position_step_without_trailing (s : Position.t)
    (adjustments : list Adjustment) (w : World) :
  Position.trailing_stop_distance s = None ->
  Forall2 same_view (positions w)
    (positions (monitor_position_step exchange s adjustments w).2) /\
  (forall adjustments',
      (monitor_position_step exchange s adjustments w).1 = Some adjustments' ->
      adjustments' = adjustments).
Proof.
  intros Htrail.
  unfold monitor_position_step, bind, get, partial.
  destruct (head (pairs_by_id (Position.pair_id s) w)) as [pair_data|];
    [|split; [apply same_views_refl | discriminate]].
  unfold ret. cbv beta iota.
  pose proof (keeps_get_ticker (Forall2 same_view) same_views_refl
                same_views_trans exchange [CryptoPair.symbol pair_data] w)
    as Hticker.
  destruct (get_ticker exchange [CryptoPair.symbol pair_data] w)
    as [[ticker_data|] w1]; simpl in Hticker |- *;
    [|split; [exact Hticker | discriminate]].
  destruct (ticker_data !! CryptoPair.symbol pair_data) as [current_price|];
    [|split; [exact Hticker | now intros ? [= <-]]].
  pose proof (keeps_update_position_pnl (Forall2 same_view) same_views_refl
                same_views_trans same_views_pnl (Position.id s) current_price w1)
    as Hpnl.
  assert (Hviews : Forall2 same_view (positions w)
                     (positions (update_position_pnl (Position.id s)
                                   current_price w1).2))
    by (eapply same_views_trans; eassumption).
  clear Hticker Hpnl.
  destruct (update_position_pnl (Position.id s) current_price w1)
    as [[updated|] w2]; simpl in Hviews |- *;
    [|split; [exact Hviews | discriminate]].
  rewrite Htrail. simpl.
  split; [exact Hviews | now intros ? [= <-]].
Qed.

Lemma monitor_positions_loop_without_trailing (snapshot : list Position.t)
    (adjustments : list Adjustment) (w : World) :
  Forall (fun s => Position.trailing_stop_distance s = None) snapshot ->
  Forall2 same_view (positions w)
    (positions (monitor_positions_loop exchange snapshot adjustments w).2) /\
  (forall adjustments',
      (monitor_positions_loop exchange snapshot adjustments w).1
      = Some adjustments' ->
      adjustments' = adjustments).
Proof.
  intros Hall. revert adjustments w.
  induction Hall as [|s rest Hs _ IH]; intros adjustments w; simpl.
  - split; [apply same_views_refl | now intros ? [= <-]].
  - unfold bind.
    destruct (monitor_position_step_without_trailing s adjustments w Hs)
      as [Hviews Hadj].
    destruct (monitor_position_step exchange s adjustments w)
      as [[adjustments1|] w1]; simpl in Hviews, Hadj |- *;
      [|split; [exact Hviews | discriminate]].
    rewrite (Hadj adjustments1 eq_refl).
    destruct (IH adjustments w1) as [Hviews' Hadj'].
    split; [eapply same_views_trans; eassumption | exact Hadj'].
Qed.

(** A tick over positions without a trailing distance. *)
Lemma monitor_positions_without_trailing (w : World) :
  Forall as_opened (positions w) ->
  Forall2 same_view (positions w)
    (positions (world_after (monitor_positions exchange) w)) /\
  (forall r,
      result_of (monitor_positions exchange) w = Some (Some r) ->
      position_adjustments r = []).
Proof.
  intros Hopened.
  unfold world_after, result_of, monitor_positions, try_except, bind, get.
  pose proof (keeps_monitor_orders (Forall2 same_view) same_views_refl
                same_views_trans exchange same_views_fill w) as Horders.
  pose proof (keeps_monitor_orders
                (fun l l' => Forall as_opened l -> Forall as_opened l')
                (fun l H => H) (fun l1 l2 l3 H1 H2 H => H2 (H1 H)) exchange
                (fun pred avg filled t l H =>
                   Forall_update_where as_opened pred
                     (PositionRow.set_fill avg filled t) l (fun x Hx => Hx) H)
                w Hopened) as Hkept.
  destruct (monitor_orders exchange w) as [[order_updates|] w1];
    simpl in Horders, Hkept |- *;
    [|split; [exact Horders | discriminate]].
  assert (Hsnapshot :
            Forall (fun s => Position.trailing_stop_distance s = None)
              (all_open_positions w1)).
  { unfold all_open_positions. apply Forall_filter_keep.
    eapply Forall_impl; [exact Hkept|]. intros p [Hp _]. exact Hp. }
  destruct (monitor_positions_loop_without_trailing (all_open_positions w1) []
              w1 Hsnapshot) as [Hviews Hadj].
  destruct (monitor_positions_loop exchange (all_open_positions w1) [] w1)
    as [[adjustments|] w2]; simpl in Hviews, Hadj |- *.
  - split; [eapply same_views_trans; eassumption|].
    intros r [= <-]. simpl. now apply Hadj.
  - split; [eapply same_views_trans; eassumption | discriminate].
Qed.

End WithoutTrailing.

(** X13.  No operation of the services sets a trailing distance or a
    realized P&L.  From a database whose positions have none (an empty
    table, for one), after any sequence of operations, at any times and
    whatever the exchange answers, every position is still without a
    trailing distance and with a realized P&L of zero; so a tick of
    [monitor_positions] records no stop adjustment and leaves every stop
    where it is: the trailing stop never fires. *)
Theorem trailing_stop_never_fires (exchange : Kraken.Exchange)
    (ops : list (datetime * Operation)) (w : World) :
  Forall as_opened (positions w) ->
  let w' := perform_all exchange ops w in
  Forall as_opened (positions w') /\
  Forall2 same_view (positions w')
    (positions (world_after (monitor_positions exchange) w')) /\
  (forall r,
      result_of (monitor_positions exchange) w' = Some (Some r) ->
      position_adjustments r = []).
Proof.
  intros Hopened w'.
  assert (Hkept : Forall as_opened (positions w'))
    by (apply perform_all_as_opened; exact Hopened).
  split; [exact Hkept|].
  now apply monitor_positions_without_trailing.
Qed.

(** The sample signal is executed, its fill reconciled, the price marked at
    150: the stop of the position stays at 98. *)
Lemma trailing_stop_never_fires_witness :
  Forall as_opened (positions empty_world) /\
  let w' :=
    perform_all exchange_up
      [(1000%Z, CreateBracketOrder sample_signal 100);
       (1010%Z, MonitorPositions);
       (1020%Z, UpdatePositionPnl 11 150)] empty_world in
  map Position.stop_loss_price (positions w') = [Some 98] /\
  Forall as_opened (positions w') /\
  forall r,
    result_of (monitor_positions exchange_up) w' = Some (Some r) ->
    position_adjustments r = [].
Proof.
  assert (H0 : Forall as_opened (positions empty_world)) by constructor.
  split; [exact H0|]. intros w'. split; [vm_compute; reflexivity|].
  destruct (trailing_stop_never_fires exchange_up
              [(1000%Z, CreateBracketOrder sample_signal 100);
               (1010%Z, MonitorPositions);
               (1020%Z, UpdatePositionPnl 11 150)] empty_world H0)
    as (Hkept & _ & Hadj).
  split; [exact Hkept | exact Hadj].
Defined.

Lemma same_holding_refl p : same_holding p p.
Proof. repeat split. Qed.

Lemma same_holding_trans p1 p2 p3 :
  same_holding p1 p2 -> same_holding p2 p3 -> same_holding p1 p3.
Proof.
  unfold same_holding.
  intros (A1 & A2 & A3 & A4 & A5 & A6 & A7) (B1 & B2 & B3 & B4 & B5 & B6 & B7).
  repeat split; congruence.
Qed.

(** X14.  Reconciliation never closes a position: over any number of ticks
    of [monitor_positions], whatever the exchange reports (the fill of a
    stop-loss or of a take-profit order included), every position row keeps
    its identifier, side and amount, stays as open as it was, and its
    closing time, realized P&L and trailing distance are not touched. *)
Theorem reconciliation_never_closes_a_position (exchange : Kraken.Exchange)
    (n : nat) (w : World) :
  Forall2 same_holding (positions w) (positions (run_ticks exchange n w)).
Proof.
  apply (keeps_run_ticks (Forall2 same_holding)).
  - intros l. apply Forall2_diag, same_holding_refl.
  - intros l1 l2 l3. apply Forall2_compose, same_holding_trans.
  - intros. apply Forall2_update_where; intros; repeat split.
  - intros. apply Forall2_update_where; intros; repeat split.
  - intros. apply Forall2_update_where; intros; repeat split.
Qed.

(** ** The figures of the portfolio accountant *)

Lemma Forall_insert_desc {A} (P : A -> Prop) (geb : A -> A -> bool) (x : A)
    (l : list A) :
  P x -> Forall P l -> Forall P (insert_desc geb x l).
Proof.
  intros Hx Hl. induction Hl as [|y l Hy Hl IH]; simpl.
  - repeat constructor. exact Hx.
  - destruct (geb x y); repeat constructor; assumption.
Qed.

Lemma Forall_sort_desc {A} (P : A -> Prop) (geb : A -> A -> bool) (l : list A) :
  Forall P l -> Forall P (sort_desc geb l).
Proof.
  unfold sort_desc. induction 1 as [|x l Hx _ IH]; simpl; [constructor|].
  now apply Forall_insert_desc.
Qed.

Lemma py_sum_of_zeros {A} (f : A -> Q) (l : list A) :
  Forall (fun x => f x = 0) l -> py_sum (map f l) = 0.
Proof.
  unfold py_sum. induction 1 as [|x l Hx _ IH]; simpl; [reflexivity|].
  rewrite Hx. exact IH.
Qed.

Lemma filter_none {A} (P : A -> Prop) `{forall x, Decision (P x)} (l : list A) :
  Forall (fun x => ~ P x) l -> filter P l = [].
Proof.
  induction 1 as [|x l Hx _ IH]; [reflexivity|].
  rewrite filter_cons. now destruct (decide (P x)).
Qed.

(** The metrics of a table whose rows have no realized P&L. *)
Lemma compute_metrics_without_realized (positions : list Position.t)
    (portfolio_data : Portfolio.t) (today : Z) :
  Forall (fun p => Position.realized_pnl p = 0) positions ->
  let metrics := compute_metrics positions portfolio_data today in
  m_realized_pnl metrics = 0 /\ m_daily_pnl metrics = 0 /\
  m_winning_trades metrics = 0%nat /\ m_losing_trades metrics = 0%nat /\
  m_win_rate metrics == 0 /\ m_average_win metrics = 0 /\
  m_average_loss metrics = 0 /\ m_profit_factor metrics = 0 /\
  m_total_pnl metrics == m_unrealized_pnl metrics.
Proof.
  intros Hzero. unfold compute_metrics.
  cbn [m_realized_pnl m_daily_pnl m_winning_trades m_losing_trades m_win_rate
       m_average_win m_average_loss m_profit_factor m_total_pnl
       m_unrealized_pnl].
  set (closed := filter (fun p => ¬ Position.is_open p) positions).
  assert (Hclosed : Forall (fun p => Position.realized_pnl p = 0) closed)
    by (apply Forall_filter_keep; exact Hzero).
  assert (Hwin : filter (fun p => Qgtb (Position.realized_pnl p) 0 = true)
                   closed = []).
  { apply filter_none. eapply Forall_impl; [exact Hclosed|].
    intros p Hp. rewrite Hp. discriminate. }
  assert (Hlose : filter (fun p => Qltb (Position.realized_pnl p) 0 = true)
                    closed = []).
  { apply filter_none. eapply Forall_impl; [exact Hclosed|].
    intros p Hp. rewrite Hp. discriminate. }
  rewrite Hwin, Hlose. cbn [map length].
  rewrite (py_sum_of_zeros Position.realized_pnl closed Hclosed).
  rewrite (py_sum_of_zeros Position.realized_pnl
             (filter (fun p => ¬ Position.is_open p)
                (filter (fun p => date (Position.opened_at p) = today)
                   positions)))
    by (do 2 apply Forall_filter_keep; exact Hzero).
  repeat split.
  - destruct closed; [reflexivity|]. unfold count_of. simpl length.
    unfold Qdiv. rewrite Qmult_0_l. reflexivity.
  - apply Qplus_0_l.
Qed.

(** X15.  No realized P&L is ever booked.  From a database whose positions
    are as [create_bracket_order] opens them (an empty table, for one),
    after any sequence of operations of the services, the metrics that
    [calculate_portfolio_metrics] returns have a realized P&L and a daily
    P&L of zero, no winning and no losing trade, a win rate and a profit
    factor of zero; and the portfolio row that the risk check reads next
    carries a daily P&L of zero. *)
Theorem realized_pnl_is_never_booked (exchange : Kraken.Exchange)
    (ops : list (datetime * Operation)) (w : World) (metrics : Metrics) :
  Forall as_opened (positions w) ->
  let w' := perform_all exchange ops w in
  result_of calculate_portfolio_metrics w' = Some (Some metrics) ->
  (m_realized_pnl metrics = 0 /\ m_daily_pnl metrics = 0 /\
   m_winning_trades metrics = 0%nat /\ m_losing_trades metrics = 0%nat /\
   m_win_rate metrics == 0 /\ m_average_win metrics = 0 /\
   m_average_loss metrics = 0 /\ m_profit_factor metrics = 0 /\
   m_total_pnl metrics == m_unrealized_pnl metrics) /\
  Portfolio.daily_pnl
    <$> head (portfolio_by_id (world_after calculate_portfolio_metrics w'))
  = Some 0.
Proof.
  intros Hopened w' Hrun.
  assert (Hkept : Forall as_opened (positions w'))
    by (apply perform_all_as_opened; exact Hopened).
  assert (Hzero : Forall (fun p => Position.realized_pnl p = 0)
                    (sort_desc
                       (fun p q => (Position.opened_at q <=? Position.opened_at p)%Z)
                       (positions w'))).
  { apply Forall_sort_desc. eapply Forall_impl; [exact Hkept|].
    now intros p [_ Hp]. }
  unfold result_of, world_after in *.
  pose proof (calculate_portfolio_metrics_run w') as Hcalc.
  destruct (head (portfolio_by_id w')) as [portfolio_data|] eqn:Hrow;
    [|rewrite Hcalc in Hrun; discriminate Hrun].
  cbv zeta in Hcalc. rewrite Hcalc in Hrun |- *.
  injection Hrun as <-.
  pose proof (compute_metrics_without_realized _ portfolio_data
                (date (clock w')) Hzero) as Hm.
  split; [exact Hm|].
  destruct Hm as (_ & Hdaily & _).
  unfold portfolio_by_id. cbn [portfolio portfolio_id set_portfolio snd].
  rewrite (head_filter_update_decide
             (fun p => Some (Portfolio.id p) = portfolio_id w'))
    by (intros x Hx; exact Hx).
  unfold portfolio_by_id in Hrow. rewrite Hrow. cbn -[compute_metrics].
  now rewrite Hdaily.
Qed.

(** A portfolio is created, the sample signal executed, its fill
    reconciled and the position closed at a loss against the market: the
    metrics count one trade and no realized P&L. *)
Lemma realized_pnl_is_never_booked_witness :
  Forall as_opened (positions empty_world) /\
  exists metrics,
    result_of calculate_portfolio_metrics
      (perform_all exchange_up
         [(1000%Z, InitializePortfolio);
          (1010%Z, CreateBracketOrder sample_signal 100);
          (1020%Z, MonitorPositions);
          (1030%Z, ClosePosition 12)] empty_world)
    = Some (Some metrics) /\
    m_total_trades metrics = 1%nat /\
    m_open_positions_count metrics = 0%nat /\
    m_realized_pnl metrics = 0 /\ m_daily_pnl metrics = 0.
Proof.
  assert (H0 : Forall as_opened (positions empty_world)) by constructor.
  split; [exact H0|].
  destruct (result_of calculate_portfolio_metrics
              (perform_all exchange_up
                 [(1000%Z, InitializePortfolio);
                  (1010%Z, CreateBracketOrder sample_signal 100);
                  (1020%Z, MonitorPositions);
                  (1030%Z, ClosePosition 12)] empty_world))
    as [[metrics|]|] eqn:Hrun;
    [|vm_compute in Hrun; discriminate Hrun
     |vm_compute in Hrun; discriminate Hrun].
  exists metrics. split; [reflexivity|].
  destruct (realized_pnl_is_never_booked exchange_up _ empty_world metrics H0
              Hrun) as ((Hr & Hd & _) & _).
  assert (Hm : Some (Some metrics) = Some (Some metrics)) by reflexivity.
  rewrite <- Hrun in Hm at 1. vm_compute in Hm.
  injection Hm as Hm. subst metrics.
  repeat split; reflexivity.
Defined.

Lemma length_filter_split {A} (P : A -> Prop) `{forall x, Decision (P x)}
    (l : list A) :
  (length (filter P l) + length (filter (fun x => ¬ P x) l) = length l)%nat.
Proof.
  induction l as [|x l IH]; [reflexivity|].
  rewrite !filter_cons.
  destruct (decide (P x)) as [Hx | Hx].
  - rewrite decide_False by tauto. simpl. lia.
  - rewrite decide_True by exact Hx. simpl. lia.
Qed.

Lemma length_two_filters {A} (P Q : A -> Prop) `{forall x, Decision (P x)}
    `{forall x, Decision (Q x)} (l : list A) :
  (forall x, P x -> Q x -> False) ->
  (length (filter P l) + length (filter Q l) <= length l)%nat.
Proof.
  intros Hdisjoint. induction l as [|x l IH]; [simpl; lia|].
  rewrite !filter_cons.
  destruct (decide (P x)) as [Hp | Hp]; destruct (decide (Q x)) as [Hq | Hq];
    simpl; try lia.
  exfalso. eauto.
Qed.

Lemma length_insert_desc {A} (geb : A -> A -> bool) (x : A) (l : list A) :
  length (insert_desc geb x l) = S (length l).
Proof.
  induction l as [|y l IH]; [reflexivity|]. simpl.
  destruct (geb x y); simpl; [reflexivity | now rewrite IH].
Qed.

Lemma length_sort_desc {A} (geb : A -> A -> bool) (l : list A) :
  length (sort_desc geb l) = length l.
Proof.
  unfold sort_desc. induction l as [|x l IH]; [reflexivity|]. simpl.
  now rewrite length_insert_desc, IH.
Qed.

Lemma Forall_map_filter {A B} (f : A -> B) (P : A -> Prop) (R : B -> Prop)
    `{forall x, Decision (P x)} (l : list A) :
  (forall x, P x -> R (f x)) -> Forall R (map f (filter P l)).
Proof.
  intros Hf. induction l as [|x l IH]; [constructor|].
  rewrite filter_cons. destruct (decide (P x)); [|exact IH].
  simpl. constructor; auto.
Qed.

Lemma count_ratio_range (a b : nat) :
  (a <= b)%nat -> (1 <= b)%nat ->
  0 <= inject_Z (Z.of_nat a) / inject_Z (Z.of_nat b) * 100 /\
  inject_Z (Z.of_nat a) / inject_Z (Z.of_nat b) * 100 <= 100.
Proof.
  intros Hab Hb.
  pose proof (count_pos b Hb) as Hpos.
  pose proof (count_nonneg a) as Ha.
  assert (Hle : inject_Z (Z.of_nat a) <= inject_Z (Z.of_nat b))
    by (rewrite <- Zle_Qle; lia).
  assert (H0 : 0 <= inject_Z (Z.of_nat a) / inject_Z (Z.of_nat b))
    by (apply Qle_shift_div_l; [exact Hpos | lra]).
  assert (H1 : inject_Z (Z.of_nat a) / inject_Z (Z.of_nat b) <= 1)
    by (apply Qle_shift_div_r; [exact Hpos | lra]).
  split; lra.
Qed.

(** X16.  The metrics that [calculate_portfolio_metrics] returns are
    coherent: every position is counted once, open or closed; the winning
    and the losing trades are closed ones; the win rate lies between 0 and
    100; the average win, the profit factor and the current drawdown are
    not negative and the average loss is not positive. *)
Theorem calculate_portfolio_metrics_coherent (w : World) (metrics : Metrics) :
  result_of calculate_portfolio_metrics w = Some (Some metrics) ->
  m_total_trades metrics = length (positions w) /\
  (m_open_positions_count metrics <= m_total_trades metrics)%nat /\
  (m_winning_trades metrics + m_losing_trades metrics
   <= m_total_trades metrics - m_open_positions_count metrics)%nat /\
  (0 <= m_win_rate metrics /\ m_win_rate metrics <= 100) /\
  0 <= m_average_win metrics /\ m_average_loss metrics <= 0 /\
  0 <= m_profit_factor metrics /\ 0 <= m_current_drawdown metrics.
Proof.
  intros Hrun. unfold result_of in Hrun.
  pose proof (calculate_portfolio_metrics_run w) as Hcalc.
  destruct (head (portfolio_by_id w)) as [portfolio_data|];
    [|rewrite Hcalc in Hrun; discriminate Hrun].
  cbv zeta in Hcalc. rewrite Hcalc in Hrun. injection Hrun as <-.
  set (sorted := sort_desc _ (positions w)).
  assert (Hlen : length sorted = length (positions w))
    by apply length_sort_desc.
  unfold compute_metrics.
  cbn [m_total_trades m_open_positions_count m_winning_trades m_losing_trades
       m_win_rate m_average_win m_average_loss m_profit_factor
       m_current_drawdown].
  set (closed := filter (fun p => ¬ Position.is_open p) sorted).
  set (winning := filter (fun p => Qgtb (Position.realized_pnl p) 0 = true)
                    closed).
  set (losing := filter (fun p => Qltb (Position.realized_pnl p) 0 = true)
                   closed).
  pose proof (length_filter_split (fun p => Position.is_open p) sorted)
    as Hsplit. cbv beta in Hsplit. fold closed in Hsplit.
  assert (Hwl : (length winning + length losing <= length closed)%nat).
  { apply length_two_filters. intros p Hw Hl.
    apply Qgtb_gt in Hw. apply Qltb_lt in Hl. lra. }
  assert (Hwins : Forall (fun x => 0 <= x) (map Position.realized_pnl winning)).
  { apply Forall_map_filter. intros p Hp. apply Qgtb_gt in Hp. lra. }
  assert (Hlosses : Forall (fun x => 0 <= - x)
                      (map Position.realized_pnl losing)).
  { apply Forall_map_filter. intros p Hp. apply Qltb_lt in Hp. lra. }
  assert (Hsumw : 0 <= py_sum (map Position.realized_pnl winning))
    by (rewrite py_sum_Qsum; apply Qsum_nonneg; exact Hwins).
  assert (Hsuml : py_sum (map Position.realized_pnl losing) <= 0).
  { rewrite py_sum_Qsum.
    induction Hlosses as [|x l Hx _ IH]; simpl; [lra|]. lra. }
  split; [exact Hlen|]. split; [lia|]. split; [lia|].
  split; [|split; [|split; [|split]]].
  - destruct closed as [|c closed'] eqn:Hc; [split; lra|].
    rewrite <- Hc in *. unfold count_of.
    apply count_ratio_range; [lia | rewrite Hc; simpl; lia].
  - destruct (map Position.realized_pnl winning) as [|x l] eqn:E; [lra|].
    rewrite <- E in *. apply Qle_shift_div_l.
    + apply count_pos. rewrite E. simpl. lia.
    + lra.
  - destruct (map Position.realized_pnl losing) as [|x l] eqn:E; [lra|].
    rewrite <- E in *. apply Qle_shift_div_r.
    + apply count_pos. rewrite E. simpl. lia.
    + lra.
  - match goal with
    | |- 0 <= (if Qgtb ?tl 0 then _ else _) =>
        destruct (Qgtb tl 0) eqn:Hloss; [|lra];
        apply Qgtb_gt in Hloss
    end.
    apply Qle_shift_div_l; [exact Hloss|].
    destruct (map Position.realized_pnl winning); lra.
  - match goal with
    | |- 0 <= (if ?b then _ else _) => destruct b; [apply py_max_ge_l | lra]
    end.
Qed.

(** The two closed trades and the open position of the sample ledger. *)
Lemma calculate_portfolio_metrics_coherent_witness :
  exists metrics,
    result_of calculate_portfolio_metrics traded_world = Some (Some metrics) /\
    m_total_trades metrics = 3%nat /\
    0 <= m_win_rate metrics /\ m_win_rate metrics <= 100.
Proof.
  destruct (result_of calculate_portfolio_metrics traded_world)
    as [[metrics|]|] eqn:Hrun;
    [|vm_compute in Hrun; discriminate Hrun
     |vm_compute in Hrun; discriminate Hrun].
  exists metrics. split; [reflexivity|].
  destruct (calculate_portfolio_metrics_coherent traded_world metrics Hrun)
    as (Htotal & _ & _ & Hrate & _).
  split; [exact Htotal | exact Hrate].
Defined.

(** ** Marking a position *)

(** X17.  [update_position_pnl] on an unknown identifier returns [False]
    and changes nothing.  On a known one it returns [True], records the
    price and the side-aware mark, and keeps the two excursions in step:
    the maximum unrealized P&L never decreases and is at least the new
    mark, the maximum unrealized loss never increases and is at most the
    new mark; the holding and the stop of the row are not touched. *)
Theorem update_position_pnl_excursions (position_id : uuid)
    (current_price : Q) (w : World) :
  let w' := world_after (update_position_pnl position_id current_price) w in
  match head (positions_by_id position_id w) with
  | None =>
      result_of (update_position_pnl position_id current_price) w
      = Some false /\ w' = w
  | Some p =>
      result_of (update_position_pnl position_id current_price) w
      = Some true /\
      exists p',
        head (positions_by_id position_id w') = Some p' /\
        Position.current_price p' = Some current_price /\
        Position.unrealized_pnl p' = position_unrealized p current_price /\
        Position.max_unrealized_pnl p <= Position.max_unrealized_pnl p' /\
        Position.unrealized_pnl p' <= Position.max_unrealized_pnl p' /\
        Position.max_unrealized_loss p' <= Position.max_unrealized_loss p /\
        Position.max_unrealized_loss p' <= Position.unrealized_pnl p' /\
        same_holding p p' /\ same_view p p'
  end.
Proof.
  unfold world_after, result_of, update_position_pnl, try_except, bind, get,
    partial, now, modify, ret, raise.
  destruct (head (positions_by_id position_id w)) as [p|] eqn:Hrow;
    cbn [fst snd]; [|split; reflexivity].
  split; [reflexivity|].
  eexists. split.
  - unfold positions_by_id in *. cbn [positions set_positions].
    apply (head_filter_update_where Position.id position_id); [|exact Hrow].
    reflexivity.
  - cbn [Position.current_price Position.unrealized_pnl
         Position.max_unrealized_pnl Position.max_unrealized_loss
         PositionRow.set_pnl].
    split; [reflexivity|]. split; [reflexivity|].
    split; [apply py_max_ge_l|]. split; [apply py_max_ge_r|].
    split; [apply py_min_le_l|]. split; [apply py_min_le_r|].
    split; [repeat split | reflexivity].
Qed.

(** ** The risk check after the accountant *)

(** X18.  The risk check reads what the accountant wrote.  When
    [calculate_portfolio_metrics] has returned its metrics for a portfolio
    whose total balance is not zero, the next [check_risk_limits] completes
    and reports a HIGH alert exactly when the daily P&L of these metrics is
    below minus the daily loss limit, or their exposure above 50% of the
    balance. *)
Theorem risk_check_reads_the_metrics (w : World) (portfolio_data : Portfolio.t)
    (metrics : Metrics) :
  head (portfolio_by_id w) = Some portfolio_data ->
  ~ Portfolio.total_balance_usd portfolio_data == 0 ->
  result_of calculate_portfolio_metrics w = Some (Some metrics) ->
  exists report,
    result_of check_risk_limits (world_after calculate_portfolio_metrics w)
    = Some report /\
    risk_status report = status_of (alerts report) /\
    (any_high (alerts report) = true <->
     m_daily_pnl metrics
     < - (Portfolio.total_balance_usd portfolio_data
          * (Portfolio.max_daily_loss_pct portfolio_data / 100)) \/
     50 < m_total_exposure_usd metrics
          / Portfolio.total_balance_usd portfolio_data * 100).
Proof.
  intros Hrow Hbalance Hrun.
  unfold result_of, world_after in *.
  pose proof (calculate_portfolio_metrics_run w) as Hcalc.
  rewrite Hrow in Hcalc. cbv zeta in Hcalc. rewrite Hcalc in Hrun |- *.
  injection Hrun as Hmetrics. cbn [snd].
  set (w' := set_portfolio _ w).
  assert (Hrow' : head (portfolio_by_id w')
                  = Some (set_metrics metrics (clock w) portfolio_data)).
  { subst w'. unfold portfolio_by_id in *. cbn [portfolio portfolio_id set_portfolio].
    rewrite (head_filter_update_decide
               (fun p => Some (Portfolio.id p) = portfolio_id w))
      by (intros x Hx; exact Hx).
    rewrite Hrow, Hmetrics. reflexivity. }
  destruct (check_risk_limits_completes w' _ Hrow' Hbalance)
    as (report & Hcheck & Hstatus & Hhigh).
  exists report. rewrite Hcheck. split; [reflexivity|].
  split; [exact Hstatus | exact Hhigh].
Qed.

(** The sample ledger: the open long of two units marked at 105 is an
    exposure of 210, 21% of the balance of 1000, and the closed trades of
    the day bring no daily loss: no HIGH alert. *)
Lemma risk_check_reads_the_metrics_witness :
  exists report,
    result_of check_risk_limits
      (world_after calculate_portfolio_metrics traded_world) = Some report /\
    any_high (alerts report) = false.
Proof.
  destruct (result_of calculate_portfolio_metrics traded_world)
    as [[metrics|]|] eqn:Hrun;
    [|vm_compute in Hrun; discriminate Hrun
     |vm_compute in Hrun; discriminate Hrun].
  destruct (risk_check_reads_the_metrics traded_world losing_portfolio metrics)
    as (report & Hcheck & _ & _).
  - reflexivity.
  - vm_compute. discriminate.
  - exact Hrun.
  - exists report. split; [exact Hcheck|].
    assert (H : Some report = Some report) by reflexivity.
    rewrite <- Hcheck in H at 1. vm_compute in H.
    injection H as <-. reflexivity.
Defined.

(** ** More on the bracket order manager *)

Section MoreOrderManagement.

Variable exchange : Kraken.Exchange.

#[local] Arguments py_round : simpl never.
#[local] Arguments Qltb : simpl never.
#[local] Arguments py_div : simpl never.

(** What [create_bracket_order] does to the world, whatever the exchange
    answers: nothing to the database, or one order, one position and one
    correlation entry. *)
Lemma create_bracket_order_outcome (signal : TradingSignal.t)
    (position_size_usd : Q) (w : World) :
  exists r w',
    create_bracket_order exchange signal position_size_usd w = (Some r, w') /\
    portfolio w' = portfolio w /\ crypto_pairs w' = crypto_pairs w /\
    portfolio_id w' = portfolio_id w /\ clock w' = clock w /\
    match r with
    | None =>
        orders w' = orders w /\ positions w' = positions w /\
        active_bracket_orders w' = active_bracket_orders w /\
        next_uuid w' = next_uuid w
    | Some p =>
        exists pair_ amount txid,
          head (pairs_by_id (TradingSignal.pair_id signal) w) = Some pair_ /\
          bracket_amount signal position_size_usd pair_ = Some amount /\
          CryptoPair.min_order_size pair_ <= amount /\
          let entry :=
            placed_order w txid (TradingSignal.pair_id signal)
              (Some (TradingSignal.id signal)) "limit" (entry_side signal)
              amount (Some (TradingSignal.entry_price signal)) in
          orders w' = orders w ++ [entry] /\
          positions w' = positions w ++ [p] /\
          active_bracket_orders w'
          = <[ next_uuid w :=
                 mkBracket (S (next_uuid w)) (next_uuid w)
                   (TradingSignal.id signal)
                   (TradingSignal.stop_loss_price signal)
                   (TradingSignal.target_price signal) (entry_side signal)
                   amount ]> (active_bracket_orders w) /\
          next_uuid w' = S (S (next_uuid w)) /\
          p = Position.mk (S (next_uuid w)) (TradingSignal.pair_id signal)
                (next_uuid w) (Some (TradingSignal.id signal))
                (if MarketAnalysis.is_buy (TradingSignal.signal_type signal)
                 then "long" else "short")
                amount (TradingSignal.entry_price signal) None 0 0 0
                (Some (TradingSignal.stop_loss_price signal))
                (Some (TradingSignal.target_price signal)) None true 0 amount
                (TradingSignal.strategy_type signal) 0 0 (clock w) (clock w)
                None
    end.
Proof.
  unfold create_bracket_order, try_except, bind, get, partial.
  destruct (head (pairs_by_id (TradingSignal.pair_id signal) w))
    as [pair_|] eqn:Hpair;
    [|exists None, w; cbn; repeat split].
  cbv beta iota. unfold ret at 1. cbv beta iota.
  destruct (py_div position_size_usd (TradingSignal.entry_price signal))
    as [raw|] eqn:Hraw;
    [|exists None, w; cbn; repeat split].
  cbv beta iota. unfold ret at 1. cbv beta iota.
  set (amount := py_round raw (CryptoPair.volume_precision pair_)).
  destruct (Qltb amount (CryptoPair.min_order_size pair_)) eqn:Hmin;
    [exists None, w; cbn; repeat split|].
  apply Qltb_ge in Hmin.
  fold (entry_side signal).
  destruct (_place_order_outcome exchange (TradingSignal.pair_id signal)
              (Some (TradingSignal.id signal)) "limit" (entry_side signal)
              amount (Some (TradingSignal.entry_price signal)) w)
    as (r & w1 & Hplace & Hpos & Hact & Hpairs & Hport & Hpid & Hclock & Hr).
  rewrite Hplace. cbv beta iota.
  destruct r as [entry_order|].
  - destruct Hr as (Horders & Hnext & txid & ->).
    eexists. eexists. split; [reflexivity|].
    cbn. rewrite Hport, Hpairs, Hpid, Hclock.
    repeat (split; [reflexivity|]).
    exists pair_, amount, txid.
    split; [reflexivity|].
    split; [unfold bracket_amount; rewrite Hraw; reflexivity|].
    split; [exact Hmin|].
    cbv zeta. rewrite Horders, Hpos, Hact, Hnext.
    repeat (split; [reflexivity|]).
    unfold entry_side.
    destruct (MarketAnalysis.is_buy (TradingSignal.signal_type signal));
      reflexivity.
  - destruct Hr as (Horders & Hnext).
    exists None, w1. split; [reflexivity|]. cbn. repeat split; assumption.
Qed.

(** X19.  When [create_bracket_order] returns a position, it has written
    exactly one order, one position and one correlation entry, with fresh
    identifiers.  The order is an open limit order at the entry price of
    the signal, for the notional over that price rounded to the volume
    precision of the pair, which is at least the minimum order size.  The
    position refers to that order, is open, long for a BUY or STRONG_BUY
    and short for any other signal type, holds the whole amount, carries the
    stop and the target of the signal, and has no trailing distance.  The
    correlation entry is filed under the identifier of the entry order. *)
Theorem create_bracket_order_opens_a_tracked_position
    (signal : TradingSignal.t) (position_size_usd : Q) (w : World)
    (p : Position.t) :
  result_of (create_bracket_order exchange signal position_size_usd) w
  = Some (Some p) ->
  let w' :=
    world_after (create_bracket_order exchange signal position_size_usd) w in
  exists entry pair_,
    orders w' = orders w ++ [entry] /\
    positions w' = positions w ++ [p] /\
    Order.id entry = next_uuid w /\ Position.id p = S (next_uuid w) /\
    next_uuid w' = S (S (next_uuid w)) /\
    head (pairs_by_id (TradingSignal.pair_id signal) w) = Some pair_ /\
    bracket_amount signal position_size_usd pair_ = Some (Order.amount entry) /\
    CryptoPair.min_order_size pair_ <= Order.amount entry /\
    (Order.order_type entry = "limit" /\ Order.status entry = "open" /\
     Order.side entry = entry_side signal /\
     Order.price entry = Some (TradingSignal.entry_price signal)) /\
    (Position.entry_order_id p = Order.id entry /\
     Position.is_open p = true /\
     Position.side p
     = (if MarketAnalysis.is_buy (TradingSignal.signal_type signal)
        then "long" else "short") /\
     Position.amount p = Order.amount entry /\
     Position.remaining_amount p = Order.amount entry /\
     Position.stop_loss_price p = Some (TradingSignal.stop_loss_price signal) /\
     Position.take_profit_price p = Some (TradingSignal.target_price signal) /\
     Position.trailing_stop_distance p = None) /\
    (b_position_id <$> active_bracket_orders w' !! Order.id entry)
    = Some (Position.id p).
Proof.
  unfold result_of, world_after.
  destruct (create_bracket_order_outcome signal position_size_usd w)
    as (r & w' & Hrun & _ & _ & _ & _ & Hr).
  rewrite Hrun. cbn [fst snd]. intros [= ->].
  destruct Hr as (pair_ & amount & txid & Hpair & Hamount & Hmin & Horders
                  & Hpositions & Hactive & Hnext & ->).
  eexists. exists pair_.
  split; [exact Horders|]. split; [exact Hpositions|].
  cbn [Order.id Order.amount Order.order_type Order.status Order.side
       Order.price placed_order Position.id Position.entry_order_id
       Position.is_open Position.side Position.amount
       Position.remaining_amount Position.stop_loss_price
       Position.take_profit_price Position.trailing_stop_distance].
  repeat split; try reflexivity; try assumption.
  rewrite Hactive, lookup_insert_eq. reflexivity.
Qed.

End MoreOrderManagement.

(** The sample signal for 100 USD on an exchange that accepts it: the
    order 10 and the position 11. *)
Lemma create_bracket_order_opens_a_tracked_position_witness :
  exists p,
    result_of (create_bracket_order exchange_up sample_signal 100) empty_world
    = Some (Some p) /\
    Position.id p = 11%nat /\
    map Order.id (orders entered_world) = [10%nat] /\
    positions entered_world = [p].
Proof.
  destruct (result_of (create_bracket_order exchange_up sample_signal 100)
              empty_world) as [[p|]|] eqn:Hrun;
    [|vm_compute in Hrun; discriminate Hrun
     |vm_compute in Hrun; discriminate Hrun].
  exists p. split; [reflexivity|].
  destruct (create_bracket_order_opens_a_tracked_position exchange_up
              sample_signal 100 empty_world p Hrun)
    as (entry & pair_ & Horders & Hpositions & Hentry & Hid & _).
  split; [exact Hid|].
  unfold entered_world. rewrite Horders, Hpositions.
  split; [simpl; now rewrite Hentry | reflexivity].
Defined.

Section StopAndClose.

Variable exchange : Kraken.Exchange.

Lemma cancel_order_world (txid : string) (w : World) :
  exists r,
    cancel_order exchange txid w
    = (r, log_call (Kraken.CancelOrder txid) w).
Proof.
  unfold cancel_order, bind, kraken_call.
  destruct (exchange (kraken_calls w) (Kraken.CancelOrder txid))
    as [[| | |]|]; eexists; reflexivity.
Qed.

(** What [adjust_stop_loss] returns and writes. *)
Lemma adjust_stop_loss_outcome (position_id : uuid) (new_stop_price : Q)
    (w : World) :
  exists b w',
    adjust_stop_loss exchange position_id new_stop_price w = (Some b, w') /\
    if b : bool then
      exists position new_order,
        head (open_positions_by_id position_id w) = Some position /\
        positions w'
        = update_where (fun p => Nat.eqb (Position.id p) position_id)
            (PositionRow.set_stop_loss_price new_stop_price) (positions w) /\
        orders w'
        = update_where
            (fun o => Nat.eqb (Order.id o) (Position.entry_order_id position))
            (OrderRow.set_stop_loss_order (Order.id new_order))
            (orders w ++ [new_order]) /\
        Order.id new_order = next_uuid w /\
        Order.order_type new_order = "stop-loss" /\
        Order.side new_order = closing_side (Position.side position) /\
        Order.amount new_order = Position.remaining_amount position /\
        Order.price new_order = Some new_stop_price
    else orders w' = orders w /\ positions w' = positions w.
Proof.
  unfold adjust_stop_loss, try_except, bind, get, partial.
  destruct (open_positions_by_id position_id w) as [|position others] eqn:Hopen;
    [exists false, w; repeat split|].
  destruct (head (orders_by_id (Position.entry_order_id position) w))
    as [entry_order|]; [|exists false, w; repeat split].
  cbv beta iota. unfold ret at 1. cbv beta iota.
  destruct (Order.stop_loss_order_id entry_order) as [stop_id|];
    [|exists false, w; repeat split].
  destruct (head (orders_by_id stop_id w)) as [current_stop_order|];
    [|exists false, w; repeat split].
  cbv beta iota. unfold ret at 1. cbv beta iota.
  assert (Hcancel :
            exists r w1,
              match nonempty_id (Order.kraken_order_id current_stop_order) with
              | Some txid => cancel_order exchange txid
              | None => ret tt
              end w = (r, w1) /\
              orders w1 = orders w /\ positions w1 = positions w /\
              next_uuid w1 = next_uuid w).
  { destruct (nonempty_id (Order.kraken_order_id current_stop_order))
      as [txid|].
    - destruct (cancel_order_world txid w) as (r & Hr).
      exists r, (log_call (Kraken.CancelOrder txid) w). auto.
    - exists (Some tt), w. auto. }
  destruct Hcancel as (r & w1 & Hcancel & Ho1 & Hp1 & Hn1).
  rewrite Hcancel. destruct r as [[]|];
    [|exists false, w1; repeat split; assumption].
  cbv beta iota.
  destruct (_place_order_outcome exchange (Position.pair_id position)
              (Position.signal_id position) "stop-loss"
              (closing_side (Position.side position))
              (Position.remaining_amount position) (Some new_stop_price) w1)
    as (placed & w2 & Hplace & Hp2 & _ & _ & _ & _ & _ & Hplaced).
  rewrite Hplace. cbv beta iota.
  destruct placed as [new_order|].
  - destruct Hplaced as (Ho2 & _ & txid & Hnew).
    exists true. eexists. split; [reflexivity|].
    exists position, new_order. cbn. rewrite Hp2, Hp1, Ho2, Ho1.
    repeat (split; [reflexivity|]).
    rewrite Hnew. unfold placed_order. cbn. rewrite Hn1. repeat split.
  - destruct Hplaced as (Ho2 & _).
    exists false, w2. split; [reflexivity|].
    rewrite Hp2, Hp1, Ho2, Ho1. split; reflexivity.
Qed.

(** X20.  [adjust_stop_loss] is all or nothing on the database.  When it
    returns [False] (no such open position, no recorded stop order, a
    failed cancellation or a refused placement) the orders and the
    positions are as they were.  When it returns [True], one stop-loss
    order for the remaining amount at the new price was appended with a
    fresh identifier and recorded on the entry order, and the stop of the
    position is the new price; the row of the replaced stop order is not
    touched. *)
Theorem adjust_stop_loss_all_or_nothing (position_id : uuid)
    (new_stop_price : Q) (w : World) :
  let w' := world_after (adjust_stop_loss exchange position_id new_stop_price) w in
  (result_of (adjust_stop_loss exchange position_id new_stop_price) w
   = Some false /\
   orders w' = orders w /\ positions w' = positions w) \/
  (result_of (adjust_stop_loss exchange position_id new_stop_price) w
   = Some true /\
   exists position new_order,
     head (open_positions_by_id position_id w) = Some position /\
     positions w'
     = update_where (fun p => Nat.eqb (Position.id p) position_id)
         (PositionRow.set_stop_loss_price new_stop_price) (positions w) /\
     orders w'
     = update_where
         (fun o => Nat.eqb (Order.id o) (Position.entry_order_id position))
         (OrderRow.set_stop_loss_order (Order.id new_order))
         (orders w ++ [new_order]) /\
     Order.id new_order = next_uuid w /\
     Order.order_type new_order = "stop-loss" /\
     Order.side new_order = closing_side (Position.side position) /\
     Order.amount new_order = Position.remaining_amount position /\
     Order.price new_order = Some new_stop_price).
Proof.
  unfold world_after, result_of.
  destruct (adjust_stop_loss_outcome position_id new_stop_price w)
    as (b & w' & Hrun & Hb).
  rewrite Hrun. cbn [fst snd]. destruct b; [right | left]; auto.
Qed.

Lemma with_calls_nil (w : World) : with_calls [] w = w.
Proof. destruct w. unfold with_calls. cbn. now rewrite app_nil_r. Qed.

Lemma with_calls_app (a b : list Kraken.Request) (w : World) :
  with_calls b (with_calls a w) = with_calls (a ++ b) w.
Proof. unfold with_calls. cbn. now rewrite app_assoc. Qed.

Lemma cancel_child_world (child : option uuid) (w : World) :
  exists r calls, cancel_child exchange child w = (r, with_calls calls w).
Proof.
  unfold cancel_child, bind, get, partial.
  destruct child as [order_id|];
    [|exists (Some tt), []; now rewrite with_calls_nil].
  destruct (head (orders_by_id order_id w)) as [order_data|];
    [|exists None, []; now rewrite with_calls_nil].
  cbv beta iota. unfold ret at 1. cbv beta iota.
  destruct (nonempty_id (Order.kraken_order_id order_data)) as [txid|].
  - destruct (cancel_order_world txid w) as (r & Hr).
    exists r, [Kraken.CancelOrder txid]. exact Hr.
  - exists (Some tt), []. now rewrite with_calls_nil.
Qed.

(** [_cancel_position_orders] talks to the exchange and writes nothing. *)
Lemma _cancel_position_orders_world (position_id : uuid) (w : World) :
  exists calls,
    _cancel_position_orders exchange position_id w
    = (Some tt, with_calls calls w).
Proof.
  unfold _cancel_position_orders, try_except, bind, get, partial.
  destruct (head (positions_by_id position_id w)) as [position_data|];
    [|exists []; now rewrite with_calls_nil].
  cbv beta iota. unfold ret at 1. cbv beta iota.
  destruct (head (orders_by_id (Position.entry_order_id position_data) w))
    as [entry_order|]; [|exists []; now rewrite with_calls_nil].
  cbv beta iota. unfold ret at 1. cbv beta iota.
  destruct (cancel_child_world (Order.stop_loss_order_id entry_order) w)
    as (r1 & calls1 & H1).
  rewrite H1. destruct r1 as [[]|]; [|exists calls1; reflexivity].
  destruct (cancel_child_world (Order.take_profit_order_id entry_order)
              (with_calls calls1 w)) as (r2 & calls2 & H2).
  rewrite H2, with_calls_app.
  destruct r2 as [[]|]; exists (calls1 ++ calls2); reflexivity.
Qed.

Lemma no_open_row_after_close (position_id : uuid) (t : datetime)
    (l : list Position.t) :
  filter (fun p => Position.is_open p)
    (filter (fun p => Position.id p = position_id)
       (update_where (fun p => Nat.eqb (Position.id p) position_id)
          (PositionRow.set_closed t) l)) = [].
Proof.
  unfold update_where. induction l as [|p l IH]; [reflexivity|]. simpl.
  rewrite filter_cons.
  destruct (Nat.eqb (Position.id p) position_id) eqn:E.
  - apply Nat.eqb_eq in E.
    rewrite decide_True by exact E.
    rewrite filter_cons, decide_False by (simpl; tauto). exact IH.
  - apply Nat.eqb_neq in E. rewrite decide_False by exact E. exact IH.
Qed.

(** What [close_position] returns and writes. *)
Lemma close_position_outcome (position_id : uuid) (w : World) :
  exists b w',
    close_position exchange position_id w = (Some b, w') /\
    if b : bool then
      exists position close_order,
        head (open_positions_by_id position_id w) = Some position /\
        positions w'
        = update_where (fun p => Nat.eqb (Position.id p) position_id)
            (PositionRow.set_closed (clock w)) (positions w) /\
        orders w' = orders w ++ [close_order] /\
        Order.id close_order = next_uuid w /\
        Order.order_type close_order = "market" /\
        Order.side close_order = closing_side (Position.side position) /\
        Order.amount close_order = Position.remaining_amount position /\
        Order.price close_order = None
    else orders w' = orders w /\ positions w' = positions w.
Proof.
  unfold close_position, try_except, bind, get.
  destruct (open_positions_by_id position_id w) as [|position others] eqn:Hopen;
    [exists false, w; repeat split|].
  destruct (_cancel_position_orders_world position_id w) as (calls & Hcancel).
  rewrite Hcancel. cbv beta iota.
  destruct (_place_order_outcome exchange (Position.pair_id position)
              (Position.signal_id position) "market"
              (closing_side (Position.side position))
              (Position.remaining_amount position) None (with_calls calls w))
    as (placed & w2 & Hplace & Hp2 & _ & _ & _ & _ & Hclock & Hplaced).
  rewrite Hplace. cbv beta iota.
  destruct placed as [close_order|].
  - destruct Hplaced as (Ho2 & _ & txid & Hnew).
    exists true. eexists. split; [reflexivity|].
    exists position, close_order. cbn. rewrite Hp2, Ho2, Hclock. cbn.
    repeat (split; [reflexivity|]).
    rewrite Hnew. unfold placed_order. cbn. repeat split.
  - destruct Hplaced as (Ho2 & _).
    exists false, w2. split; [reflexivity|].
    rewrite Hp2, Ho2. split; reflexivity.
Qed.

(** X21.  A position is closed once.  When [close_position] returns
    [True], one market order for the remaining amount, on the closing side,
    was appended, and the rows of the position are marked closed at the
    time of the call; no realized P&L is written.  A second call finds no
    open row: it returns [False], talks to no exchange and changes
    nothing. *)
Theorem close_position_closes_once (position_id : uuid) (w : World) :
  result_of (close_position exchange position_id) w = Some true ->
  let w' := world_after (close_position exchange position_id) w in
  (exists position close_order,
      head (open_positions_by_id position_id w) = Some position /\
      orders w' = orders w ++ [close_order] /\
      Order.order_type close_order = "market" /\
      Order.side close_order = closing_side (Position.side position) /\
      Order.amount close_order = Position.remaining_amount position) /\
  positions w'
  = update_where (fun p => Nat.eqb (Position.id p) position_id)
      (PositionRow.set_closed (clock w)) (positions w) /\
  map Position.realized_pnl (positions w')
  = map Position.realized_pnl (positions w) /\
  open_positions_by_id position_id w' = [] /\
  close_position exchange position_id w' = (Some false, w').
Proof.
  unfold result_of, world_after.
  destruct (close_position_outcome position_id w) as (b & w' & Hrun & Hb).
  rewrite Hrun. cbn [fst snd]. intros [= ->].
  destruct Hb as (position & close_order & Hopen & Hpositions & Horders
                  & _ & Htype & Hside & Hamount & _).
  assert (Hnone : open_positions_by_id position_id w' = []).
  { unfold open_positions_by_id, positions_by_id. rewrite Hpositions.
    apply no_open_row_after_close. }
  split; [exists position, close_order; auto|].
  split; [exact Hpositions|].
  split.
  { rewrite Hpositions. unfold update_where. rewrite map_map.
    apply map_ext. intros p. now destruct (Nat.eqb _ _). }
  split; [exact Hnone|].
  unfold close_position, try_except, bind, get. now rewrite Hnone.
Qed.

End StopAndClose.

(** The protected sample position is closed against the market. *)
Lemma close_position_closes_once_witness :
  result_of (close_position exchange_up 11) protected_world = Some true /\
  let w' := world_after (close_position exchange_up 11) protected_world in
  map Position.is_open (positions w') = [false] /\
  close_position exchange_up 11 w' = (Some false, w').
Proof.
  assert (Hrun : result_of (close_position exchange_up 11) protected_world
                 = Some true) by (vm_compute; reflexivity).
  split; [exact Hrun|]. intros w'.
  split; [vm_compute; reflexivity|].
  exact (proj2 (proj2 (proj2 (proj2
           (close_position_closes_once exchange_up 11%nat protected_world
              Hrun))))).
Defined.

(** ** Orders that never fill *)

(** X22.  Any report other than ["closed"] (a pending, canceled or expired
    order, or a report without a status) is recorded as ["open"]:
    [_update_order_status] writes the reported fill on the rows of the
    order, leaves their [filled_at] empty, touches nothing else and makes
    no call.  An order canceled at the exchange therefore stays open in the
    database, where [monitor_orders] selects it again at every tick. *)
Theorem unfilled_order_stays_open (exchange : Kraken.Exchange)
    (order : Order.t) (kraken_order : Kraken.OrderInfo) (w : World) :
  Kraken.status kraken_order <> Some "closed" ->
  let filled_amount := default 0 (Kraken.vol_exec kraken_order) in
  let average_price := Kraken.price kraken_order in
  let fee := default 0 (Kraken.fee kraken_order) in
  _update_order_status exchange order kraken_order w
  = (Some (Some (mkUpdate (Order.id order) (Order.status order) "open"
                   filled_amount average_price)),
     set_orders
       (update_where (fun o => Nat.eqb (Order.id o) (Order.id order))
          (OrderRow.set_status "open" filled_amount average_price fee
             (clock w) None))
       w) /\
  Forall (fun o => Order.id o = Order.id order ->
                   Order.status o = "open" /\ Order.filled_at o = None)
    (orders (world_after (_update_order_status exchange order kraken_order) w)).
Proof.
  intros Hstatus filled_amount average_price fee.
  assert (Hclosed : String.eqb (default "open" (Kraken.status kraken_order))
                      "closed" = false).
  { apply String.eqb_neq. intros E. apply Hstatus.
    destruct (Kraken.status kraken_order) as [s|]; simpl in E;
      [now subst | discriminate]. }
  assert (Hrun : _update_order_status exchange order kraken_order w
                 = (Some (Some (mkUpdate (Order.id order) (Order.status order)
                                  "open" filled_amount average_price)),
                    set_orders
                      (update_where
                         (fun o => Nat.eqb (Order.id o) (Order.id order))
                         (OrderRow.set_status "open" filled_amount
                            average_price fee (clock w) None))
                      w)).
  { unfold _update_order_status, try_except, bind, now, modify, get, ret.
    rewrite Hclosed. reflexivity. }
  split; [exact Hrun|].
  unfold world_after. rewrite Hrun. cbn [snd orders set_orders].
  unfold update_where.
  induction (orders w) as [|o l IH]; simpl; constructor; [|exact IH].
  intros Hid. destruct (Nat.eqb (Order.id o) (Order.id order)) eqn:E.
  - split; reflexivity.
  - apply Nat.eqb_neq in E. contradiction.
Qed.

(** The exchange reports the sample entry order canceled. *)
Lemma unfilled_order_stays_open_witness :
  map Order.status
    (orders
       (world_after
          (_update_order_status exchange_up sample_entry_order
             (Kraken.mkInfo (Some "canceled") None None None))
          entered_world))
  = ["open"].
Proof.
  pose proof (proj1 (unfilled_order_stays_open exchange_up sample_entry_order
                       (Kraken.mkInfo (Some "canceled") None None None)
                       entered_world ltac:(discriminate))) as Hrun.
  unfold world_after. rewrite Hrun. vm_compute. reflexivity.
Defined.

(** ** The executor of the signals *)

Section Executor.

Variable exchange : Kraken.Exchange.

(** What the loop of [execute_trading_signals] returns and writes. *)
Lemma execute_loop_outcome (portfolio_data : Portfolio.t)
    (signals : list TradingSignal.t) (acc : list Position.t) (w : World) :
  exists opened w',
    execute_loop exchange portfolio_data signals acc w
    = (Some (acc ++ opened), w') /\
    positions w' = positions w ++ opened /\
    (length opened <= length signals)%nat /\
    length (orders w') = (length (orders w) + length opened)%nat /\
    Forall (fun p => Position.is_open p = true /\
                     Position.remaining_amount p = Position.amount p) opened.
Proof.
  revert acc w. induction signals as [|signal rest IH]; intros acc w; simpl.
  - exists [], w. rewrite !app_nil_r.
    repeat split; simpl; try lia. constructor.
  - destruct (Qltb _ 50).
    + destruct (IH acc w) as (opened & w' & Hrun & Hpos & Hlen & Hord & Hall).
      exists opened, w'. repeat split; try assumption. lia.
    + unfold bind.
      destruct (create_bracket_order_outcome exchange signal
                  (Portfolio.available_balance_usd portfolio_data
                   * (TradingSignal.position_size_recommendation signal / 100))
                  w) as (r & w1 & Hrun1 & _ & _ & _ & _ & Hr).
      rewrite Hrun1. destruct r as [p|].
      * destruct Hr as (pair_ & amount & txid & _ & _ & _ & Ho1 & Hp1 & _
                        & _ & Hp).
        destruct (IH (acc ++ [p]) w1)
          as (opened & w' & Hrun & Hpos & Hlen & Hord & Hall).
        exists (p :: opened), w'.
        rewrite Hrun, Hpos, Hord, Hp1, Ho1, <- !app_assoc, length_app.
        simpl. repeat split; try lia.
        constructor; [|exact Hall]. subst p. split; reflexivity.
      * destruct Hr as (Ho1 & Hp1 & _).
        destruct (IH acc w1)
          as (opened & w' & Hrun & Hpos & Hlen & Hord & Hall).
        exists opened, w'. rewrite Hrun, Hpos, Hord, Hp1, Ho1.
        repeat split; try assumption. lia.
Qed.

(** X23.  [execute_trading_signals] never raises and opens at most three
    positions per call.  The positions it returns are exactly the rows it
    appended to the table, each of them open and holding its whole amount,
    and it appended one order for each of them. *)
Theorem execute_trading_signals_opens_at_most_three
    (signals : list TradingSignal.t) (w : World) :
  let w' := world_after (execute_trading_signals exchange signals) w in
  exists opened,
    result_of (execute_trading_signals exchange signals) w = Some opened /\
    (length opened <= 3)%nat /\
    (length opened <= length signals)%nat /\
    positions w' = positions w ++ opened /\
    length (orders w') = (length (orders w) + length opened)%nat /\
    Forall (fun p => Position.is_open p = true /\
                     Position.remaining_amount p = Position.amount p) opened.
Proof.
  assert (Hnothing :
            forall w0 : World,
              positions w0 = positions w -> orders w0 = orders w ->
              exists opened,
                Some (@nil Position.t) = Some opened /\
                (length opened <= 3)%nat /\
                (length opened <= length signals)%nat /\
                positions w0 = positions w ++ opened /\
                length (orders w0) = (length (orders w) + length opened)%nat /\
                Forall (fun p => Position.is_open p = true /\
                                 Position.remaining_amount p
                                 = Position.amount p) opened).
  { intros w0 Hp Ho. exists []. rewrite Hp, Ho, app_nil_r. simpl.
    repeat split; try lia. constructor. }
  assert (Hrun :
            exists r w',
              execute_trading_signals exchange signals w = (Some r, w') /\
              exists opened,
                Some r = Some opened /\
                (length opened <= 3)%nat /\
                (length opened <= length signals)%nat /\
                positions w' = positions w ++ opened /\
                length (orders w') = (length (orders w) + length opened)%nat /\
                Forall (fun p => Position.is_open p = true /\
                                 Position.remaining_amount p
                                 = Position.amount p) opened).
  { unfold execute_trading_signals, try_except, bind, get, partial.
    destruct (head (sort_desc _ (portfolio w))) as [portfolio_data|];
      [|exists [], w; split; [reflexivity | now apply Hnothing]].
    cbv beta iota. unfold ret at 1. cbv beta iota.
    destruct (Portfolio.is_trading_enabled portfolio_data); cbn [negb];
      [|exists [], w; split; [reflexivity | now apply Hnothing]].
    destruct (check_risk_limits_total w) as (report & Hcheck).
    rewrite Hcheck.
    destruct (String.eqb (risk_status report) "HIGH");
      [exists [], w; split; [reflexivity | now apply Hnothing]|].
    destruct (execute_loop_outcome portfolio_data
                (take 3 (sort_desc
                           (fun s s' => Qle_bool (TradingSignal.confidence s')
                                          (TradingSignal.confidence s))
                           signals)) [] w)
      as (opened & w' & Hloop & Hpos & Hlen & Hord & Hall).
    rewrite Hloop. exists opened, w'. split; [reflexivity|].
    exists opened. rewrite length_take, length_sort_desc in Hlen.
    repeat split; try assumption; lia. }
  destruct Hrun as (r & w' & Hrun & opened & Hr & Hrest).
  unfold world_after, result_of. rewrite Hrun. cbn [fst snd].
  exists opened. split; [exact Hr | exact Hrest].
Qed.

Lemma execute_loop_below_minimum (portfolio_data : Portfolio.t)
    (signals : list TradingSignal.t) (acc : list Position.t) (w : World) :
  Forall (fun s => Portfolio.available_balance_usd portfolio_data
                   * (TradingSignal.position_size_recommendation s / 100)
                   < 50) signals ->
  execute_loop exchange portfolio_data signals acc w = (Some acc, w).
Proof.
  induction 1 as [|signal rest Hs _ IH]; simpl; [reflexivity|].
  apply Qltb_lt in Hs. now rewrite Hs.
Qed.

(** X24.  The 50 USD minimum: when the notional of every signal, the
    available balance of the newest portfolio row times the recommended
    percentage, compares below 50, [execute_trading_signals] executes
    none of them.  It returns no position, makes no call and leaves the
    world as it is. *)
Theorem signals_below_the_minimum_are_skipped
    (signals : list TradingSignal.t) (w : World)
    (portfolio_data : Portfolio.t) :
  newest_portfolio w = Some portfolio_data ->
  Forall (fun s => Portfolio.available_balance_usd portfolio_data
                   * (TradingSignal.position_size_recommendation s / 100)
                   < 50) signals ->
  execute_trading_signals exchange signals w = (Some [], w).
Proof.
  intros Hrow Hsizes.
  unfold newest_portfolio in Hrow.
  unfold execute_trading_signals, try_except, bind, get, partial.
  rewrite Hrow. cbv beta iota. unfold ret at 1. cbv beta iota.
  destruct (Portfolio.is_trading_enabled portfolio_data); cbn [negb];
    [|reflexivity].
  destruct (check_risk_limits_total w) as (report & Hcheck).
  rewrite Hcheck.
  destruct (String.eqb (risk_status report) "HIGH"); [reflexivity|].
  rewrite execute_loop_below_minimum; [reflexivity|].
  apply Forall_take, Forall_sort_desc. exact Hsizes.
Qed.

End Executor.

(** A fresh portfolio has nothing available: the notional of the sample
    signal is 0, and it is not executed. *)
Lemma signals_below_the_minimum_are_skipped_witness :
  execute_trading_signals exchange_up [sample_signal]
    (world_after _initialize_portfolio empty_world)
  = (Some [], world_after _initialize_portfolio empty_world).
Proof.
  apply (signals_below_the_minimum_are_skipped exchange_up [sample_signal]
           (world_after _initialize_portfolio empty_world)
           (new_portfolio 10 1000)).
  - reflexivity.
  - repeat constructor.
Defined.

(** ** The order of the signals *)

Lemma insert_desc_perm {A} (geb : A -> A -> bool) (x : A) (l : list A) :
  insert_desc geb x l ≡ₚ x :: l.
Proof.
  induction l as [|y l IH]; simpl; [reflexivity|].
  destruct (geb x y); [reflexivity|].
  rewrite IH. apply Permutation_swap.
Qed.

Lemma sort_desc_perm {A} (geb : A -> A -> bool) (l : list A) :
  sort_desc geb l ≡ₚ l.
Proof.
  unfold sort_desc. induction l as [|x l IH]; simpl; [reflexivity|].
  now rewrite insert_desc_perm, IH.
Qed.

Lemma insert_desc_ordered {A} (key : A -> Q) (x : A) (l : list A) :
  ordered_desc key l ->
  ordered_desc key (insert_desc (fun a b => Qle_bool (key b) (key a)) x l).
Proof.
  induction l as [|y l IH]; simpl.
  - intros _. split; [constructor | exact I].
  - intros [Hy Hl].
    destruct (Qle_bool (key y) (key x)) eqn:E.
    + apply Qle_bool_iff in E. simpl. split; [|split; assumption].
      constructor; [exact E|].
      eapply Forall_impl; [exact Hy|]. intros z Hz. cbv beta in *. lra.
    + assert (Hlt : key x < key y).
      { apply Qnot_le_lt. intros H. apply Qle_bool_iff in H. congruence. }
      simpl. split; [|now apply IH].
      apply Forall_insert_desc; [lra | exact Hy].
Qed.

Lemma sort_desc_ordered {A} (key : A -> Q) (l : list A) :
  ordered_desc key (sort_desc (fun a b => Qle_bool (key b) (key a)) l).
Proof.
  unfold sort_desc. induction l as [|x l IH]; simpl; [exact I|].
  now apply insert_desc_ordered.
Qed.

Lemma ordered_desc_app {A} (key : A -> Q) (l1 l2 : list A) :
  ordered_desc key (l1 ++ l2) ->
  ordered_desc key l1 /\
  forall x y, x ∈ l1 -> y ∈ l2 -> key y <= key x.
Proof.
  induction l1 as [|a l1 IH]; simpl.
  - intros _. split; [exact I|]. intros x y Hx. inversion Hx.
  - intros [Ha Hrest]. apply Forall_app in Ha as [Ha1 Ha2].
    destruct (IH Hrest) as [Hord Hcross].
    split; [split; assumption|].
    intros x y Hx Hy. apply elem_of_cons in Hx as [-> | Hx].
    + rewrite Forall_forall in Ha2. now apply Ha2.
    + now apply Hcross.
Qed.

(** X25.  The signals that [execute_trading_signals] goes through are the
    most confident ones: [top_signals] holds three of the signals (all of
    them when there are fewer), in descending order of confidence, and no
    signal left out is more confident than one that was chosen. *)
Theorem most_confident_signals_first (signals : list TradingSignal.t) :
  exists rest,
    top_signals signals ++ rest ≡ₚ signals /\
    length (top_signals signals) = Nat.min 3 (length signals) /\
    ordered_desc TradingSignal.confidence (top_signals signals) /\
    forall s s',
      s ∈ top_signals signals -> s' ∈ rest ->
      TradingSignal.confidence s' <= TradingSignal.confidence s.
Proof.
  unfold top_signals.
  set (sorted := sort_desc _ signals).
  exists (drop 3 sorted).
  assert (Hord : ordered_desc TradingSignal.confidence
                   (take 3 sorted ++ drop 3 sorted)).
  { rewrite take_drop. apply sort_desc_ordered. }
  apply ordered_desc_app in Hord as [Htop Hcross].
  split; [rewrite take_drop; apply sort_desc_perm|].
  split; [rewrite length_take; subst sorted; now rewrite length_sort_desc|].
  split; assumption.
Qed.

(** ** The portfolio of the services *)

Lemma head_sort_desc_elem {A} (geb : A -> A -> bool) (l : list A) (x : A) :
  head (sort_desc geb l) = Some x -> x ∈ l.
Proof.
  intros Hhead.
  assert (Hall : Forall (fun y => y ∈ l) (sort_desc geb l)).
  { apply Forall_sort_desc, Forall_forall. auto. }
  destruct (sort_desc geb l) as [|y t]; [discriminate|].
  injection Hhead as ->. now apply Forall_cons in Hall as [Hx _].
Qed.

Lemma sort_desc_nil_inv {A} (geb : A -> A -> bool) (l : list A) :
  sort_desc geb l = [] -> l = [].
Proof.
  intros E. apply (f_equal length) in E. rewrite length_sort_desc in E.
  now destruct l.
Qed.

(** X26.  [_initialize_portfolio] never raises and leaves the service with
    the identifier of the newest portfolio row: the row that
    [execute_trading_signals] reads is then among the rows that the risk
    check and the accountant select by identifier.  An existing table is
    not written; on an empty one a single row with the defaults of the
    columns (no balance, trading enabled) is created.  A second call
    changes nothing. *)
Theorem _initialize_portfolio_selects_the_newest (w : World) :
  let w' := world_after _initialize_portfolio w in
  result_of _initialize_portfolio w = Some tt /\
  portfolio_id w' = Portfolio.id <$> newest_portfolio w' /\
  (exists row, newest_portfolio w' = Some row /\ row ∈ portfolio_by_id w') /\
  (portfolio w <> [] -> portfolio w' = portfolio w) /\
  (portfolio w = [] ->
   portfolio w' = [new_portfolio (next_uuid w) (clock w)]) /\
  world_after _initialize_portfolio w' = w'.
Proof.
  assert (Hexisting :
            forall w0 first rest,
              sort_desc
                (fun p q => (Portfolio.created_at q <=? Portfolio.created_at p)%Z)
                (portfolio w0) = first :: rest ->
              _initialize_portfolio w0
              = (Some tt, set_portfolio_id (Some (Portfolio.id first)) w0)).
  { intros w0 first rest Hsorted.
    unfold _initialize_portfolio, try_except, bind, get, modify.
    now rewrite Hsorted. }
  assert (Hsecond :
            forall w0 first rest,
              sort_desc
                (fun p q => (Portfolio.created_at q <=? Portfolio.created_at p)%Z)
                (portfolio w0) = first :: rest ->
              portfolio_id w0 = Some (Portfolio.id first) ->
              world_after _initialize_portfolio w0 = w0).
  { intros w0 first rest Hsorted Hid. unfold world_after.
    rewrite (Hexisting w0 first rest Hsorted). cbn [snd].
    destruct w0. unfold set_portfolio_id. cbn in *. now rewrite Hid. }
  intros w'. subst w'. unfold world_after, result_of.
  destruct (sort_desc
              (fun p q => (Portfolio.created_at q <=? Portfolio.created_at p)%Z)
              (portfolio w)) as [|first rest] eqn:Hsorted.
  - pose proof (sort_desc_nil_inv _ _ Hsorted) as Hempty.
    assert (Hrun : _initialize_portfolio w
                   = (Some tt,
                      set_portfolio_id (Some (next_uuid w))
                        (set_portfolio
                           (fun l => l ++ [new_portfolio (next_uuid w) (clock w)])
                           (set_next_uuid (S (next_uuid w)) w)))).
    { unfold _initialize_portfolio, try_except, bind, get, modify, fresh_uuid,
        now. now rewrite Hsorted. }
    rewrite Hrun. cbn [fst snd].
    set (w' := set_portfolio_id _ _).
    assert (Hport : portfolio w' = [new_portfolio (next_uuid w) (clock w)])
      by (subst w'; cbn; now rewrite Hempty).
    split; [reflexivity|].
    split; [unfold newest_portfolio; rewrite Hport; reflexivity|].
    split.
    { exists (new_portfolio (next_uuid w) (clock w)).
      split; [unfold newest_portfolio; rewrite Hport; reflexivity|].
      unfold portfolio_by_id. rewrite Hport.
      apply list_elem_of_filter. split; [reflexivity | apply list_elem_of_here]. }
    split; [congruence|]. split; [intros _; exact Hport|].
    apply (Hsecond w' (new_portfolio (next_uuid w) (clock w)) []);
      [rewrite Hport; reflexivity | reflexivity].
  - rewrite (Hexisting w first rest Hsorted). cbn [fst snd].
    set (w' := set_portfolio_id _ w).
    assert (Hport : portfolio w' = portfolio w) by reflexivity.
    split; [reflexivity|].
    split; [unfold newest_portfolio; rewrite Hport, Hsorted; reflexivity|].
    split.
    { exists first.
      split; [unfold newest_portfolio; rewrite Hport, Hsorted; reflexivity|].
      unfold portfolio_by_id. rewrite Hport.
      apply list_elem_of_filter. split; [reflexivity|].
      apply (head_sort_desc_elem
               (fun p q => (Portfolio.created_at q <=? Portfolio.created_at p)%Z)).
      now rewrite Hsorted. }
    split; [intros _; exact Hport|].
    split; [intros E; rewrite E in Hsorted; discriminate Hsorted|].
    apply (Hsecond w' first rest); [rewrite Hport; exact Hsorted | reflexivity].
Qed.

(** On the empty database a portfolio 10 is created; the second call
    changes nothing. *)
Lemma _initialize_portfolio_selects_the_newest_witness :
  let w' := world_after _initialize_portfolio empty_world in
  portfolio_id w' = Some 10%nat /\
  portfolio w' = [new_portfolio 10 1000] /\
  world_after _initialize_portfolio w' = w'.
Proof.
  intros w'.
  destruct (_initialize_portfolio_selects_the_newest empty_world)
    as (_ & _ & _ & _ & Hnew & Hagain).
  split; [reflexivity|]. split; [now apply Hnew | exact Hagain].
Defined.

(** ** The pace of the trading cycle *)

(** X27.  Only two of the four entries of [update_intervals] are ever
    consulted.  The monitoring of the orders and the update of the
    portfolio (like any other update type) are due at every cycle, whatever
    their configured intervals of 30 and 180 seconds.  The market data are
    due when they were never updated or when at least 60 seconds passed
    since their last update, the signals when they were never generated or
    at least 300 seconds passed; once due, they stay due. *)
Theorem _should_update_paces_two_steps (bot : Bot) (t : datetime)
    (update_type : string) :
  (update_type <> "market_data" -> update_type <> "signal_generation" ->
   _should_update bot t update_type = true) /\
  (_should_update bot t "market_data" = true <->
   forall last, last_market_update bot = Some last -> (last + 60 <= t)%Z) /\
  (_should_update bot t "signal_generation" = true <->
   forall last,
     last_signal_generation bot = Some last -> (last + 300 <= t)%Z) /\
  (forall later,
      (t <= later)%Z -> _should_update bot t update_type = true ->
      _should_update bot later update_type = true).
Proof.
  split; [|split; [|split]].
  - intros H1 H2. unfold _should_update.
    apply String.eqb_neq in H1, H2. now rewrite H1, H2.
  - unfold _should_update. cbn [String.eqb Ascii.eqb Bool.eqb andb].
    change (default 60%Z (update_intervals !! "market_data")) with 60%Z.
    destruct (last_market_update bot) as [last|].
    + rewrite Z.leb_le. split.
      * intros H last' [= <-]. lia.
      * intros H. specialize (H last eq_refl). lia.
    + split; [discriminate | reflexivity].
  - unfold _should_update. cbn [String.eqb Ascii.eqb Bool.eqb andb].
    change (default 60%Z (update_intervals !! "signal_generation"))
      with 300%Z.
    destruct (last_signal_generation bot) as [last|].
    + rewrite Z.leb_le. split.
      * intros H last' [= <-]. lia.
      * intros H. specialize (H last eq_refl). lia.
    + split; [discriminate | reflexivity].
  - intros later Hlater. unfold _should_update.
    destruct (String.eqb update_type "market_data");
      [|destruct (String.eqb update_type "signal_generation")];
      try reflexivity;
      match goal with
      | |- context [match ?x with _ => _ end] => destruct x
      end; try reflexivity; rewrite !Z.leb_le; lia.
Qed.

(** Market data updated at time 1000 and signals generated at time 900:
    at time 1030 the market data are not due, at time 1200 the signals
    are, and the monitoring is due at once. *)
Lemma _should_update_paces_two_steps_witness :
  _should_update (mkBot true (Some 1000%Z) (Some 900%Z)) 1030 "market_data"
  = false /\
  _should_update (mkBot true (Some 1000%Z) (Some 900%Z)) 1200
    "signal_generation" = true /\
  _should_update (mkBot true (Some 1000%Z) (Some 900%Z)) 1000
    "order_monitoring" = true.
Proof.
  split; [reflexivity|]. split.
  - apply (proj1 (proj2 (proj2 (_should_update_paces_two_steps
                                  (mkBot true (Some 1000%Z) (Some 900%Z))
                                  1200%Z "signal_generation")))).
    intros last [= <-]. lia.
  - apply (proj1 (_should_update_paces_two_steps
                    (mkBot true (Some 1000%Z) (Some 900%Z)) 1000%Z
                    "order_monitoring")); discriminate.
Defined.

(** ** Relations kept on the whole world *)

Section Evolves.

Variable R : World -> World -> Prop.
Hypothesis R_refl : forall w, R w w.
Hypothesis R_trans : forall w1 w2 w3, R w1 w2 -> R w2 w3 -> R w1 w3.

Lemma evolves_ret {A} (a : A) : evolves R (ret a).
Proof. intros w. apply R_refl. Qed.

Lemma evolves_raise {A} : evolves R (@raise A).
Proof. intros w. apply R_refl. Qed.

Lemma evolves_get : evolves R get.
Proof. intros w. apply R_refl. Qed.

Lemma evolves_now : evolves R now.
Proof. intros w. apply R_refl. Qed.

Lemma evolves_partial {A} (o : option A) : evolves R (partial o).
Proof. destruct o; [apply evolves_ret | apply evolves_raise]. Qed.

Lemma evolves_modify (f : World -> World) :
  (forall w, R w (f w)) -> evolves R (modify f).
Proof. intros Hf w. apply Hf. Qed.

Lemma evolves_bind {A B} (m : M A) (k : A -> M B) :
  evolves R m -> (forall a, evolves R (k a)) -> evolves R (bind m k).
Proof.
  intros Hm Hk w. unfold bind. specialize (Hm w).
  destruct (m w) as [[a|] w1]; simpl in *; [|exact Hm].
  eapply R_trans; [exact Hm | apply Hk].
Qed.

Lemma evolves_try {A} (body handler : M A) :
  evolves R body -> evolves R handler -> evolves R (try_except body handler).
Proof.
  intros Hb Hh w. unfold try_except. specialize (Hb w).
  destruct (body w) as [[a|] w1]; simpl in *; [exact Hb|].
  eapply R_trans; [exact Hb | apply Hh].
Qed.

End Evolves.

Create HintDb evolves_db.
#[export] Hint Resolve evolves_ret evolves_raise evolves_get evolves_now
  evolves_partial : evolves_db.

(** One step through the structure of a computation. *)
Ltac evolves_step :=
  match goal with
  | |- evolves _ (bind _ _) => apply evolves_bind; [assumption | | intros ?]
  | |- evolves _ (try_except _ _) => apply evolves_try; [assumption | | ]
  | |- evolves _ (match ?x with _ => _ end) => destruct x
  | |- evolves _ (if ?b then _ else _) => destruct b
  | |- evolves _ (modify _) =>
      apply evolves_modify; intros ?; solve [eauto with evolves_db]
  | |- evolves _ _ => solve [eauto with evolves_db]
  end.

Section WorldFrames.

Variable R : World -> World -> Prop.
Hypothesis R_refl : forall w, R w w.
Hypothesis R_trans : forall w1 w2 w3, R w1 w2 -> R w2 w3 -> R w1 w3.

(** What the relation is assumed to allow: a sendable call, a drawn
    identifier, a row inserted under the identifier just drawn, an update
    that keeps the identifiers of the rows, and any change of the
    portfolio, of the correlation map, of the portfolio identifier and of
    the clock. *)
Hypothesis R_log : forall r w, sendable r -> R w (log_call r w).
Hypothesis R_fresh : forall w, R w (set_next_uuid (S (next_uuid w)) w).
Hypothesis R_order_new : forall o w,
  Order.id o = next_uuid w ->
  R w (set_orders (fun l => l ++ [o]) (set_next_uuid (S (next_uuid w)) w)).
Hypothesis R_position_new : forall p w,
  Position.id p = next_uuid w ->
  R w (set_positions (fun l => l ++ [p]) (set_next_uuid (S (next_uuid w)) w)).
Hypothesis R_orders_update : forall pred f w,
  (forall o, Order.id (f o) = Order.id o) ->
  R w (set_orders (update_where pred f) w).
Hypothesis R_positions_update : forall pred f w,
  (forall p, Position.id (f p) = Position.id p) ->
  R w (set_positions (update_where pred f) w).
Hypothesis R_portfolio : forall f w, R w (set_portfolio f w).
Hypothesis R_active : forall f w, R w (set_active_bracket_orders f w).
Hypothesis R_portfolio_id : forall i w, R w (set_portfolio_id i w).
Hypothesis R_clock : forall t w, R w (set_clock t w).

Variable exchange : Kraken.Exchange.

Lemma evolves_fresh_uuid : evolves R fresh_uuid.
Proof. intros w. apply R_fresh. Qed.

Lemma evolves_kraken_call r : sendable r -> evolves R (kraken_call exchange r).
Proof. intros Hr w. now apply R_log. Qed.

Lemma evolves_cancel_order txid : evolves R (cancel_order exchange txid).
Proof.
  pose proof (evolves_kraken_call (Kraken.CancelOrder txid) I).
  unfold cancel_order. repeat evolves_step.
Qed.

Lemma evolves_query_orders ids : evolves R (query_orders exchange ids).
Proof.
  pose proof (evolves_kraken_call (Kraken.QueryOrders ids) I).
  unfold query_orders. repeat evolves_step.
Qed.

Lemma evolves_get_ticker pairs : evolves R (get_ticker exchange pairs).
Proof.
  pose proof (evolves_kraken_call (Kraken.Ticker pairs) I).
  unfold get_ticker. repeat evolves_step.
Qed.

Lemma sendable_place_request symbol order_type side amount price :
  sendable (place_request symbol order_type side amount price).
Proof.
  unfold place_request. destruct (String.eqb order_type "market"); simpl; auto.
Qed.

Lemma evolves_place_order pair_id signal_id order_type side amount price :
  evolves R
    (_place_order exchange pair_id signal_id order_type side amount price).
Proof.
  intros w.
  pose proof (_place_order_cases exchange pair_id signal_id order_type side
                amount price w) as Hcases.
  destruct (head (pairs_by_id pair_id w)) as [pair_data|];
    [|rewrite Hcases; apply R_refl].
  cbv zeta in Hcases.
  pose proof (sendable_place_request (CryptoPair.symbol pair_data) order_type
                side amount price) as Hsend.
  destruct (exchange (kraken_calls w) _) as [[txid| | |]|];
    rewrite Hcases; cbn [snd]; try (now apply R_log).
  unfold world_with_order.
  eapply R_trans; [apply R_log, Hsend|].
  apply (R_order_new
           (placed_order w txid pair_id signal_id order_type side amount price)
           (log_call (place_request (CryptoPair.symbol pair_data) order_type
                        side amount price) w)).
  reflexivity.
Qed.

Hint Resolve evolves_fresh_uuid evolves_cancel_order evolves_query_orders
  evolves_get_ticker evolves_place_order R_portfolio R_active R_portfolio_id
  : evolves_db.

Lemma evolves_orders_update pred f :
  (forall o, Order.id (f o) = Order.id o) ->
  evolves R (modify (set_orders (update_where pred f))).
Proof. intros Hf w. now apply R_orders_update. Qed.

Lemma evolves_positions_update pred f :
  (forall p, Position.id (f p) = Position.id p) ->
  evolves R (modify (set_positions (update_where pred f))).
Proof. intros Hf w. now apply R_positions_update. Qed.

Ltac evolves_steps :=
  repeat first
    [ apply evolves_orders_update; intros ?; reflexivity
    | apply evolves_positions_update; intros ?; reflexivity
    | evolves_step ].

Lemma evolves_create_bracket_order signal position_size_usd :
  evolves R (create_bracket_order exchange signal position_size_usd).
Proof.
  intros w.
  unfold create_bracket_order, try_except, bind, get, partial.
  destruct (head (pairs_by_id (TradingSignal.pair_id signal) w))
    as [pair_|]; [|apply R_refl].
  cbv beta iota. unfold ret at 1. cbv beta iota.
  destruct (py_div position_size_usd (TradingSignal.entry_price signal))
    as [raw|]; [|apply R_refl].
  cbv beta iota. unfold ret at 1. cbv beta iota.
  destruct (Qltb _ (CryptoPair.min_order_size pair_)); [apply R_refl|].
  match goal with
  | |- context [_place_order exchange ?a ?b ?c ?d ?e ?f w] =>
      pose proof (evolves_place_order a b c d e f w) as Hplace;
      destruct (_place_order exchange a b c d e f w) as [[[entry|]|] w1]
  end; cbn [snd] in Hplace; cbv beta iota; try exact Hplace.
  eapply R_trans; [exact Hplace|].
  cbn. eapply R_trans; [|apply R_active].
  now apply R_position_new.
Qed.

Hint Resolve evolves_create_bracket_order : evolves_db.

Lemma evolves_handle_entry_fill entry_order filled average_price :
  evolves R (_handle_entry_fill exchange entry_order filled average_price).
Proof. unfold _handle_entry_fill. evolves_steps. Qed.

Hint Resolve evolves_handle_entry_fill : evolves_db.

Lemma evolves_update_order_status order kraken_order :
  evolves R (_update_order_status exchange order kraken_order).
Proof. unfold _update_order_status. evolves_steps. Qed.

Hint Resolve evolves_update_order_status : evolves_db.

Lemma evolves_monitor_orders_loop kraken_orders open_orders updates :
  evolves R (monitor_orders_loop exchange kraken_orders open_orders updates).
Proof.
  revert updates.
  induction open_orders as [|order rest IH]; intros updates; simpl.
  - apply evolves_ret, R_refl.
  - apply evolves_bind; [assumption | | intros ?; apply IH].
    evolves_steps.
Qed.

Hint Resolve evolves_monitor_orders_loop : evolves_db.

Lemma evolves_monitor_orders : evolves R (monitor_orders exchange).
Proof. unfold monitor_orders. evolves_steps. Qed.

Lemma evolves_adjust_stop_loss position_id new_stop_price :
  evolves R (adjust_stop_loss exchange position_id new_stop_price).
Proof. unfold adjust_stop_loss. evolves_steps. Qed.

Lemma evolves_cancel_child child : evolves R (cancel_child exchange child).
Proof. unfold cancel_child. evolves_steps. Qed.

Hint Resolve evolves_monitor_orders evolves_adjust_stop_loss
  evolves_cancel_child : evolves_db.

Lemma evolves_cancel_position_orders position_id :
  evolves R (_cancel_position_orders exchange position_id).
Proof. unfold _cancel_position_orders. evolves_steps. Qed.

Hint Resolve evolves_cancel_position_orders : evolves_db.

Lemma evolves_close_position position_id :
  evolves R (close_position exchange position_id).
Proof. unfold close_position. evolves_steps. Qed.

Lemma evolves_update_position_pnl position_id current_price :
  evolves R (update_position_pnl position_id current_price).
Proof. unfold update_position_pnl. evolves_steps. Qed.

Lemma evolves_check_risk_limits : evolves R check_risk_limits.
Proof. intros w. rewrite check_risk_limits_pure. apply R_refl. Qed.

Lemma evolves_calculate_portfolio_metrics :
  evolves R calculate_portfolio_metrics.
Proof.
  unfold calculate_portfolio_metrics, _update_portfolio_metrics.
  evolves_steps.
Qed.

Lemma evolves_initialize_portfolio : evolves R _initialize_portfolio.
Proof. unfold _initialize_portfolio. evolves_steps. Qed.

Hint Resolve evolves_close_position evolves_update_position_pnl
  evolves_check_risk_limits evolves_calculate_portfolio_metrics
  evolves_initialize_portfolio : evolves_db.

Lemma evolves_execute_loop portfolio_data signals acc :
  evolves R (execute_loop exchange portfolio_data signals acc).
Proof.
  revert acc. induction signals as [|signal rest IH]; intros acc; simpl.
  - apply evolves_ret, R_refl.
  - destruct (Qltb _ 50); [apply IH|].
    apply evolves_bind; [assumption | apply evolves_create_bracket_order|].
    intros [p|]; apply IH.
Qed.

Hint Resolve evolves_execute_loop : evolves_db.

Lemma evolves_execute_trading_signals signals :
  evolves R (execute_trading_signals exchange signals).
Proof. unfold execute_trading_signals. evolves_steps. Qed.

Lemma evolves_check_trailing_stop position current_price :
  evolves R (_check_trailing_stop exchange position current_price).
Proof. unfold _check_trailing_stop. evolves_steps. Qed.

Hint Resolve evolves_check_trailing_stop : evolves_db.

Lemma evolves_monitor_position_step position adjustments :
  evolves R (monitor_position_step exchange position adjustments).
Proof. unfold monitor_position_step. evolves_steps. Qed.

Lemma evolves_monitor_positions_loop open_positions adjustments :
  evolves R (monitor_positions_loop exchange open_positions adjustments).
Proof.
  revert adjustments.
  induction open_positions as [|position rest IH]; intros adjustments; simpl.
  - apply evolves_ret, R_refl.
  - apply evolves_bind; [assumption | | intros ?; apply IH].
    apply evolves_monitor_position_step.
Qed.

Hint Resolve evolves_monitor_positions_loop : evolves_db.

Lemma evolves_monitor_positions : evolves R (monitor_positions exchange).
Proof. unfold monitor_positions. evolves_steps. Qed.

Lemma evolves_perform op w : R w (perform exchange op w).
Proof.
  destruct op; unfold perform, world_after.
  - apply evolves_create_bracket_order.
  - apply evolves_execute_trading_signals.
  - apply evolves_monitor_orders.
  - apply evolves_monitor_positions.
  - apply evolves_adjust_stop_loss.
  - apply evolves_close_position.
  - apply evolves_update_position_pnl.
  - apply evolves_calculate_portfolio_metrics.
  - apply evolves_check_risk_limits.
  - apply evolves_initialize_portfolio.
Qed.

Lemma evolves_perform_all ops w : R w (perform_all exchange ops w).
Proof.
  revert w. induction ops as [|[t op] rest IH]; intros w; simpl;
    [apply R_refl|].
  eapply R_trans; [apply R_clock|].
  eapply R_trans; [apply evolves_perform | apply IH].
Qed.

End WorldFrames.

(** ** What reaches the exchange *)

Lemma history_grows_refl w : history_grows w w.
Proof. exists []. split; [now rewrite app_nil_r | constructor]. Qed.

Lemma history_grows_same w w' :
  kraken_calls w' = kraken_calls w -> history_grows w w'.
Proof.
  intros E. exists []. split; [now rewrite E, app_nil_r | constructor].
Qed.

Lemma history_grows_trans w1 w2 w3 :
  history_grows w1 w2 -> history_grows w2 w3 -> history_grows w1 w3.
Proof.
  intros (a & Ha & Hsa) (b & Hb & Hsb). exists (a ++ b). split.
  - rewrite Hb, Ha. now rewrite app_assoc.
  - apply Forall_app. split; assumption.
Qed.

(** X28.  No stop order ever reaches the exchange.  Whatever the services
    do, the history of the calls only grows, and every order they send is a
    market order or a limit order: [_place_order] turns any order type but
    ["market"] into ["limit"], so that the ["stop-loss"] of a bracket is
    sent as a limit order at the stop price. *)
Theorem only_market_and_limit_orders_are_sent (exchange : Kraken.Exchange)
    (ops : list (datetime * Operation)) (w : World) :
  (exists calls,
      kraken_calls (perform_all exchange ops w) = kraken_calls w ++ calls /\
      Forall sendable calls) /\
  (forall symbol side amount price,
      place_request symbol "stop-loss" side amount price
      = Kraken.AddOrder symbol side "limit" amount
          (if truthy price then price else None)).
Proof.
  split; [|reflexivity].
  apply (evolves_perform_all history_grows history_grows_refl
           history_grows_trans).
  - intros r w0 Hr. exists [r]. split; [reflexivity|].
    constructor; [exact Hr | constructor].
  - intros w0. now apply history_grows_same.
  - intros o w0 _. now apply history_grows_same.
  - intros p w0 _. now apply history_grows_same.
  - intros pred f w0 _. now apply history_grows_same.
  - intros pred f w0 _. now apply history_grows_same.
  - intros f w0. now apply history_grows_same.
  - intros f w0. now apply history_grows_same.
  - intros i w0. now apply history_grows_same.
  - intros t w0. now apply history_grows_same.
Qed.

(** ** Primary keys *)

Lemma map_id_update_where {A} (key : A -> nat) (pred : A -> bool) (f : A -> A)
    (l : list A) :
  (forall x, key (f x) = key x) ->
  map key (update_where pred f l) = map key l.
Proof.
  intros Hf. unfold update_where. rewrite map_map. apply map_ext.
  intros x. now destruct (pred x).
Qed.

Lemma NoDup_fresh_key {A} (key : A -> nat) (l : list A) (x : A) (n : nat) :
  NoDup (map key l) -> Forall (fun y => (key y < n)%nat) l -> key x = n ->
  NoDup (map key (l ++ [x])).
Proof.
  intros Hnd Hlt Hx. rewrite map_app. apply NoDup_app.
  split; [exact Hnd|]. split; [|simpl; apply NoDup_singleton].
  intros k Hk Hin. simpl in Hin. apply list_elem_of_singleton in Hin.
  subst k. rewrite Hx in Hk.
  clear Hnd. induction Hlt as [|y l Hy _ IH]; simpl in Hk.
  - inversion Hk.
  - apply elem_of_cons in Hk as [E | Hk]; [lia | now apply IH].
Qed.

Lemma Forall_lt_S {A} (key : A -> nat) (l : list A) (n : nat) :
  Forall (fun y => (key y < n)%nat) l -> Forall (fun y => (key y < S n)%nat) l.
Proof.
  intros H. eapply Forall_impl; [exact H|]. intros y Hy. cbv beta in *. lia.
Qed.

(** X29.  The identifiers stay primary keys.  When the identifiers of the
    orders and those of the positions have no duplicate and were all drawn
    before the next identifier, the same holds after any sequence of
    operations of the services: a row is only ever inserted under a newly
    drawn identifier, and no update changes the identifier of a row. *)
Theorem identifiers_stay_unique (exchange : Kraken.Exchange)
    (ops : list (datetime * Operation)) (w : World) :
  well_keyed w -> well_keyed (perform_all exchange ops w).
Proof.
  apply (evolves_perform_all (fun w w' => well_keyed w -> well_keyed w')).
  - auto.
  - auto.
  - intros r w0 _ H. exact H.
  - intros w0 (Ho & Hp & Hol & Hpl). repeat split; try assumption;
      cbn; now apply Forall_lt_S.
  - intros o w0 Hid (Ho & Hp & Hol & Hpl). repeat split; cbn.
    + now apply NoDup_fresh_key with (next_uuid w0).
    + exact Hp.
    + apply Forall_app. split; [now apply Forall_lt_S|].
      constructor; [lia | constructor].
    + now apply Forall_lt_S.
  - intros p w0 Hid (Ho & Hp & Hol & Hpl). repeat split; cbn.
    + exact Ho.
    + now apply NoDup_fresh_key with (next_uuid w0).
    + now apply Forall_lt_S.
    + apply Forall_app. split; [now apply Forall_lt_S|].
      constructor; [lia | constructor].
  - intros pred f w0 Hf (Ho & Hp & Hol & Hpl). repeat split; cbn;
      try assumption.
    + now rewrite map_id_update_where.
    + apply Forall_update_where; [|exact Hol]. intros x Hx. now rewrite Hf.
  - intros pred f w0 Hf (Ho & Hp & Hol & Hpl). repeat split; cbn;
      try assumption.
    + now rewrite map_id_update_where.
    + apply Forall_update_where; [|exact Hpl]. intros x Hx. now rewrite Hf.
  - intros f w0 H. exact H.
  - intros f w0 H. exact H.
  - intros i w0 H. exact H.
  - intros t w0 H. exact H.
Qed.

(** From the empty database: a portfolio, the sample position, its
    reconciliation, a moved stop and the closing order bear six different
    identifiers. *)
Lemma identifiers_stay_unique_witness :
  well_keyed empty_world /\
  let w' :=
    perform_all exchange_up
      [(1000%Z, InitializePortfolio);
       (1010%Z, CreateBracketOrder sample_signal 100);
       (1020%Z, MonitorPositions);
       (1030%Z, AdjustStopLoss 12 99);
       (1040%Z, ClosePosition 12)] empty_world in
  map Order.id (orders w') = [11; 13; 14; 15; 16]%nat /\ well_keyed w'.
Proof.
  assert (H0 : well_keyed empty_world).
  { repeat split; constructor. }
  split; [exact H0|]. intros w'.
  split; [vm_compute; reflexivity|].
  apply identifiers_stay_unique. exact H0.
Defined.

(** ** An exchange that cannot be reached *)

Section Outage.

Variable exchange : Kraken.Exchange.
Hypothesis outage : unreachable exchange.

#[local] Arguments py_round : simpl never.
#[local] Arguments Qltb : simpl never.
#[local] Arguments py_div : simpl never.

Lemma kraken_call_down r w :
  kraken_call exchange r w = (None, with_calls [r] w).
Proof. unfold kraken_call. now rewrite outage. Qed.

Lemma _place_order_down pair_id signal_id order_type side amount price w :
  exists calls,
    _place_order exchange pair_id signal_id order_type side amount price w
    = (Some None, with_calls calls w).
Proof.
  pose proof (_place_order_cases exchange pair_id signal_id order_type side
                amount price w) as Hcases.
  destruct (head (pairs_by_id pair_id w)) as [pair_data|].
  - cbv zeta in Hcases. rewrite outage in Hcases.
    eexists [_]. exact Hcases.
  - exists []. now rewrite with_calls_nil.
Qed.

Lemma create_bracket_order_down signal position_size_usd w :
  exists calls,
    create_bracket_order exchange signal position_size_usd w
    = (Some None, with_calls calls w).
Proof.
  unfold create_bracket_order, try_except, bind, get, partial.
  destruct (head (pairs_by_id (TradingSignal.pair_id signal) w))
    as [pair_|]; [|exists []; now rewrite with_calls_nil].
  cbv beta iota. unfold ret at 1. cbv beta iota.
  destruct (py_div position_size_usd (TradingSignal.entry_price signal))
    as [raw|]; [|exists []; now rewrite with_calls_nil].
  cbv beta iota. unfold ret at 1. cbv beta iota.
  destruct (Qltb _ (CryptoPair.min_order_size pair_));
    [exists []; now rewrite with_calls_nil|].
  match goal with
  | |- context [_place_order exchange ?a ?b ?c ?d ?e ?f w] =>
      destruct (_place_order_down a b c d e f w) as (calls & Hplace)
  end.
  rewrite Hplace. exists calls. reflexivity.
Qed.

Lemma execute_loop_down portfolio_data signals acc w :
  exists calls,
    execute_loop exchange portfolio_data signals acc w
    = (Some acc, with_calls calls w).
Proof.
  revert w. induction signals as [|signal rest IH]; intros w; simpl.
  - exists []. now rewrite with_calls_nil.
  - destruct (Qltb _ 50); [apply IH|].
    unfold bind.
    match goal with
    | |- context [create_bracket_order exchange ?s ?u w] =>
        destruct (create_bracket_order_down s u w) as (calls1 & Hcreate)
    end.
    rewrite Hcreate.
    destruct (IH (with_calls calls1 w)) as (calls2 & Hrest).
    rewrite Hrest, with_calls_app. eauto.
Qed.

Lemma monitor_orders_down w :
  exists calls, monitor_orders exchange w = (Some [], with_calls calls w).
Proof.
  unfold monitor_orders, try_except, bind, get.
  destruct (open_exchange_orders w) as [|order rest];
    [exists []; now rewrite with_calls_nil|].
  unfold query_orders, bind. rewrite kraken_call_down. eauto.
Qed.

Lemma cancel_order_down txid w :
  cancel_order exchange txid w
  = (None, with_calls [Kraken.CancelOrder txid] w).
Proof. unfold cancel_order, bind. now rewrite kraken_call_down. Qed.

Lemma adjust_stop_loss_down position_id new_stop_price w :
  exists calls,
    adjust_stop_loss exchange position_id new_stop_price w
    = (Some false, with_calls calls w).
Proof.
  unfold adjust_stop_loss, try_except, bind, get, partial.
  destruct (open_positions_by_id position_id w) as [|position others];
    [exists []; now rewrite with_calls_nil|].
  destruct (head (orders_by_id (Position.entry_order_id position) w))
    as [entry_order|]; [|exists []; now rewrite with_calls_nil].
  cbv beta iota. unfold ret at 1. cbv beta iota.
  destruct (Order.stop_loss_order_id entry_order) as [stop_id|];
    [|exists []; now rewrite with_calls_nil].
  destruct (head (orders_by_id stop_id w)) as [current_stop_order|];
    [|exists []; now rewrite with_calls_nil].
  cbv beta iota. unfold ret at 1. cbv beta iota.
  destruct (nonempty_id (Order.kraken_order_id current_stop_order))
    as [txid|].
  - rewrite cancel_order_down. eauto.
  - unfold ret at 1. cbv beta iota.
    match goal with
    | |- context [_place_order exchange ?a ?b ?c ?d ?e ?f w] =>
        destruct (_place_order_down a b c d e f w) as (calls & Hplace)
    end.
    rewrite Hplace. eauto.
Qed.

Lemma close_position_down position_id w :
  exists calls,
    close_position exchange position_id w = (Some false, with_calls calls w).
Proof.
  unfold close_position, try_except, bind, get.
  destruct (open_positions_by_id position_id w) as [|position others];
    [exists []; now rewrite with_calls_nil|].
  destruct (_cancel_position_orders_world exchange position_id w)
    as (calls1 & Hcancel).
  rewrite Hcancel. cbv beta iota.
  match goal with
  | |- context [_place_order exchange ?a ?b ?c ?d ?e ?f ?w1] =>
      destruct (_place_order_down a b c d e f w1) as (calls2 & Hplace)
  end.
  rewrite Hplace, with_calls_app. eauto.
Qed.

Lemma monitor_positions_loop_down open_positions adjustments w :
  exists calls,
    monitor_positions_loop exchange open_positions adjustments w
    = (match open_positions with [] => Some adjustments | _ => None end,
       with_calls calls w).
Proof.
  destruct open_positions as [|position rest]; simpl.
  - exists []. now rewrite with_calls_nil.
  - unfold bind, monitor_position_step, bind, get, partial.
    destruct (head (pairs_by_id (Position.pair_id position) w))
      as [pair_data|]; [|exists []; now rewrite with_calls_nil].
    cbv beta iota. unfold ret at 1. cbv beta iota.
    unfold get_ticker, bind. rewrite kraken_call_down. eauto.
Qed.

(** X30.  An outage of the exchange writes nothing.  When every call of
    the exchange raises, the operations that talk to it leave the whole
    world as it is but for the history of the attempted calls:
    [create_bracket_order] returns no position, [execute_trading_signals]
    none either, [adjust_stop_loss] and [close_position] return [False],
    [monitor_orders] returns no update, and [monitor_positions] gives the
    empty dict of its handler as soon as one position is open: the failure
    of the first ticker ends the loop over the positions. *)
Theorem exchange_outage_writes_nothing (w : World) :
  (forall signal position_size_usd,
      exists calls,
        create_bracket_order exchange signal position_size_usd w
        = (Some None, with_calls calls w)) /\
  (forall signals,
      exists calls,
        execute_trading_signals exchange signals w
        = (Some [], with_calls calls w)) /\
  (forall position_id new_stop_price,
      exists calls,
        adjust_stop_loss exchange position_id new_stop_price w
        = (Some false, with_calls calls w)) /\
  (forall position_id,
      exists calls,
        close_position exchange position_id w
        = (Some false, with_calls calls w)) /\
  (exists calls, monitor_orders exchange w = (Some [], with_calls calls w)) /\
  (exists calls,
      monitor_positions exchange w
      = (Some (match all_open_positions w with
               | [] => Some (mkMonitor [] [] 0)
               | _ => None
               end),
         with_calls calls w)).
Proof.
  split; [intros; apply create_bracket_order_down|].
  split.
  { intros signals.
    unfold execute_trading_signals, try_except, bind, get, partial.
    destruct (head (sort_desc _ (portfolio w))) as [portfolio_data|];
      [|exists []; now rewrite with_calls_nil].
    cbv beta iota. unfold ret at 1. cbv beta iota.
    destruct (Portfolio.is_trading_enabled portfolio_data); cbn [negb];
      [|exists []; now rewrite with_calls_nil].
    destruct (check_risk_limits_total w) as (report & Hcheck).
    rewrite Hcheck.
    destruct (String.eqb (risk_status report) "HIGH");
      [exists []; now rewrite with_calls_nil|].
    match goal with
    | |- context [execute_loop exchange ?p ?s ?a w] =>
        destruct (execute_loop_down p s a w) as (calls & Hloop)
    end.
    rewrite Hloop. eauto. }
  split; [intros; apply adjust_stop_loss_down|].
  split; [intros; apply close_position_down|].
  split; [apply monitor_orders_down|].
  unfold monitor_positions, try_except, bind, get.
  destruct (monitor_orders_down w) as (calls1 & Horders).
  rewrite Horders.
  change (all_open_positions (with_calls calls1 w))
    with (all_open_positions w).
  destruct (monitor_positions_loop_down (all_open_positions w) []
              (with_calls calls1 w)) as (calls2 & Hloop).
  rewrite Hloop, with_calls_app.
  destruct (all_open_positions w); eauto.
Qed.

End Outage.

(** On the exchange that is down, the protected sample position can be
    neither closed nor monitored. *)
Lemma exchange_outage_writes_nothing_witness :
  unreachable exchange_down /\
  (exists calls,
      close_position exchange_down 11 protected_world
      = (Some false, with_calls calls protected_world)) /\
  (exists calls,
      monitor_positions exchange_down protected_world
      = (Some None, with_calls calls protected_world)).
Proof.
  assert (Hdown : unreachable exchange_down) by (intros history r; reflexivity).
  split; [exact Hdown|].
  destruct (exchange_outage_writes_nothing exchange_down Hdown protected_world)
    as (_ & _ & _ & Hclose & _ & Hmonitor).
  split; [apply Hclose | exact Hmonitor].
Defined.
